(** * rockboards-api: the mNAV pipeline and the alert monitor

    A shallow embedding of
    - the mNAV service that [src/types/index.ts] holds twice (from each
      [import { supabaseServiceRole }] on; the two copies differ in their
      logging only): the series filler [postFillMetrics] and the NAV
      computation [calculateCurrentNAV],
    - [src/routes/mnav-monitor.ts] (the cron route [checkMnavThresholds]),
    - the class [MnavMonitorService] of
      [src/services/finnhub-websocket.ts],
    followed by the properties the specification states about them.

    JavaScript numbers are IEEE 754 binary64 values: they are modelled by
    [spec_float] with the operations of [SpecFloat] at precision 53 and
    maximal exponent 1024, so [Infinity], [NaN] and the signed zeros are
    all present and every operation rounds as the hardware does. *)

From Stdlib Require Import ZArith List String Bool Lia SpecFloat.
From Stdlib Require Import QArith Qpower Qabs Lqa Permutation Sorted.
From Stdlib Require Ascii NArith.
Import ListNotations.
Local Open Scope Z_scope.

(** ** JavaScript numbers *)

Module JsNum.

Definition number : Type := spec_float.

Definition prec : Z := 53.
Definition emax : Z := 1024.

Definition add : number -> number -> number := SFadd prec emax.
Definition sub : number -> number -> number := SFsub prec emax.
Definition mul : number -> number -> number := SFmul prec emax.
Definition div : number -> number -> number := SFdiv prec emax.

(** [a < b], [a > b], [a <= b] and [a === b]; every comparison with
    [NaN] is false. *)
Definition lt (a b : number) : bool := SFltb a b.
Definition gt (a b : number) : bool := SFltb b a.
Definition le (a b : number) : bool := SFleb a b.
Definition strictEq (a b : number) : bool := SFeqb a b.

(** An integer literal. *)
Definition ofZ (z : Z) : number := binary_normalize prec emax z 0 false.

Definition zero : number := S754_zero false.
Definition Infinity : number := S754_infinity false.
Definition NaN : number := S754_nan.

(** [Boolean(x)]: a number is falsy when it is [0], [-0] or [NaN]. *)
Definition truthy (x : number) : bool :=
  match x with
  | S754_zero _ | S754_nan => false
  | _ => true
  end.

(** [Number.isFinite(x)]. *)
Definition isFinite (x : number) : bool :=
  match x with
  | S754_zero _ | S754_finite _ _ _ => true
  | _ => false
  end.

Definition isNaN (x : number) : bool :=
  match x with
  | S754_nan => true
  | _ => false
  end.

(** [Boolean(v)] for [v : number | undefined]. *)
Definition truthyOpt (v : option number) : bool :=
  match v with
  | Some x => truthy x
  | None => false
  end.

(** [v || 0] for [v : number | undefined]. *)
Definition orZero (v : option number) : number :=
  match v with
  | Some x => if truthy x then x else zero
  | None => zero
  end.

(** [v || 0] for [v : number]. *)
Definition numOrZero (x : number) : number :=
  if truthy x then x else zero.

(** [number | null | undefined]: a numeric column of a row as the
    database client returns it, [null] for SQL NULL, or a property the
    object does not have, [undefined]. *)
Inductive column : Type :=
| Undefined
| Null
| Num (x : number).

(** The number a column holds, when it holds one.  [null] and
    [undefined] are both falsy, so [Boolean(c)] is [truthyOpt (num c)]
    and [c || 0] is [orZero (num c)]. *)
Definition num (c : column) : option number :=
  match c with
  | Num x => Some x
  | Undefined | Null => None
  end.

(** [c !== undefined] *)
Definition notUndefined (c : column) : bool :=
  match c with
  | Undefined => false
  | Null | Num _ => true
  end.

(** The column of a row read from the table: the number, or [null]. *)
Definition ofOption (v : option number) : column :=
  match v with
  | Some x => Num x
  | None => Null
  end.

End JsNum.

(** ** The NAV formulas, over any arithmetic

    The four assignments of [calculateCurrentNAV]

      ethMarketValue = ethHoldings * ethPrice
      totalNavValue  = ethMarketValue + usdHoldings + alternativeAssetsValue
      navPerShare    = totalNavValue / sharesOutstanding
      marketCap      = stockPrice * sharesOutstanding
      mNav           = marketCap / totalNavValue

    are written once over an arbitrary carrier, so that the program runs
    them on binary64 and the algebraic reading of the specification runs
    them on the rationals. *)

Module NavFormulas.
Section Generic.
Context {N : Type}.
Variables (addN mulN divN : N -> N -> N).

Record NavValues : Type := {
  ethMarketValue : N;
  totalNavValue : N;
  navPerShare : N;
  marketCap : N;
  mNav : N
}.

Definition compute (ethHoldings sharesOutstanding usdHoldings
                    alternativeAssetsValue ethPrice stockPrice : N)
  : NavValues :=
  let ethMarketValue := mulN ethHoldings ethPrice in
  let totalNavValue :=
    addN (addN ethMarketValue usdHoldings) alternativeAssetsValue in
  let navPerShare := divN totalNavValue sharesOutstanding in
  let marketCap := mulN stockPrice sharesOutstanding in
  let mNav := divN marketCap totalNavValue in
  {| ethMarketValue := ethMarketValue;
     totalNavValue := totalNavValue;
     navPerShare := navPerShare;
     marketCap := marketCap;
     mNav := mNav |}.
End Generic.

Arguments NavValues : clear implicits.
End NavFormulas.

(** ** The mNAV service: series filler and NAV computation *)

Module MnavService.
Import JsNum.

(** *** Dates

    A [Date] is its [getTime()], an integer number of milliseconds since
    the epoch.  An ISO string [date.toISOString()] is represented by the
    same integer: for the four-digit years the service handles, [===],
    [<], [<=] and [localeCompare] on two such strings agree with the
    comparison of the instants.  The server runs in UTC (the Dockerfile
    sets no time zone), so [setDate(getDate() + n)] adds [n] whole
    days. *)

Definition msPerDay : Z := 1000 * 3600 * 24.

(** [normalizeDate]: the UTC calendar day of the instant, at midnight
    ([toISOString().split("T")[0] + "T00:00:00.000Z"]). *)
Definition normalizeDate (dateStr : Z) : Z := (dateStr / msPerDay) * msPerDay.

Definition addDays (date : Z) (days : Z) : Z := date + days * msPerDay.

(** [Math.ceil(timeDiff / (1000 * 3600 * 24))]. *)
Definition differenceInDays (date1 date2 : Z) : Z :=
  let timeDiff := date1 - date2 in
  - ((- timeDiff) / msPerDay).

(** The [date] column of [stock_prices] is compared as a string with
    the day's [YYYY-MM-DD] and with its full ISO form; any other text
    matches no day. *)
Inductive PriceDate : Type :=
| DateOnly (day : Z)        (* "YYYY-MM-DD", as the number of the day *)
| DateIso (instant : Z)     (* "YYYY-MM-DDTHH:mm:ss.sssZ" *)
| DateOther.

Definition priceDateMatches (d : PriceDate) (date : Z) : bool :=
  match d with
  | DateOnly day => day =? date / msPerDay
  | DateIso instant => instant =? date
  | DateOther => false
  end.

(** *** Rows *)

(** [interface CompanyMetrics]: a raw disclosure.  The interface
    declares its numeric fields optional, and the rows that
    [select("*")] returns hold [null] for SQL NULL, so a numeric field is
    a [column].  [notes] is only read through [notes || ""], which takes
    [null] and [undefined] alike: it is [None] for either.  [date] is the
    instant the date string denotes. *)
Record CompanyMetrics : Type := {
  id : string;
  company_id : string;
  date : Z;
  eth_holdings : column;
  avg_buy_price : column;
  usd_holdings : column;
  staking_rewards : column;
  shares_outstanding : column;
  market_cap : column;
  eth_concentration : column;
  issued_atm_shares : column;
  notes : option string
}.

(** The number a field of a disclosure holds, when it holds one. *)
Definition numberOf (field : CompanyMetrics -> column) (m : CompanyMetrics)
  : option number :=
  num (field m).

(** [interface StockPrice]; only [date] and [close] are read, and
    [close] only for its truthiness: it is [None] for [null] and for
    [undefined]. *)
Record StockPrice : Type := {
  price_company_id : string;
  price_date : PriceDate;
  close : option number
}.

(** [interface CompanyMetric]: a derived daily row. *)
Record CompanyMetric : Type := {
  companyId : string;
  rowDate : Z;
  ethHoldings : number;
  avgBuyPrice : number;
  usdHoldings : number;
  stakingRewards : number;
  sharesOutstanding : number;
  marketCap : number;
  ethConcentration : number;
  issuedAtmShares : number;
  weightedAvgBuyPrice : number;
  rowNotes : string;
  sharesBoughtBack : option number
}.

(** [interface NavMetric]; its [date], the [YYYY-MM-DD] of the call, is
    the number of that day. *)
Record NavMetric : Type := {
  navCompanyId : string;
  navDate : Z;
  navPerShare : number;
  stockPrice : number;
  ethPrice : number;
  mNav : number;
  totalNavValue : number
}.

(** [{ ...metric, date: normalizeDate(metric.date) }] *)
Definition withNormalizedDate (metric : CompanyMetrics) : CompanyMetrics :=
  {| id := id metric;
     company_id := company_id metric;
     date := normalizeDate (date metric);
     eth_holdings := eth_holdings metric;
     avg_buy_price := avg_buy_price metric;
     usd_holdings := usd_holdings metric;
     staking_rewards := staking_rewards metric;
     shares_outstanding := shares_outstanding metric;
     market_cap := market_cap metric;
     eth_concentration := eth_concentration metric;
     issued_atm_shares := issued_atm_shares metric;
     notes := notes metric |}.

(** *** [.sort((a, b) => b.date.localeCompare(a.date))]

    [Array.prototype.sort] is stable: rows of one date keep their
    order. *)
Section SortDesc.
Context {A : Type}.
Variable dateOf : A -> Z.

Fixpoint insertDesc (x : A) (l : list A) : list A :=
  match l with
  | [] => [x]
  | y :: l' =>
      if dateOf x <? dateOf y then y :: insertDesc x l' else x :: l
  end.

Fixpoint sortDesc (l : list A) : list A :=
  match l with
  | [] => []
  | x :: l' => insertDesc x (sortDesc l')
  end.
End SortDesc.

(** *** The forward-fill helpers *)

(** The shape shared by the four helpers that test the field for
    truthiness: [getLastKnownEthHoldings], [getLastKnownAvgBuyPrice],
    [getLastKnownStakingRewards], [getLastKnownEthConcentration].
    [field m] is the number the field of [m] holds: the helpers return
    the field only where it is truthy, and a [null] is as falsy as an
    [undefined]. *)
Definition getLastKnown (field : CompanyMetrics -> option number)
    (metrics : list CompanyMetrics) (d : Z) : option number :=
  let currentMetric := find (fun metric => date metric =? d) metrics in
  let current :=
    match currentMetric with
    | Some m => field m
    | None => None
    end in
  if truthyOpt current then current
  else
    let sortedMetrics :=
      sortDesc date
        (filter (fun m => (date m <? d) && truthyOpt (field m)) metrics) in
    match sortedMetrics with
    | m :: _ => field m
    | [] => None
    end.

Definition getLastKnownEthHoldings := getLastKnown (numberOf eth_holdings).
Definition getLastKnownAvgBuyPrice := getLastKnown (numberOf avg_buy_price).
Definition getLastKnownStakingRewards :=
  getLastKnown (numberOf staking_rewards).
Definition getLastKnownEthConcentration :=
  getLastKnown (numberOf eth_concentration).

(** [val !== undefined && val !== null] *)
Definition usdHoldingsExist (val : column) : bool :=
  match val with
  | Num _ => true
  | Undefined | Null => false
  end.

Definition million : number := ofZ 1000000.

Definition getLastKnownUsdHoldings
    (metrics : list CompanyMetrics) (d : Z) : number :=
  let currentMetric := find (fun metric => date metric =? d) metrics in
  let currentUsdHoldings :=
    match currentMetric with
    | Some m => usd_holdings m
    | None => Undefined
    end in
  if usdHoldingsExist currentUsdHoldings then
    mul (orZero (num currentUsdHoldings)) million
  else
    let sortedMetrics :=
      sortDesc date
        (filter (fun m => (date m <? d) && usdHoldingsExist (usd_holdings m))
                metrics) in
    mul (orZero (num (match sortedMetrics with
                      | m :: _ => usd_holdings m
                      | [] => Undefined
                      end))) million.

Definition getLastKnownSharesOutstanding
    (companyMetrics : list CompanyMetric) (d : Z) : option number :=
  let sortedMetrics :=
    sortDesc rowDate
      (filter (fun m => (rowDate m <? d) && truthy (sharesOutstanding m))
              companyMetrics) in
  match sortedMetrics with
  | m :: _ => Some (sharesOutstanding m)
  | [] => None
  end.

Definition getLastKnownSharesBoughtBack
    (companyMetrics : list CompanyMetric) (d : Z) : option number :=
  let sortedMetrics :=
    sortDesc rowDate
      (filter (fun m => (rowDate m <? d) && truthyOpt (sharesBoughtBack m))
              companyMetrics) in
  match sortedMetrics with
  | m :: _ => sharesBoughtBack m
  | [] => None
  end.

(** *** [postFillMetrics] *)

(** [Boolean(s)] for a string: only the empty string is falsy. *)
Definition strTruthy (s : string) : bool := negb (String.eqb s EmptyString).

Definition isDefined {A : Type} (v : option A) : bool :=
  match v with
  | Some _ => true
  | None => false
  end.

(** The days of the loop:
    [Array.from({ length: differenceInDays(new Date(), start) + 1 },
                (_, i) => addDays(start, i))
       .filter((date) => date.getTime() >= new Date(startDate).getTime())]
    where [start] is [new Date(normalizedStartDate)].  A length that is
    not positive gives the empty array. *)
Definition fillDates (startDate now : Z) : list Z :=
  let normalizedStartDate := normalizeDate startDate in
  filter (fun d => startDate <=? d)
    (map (fun i => addDays normalizedStartDate (Z.of_nat i))
       (seq 0 (Z.to_nat (differenceInDays now normalizedStartDate + 1)))).

(** The loop carries [lastKnownStockPrice] and the rows pushed so far. *)
Definition FillState : Type := (option number * list CompanyMetric)%type.

(** One iteration of [for (const date of dates)]; every [continue]
    returns the state with no row pushed. *)
Definition fillDay (normalizedMetrics : list CompanyMetrics)
    (stockPrices : list StockPrice) (st : FillState) (d : Z) : FillState :=
  let '(lastKnownStockPrice0, companyMetrics) := st in
  let stockPriceAtClose :=
    match find (fun p => priceDateMatches (price_date p) d) stockPrices with
    | Some p => close p
    | None => None
    end in
  let lastKnownStockPrice :=
    if truthyOpt stockPriceAtClose then stockPriceAtClose
    else lastKnownStockPrice0 in
  match lastKnownStockPrice with
  | None => (lastKnownStockPrice, companyMetrics)
  | Some price =>
    if negb (truthy price) then (lastKnownStockPrice, companyMetrics)
    else
      let lastKnownEthHoldings := getLastKnownEthHoldings normalizedMetrics d in
      let lastKnownUsdHoldings := getLastKnownUsdHoldings normalizedMetrics d in
      let lastKnownAvgBuyPrice := getLastKnownAvgBuyPrice normalizedMetrics d in
      let lastKnownStakingRewards :=
        getLastKnownStakingRewards normalizedMetrics d in
      let lastKnownEthConcentration :=
        getLastKnownEthConcentration normalizedMetrics d in
      let hasAnyMetricData :=
        existsb (fun m =>
                   (date m <=? d) &&
                   (notUndefined (eth_holdings m) ||
                    notUndefined (eth_concentration m) ||
                    notUndefined (avg_buy_price m) ||
                    notUndefined (usd_holdings m) ||
                    notUndefined (staking_rewards m)))
                normalizedMetrics in
      if negb hasAnyMetricData then (lastKnownStockPrice, companyMetrics)
      else
        let ethConcentration := orZero lastKnownEthConcentration in
        let ethHoldings := orZero lastKnownEthHoldings in
        let sharesOutstanding :=
          div ethHoldings (div ethConcentration (ofZ 1000)) in
        let lastKnownSharesOutstanding :=
          getLastKnownSharesOutstanding companyMetrics d in
        let lastKnownSharesBoughtBack :=
          getLastKnownSharesBoughtBack companyMetrics d in
        let issuedAtmShares :=
          match lastKnownSharesOutstanding with
          | Some prev =>
              if truthy prev then sub sharesOutstanding prev
              else sharesOutstanding
          | None => sharesOutstanding
          end in
        let originalMetric :=
          find (fun metric => date metric =? d) normalizedMetrics in
        let firstCompanyId :=
          match normalizedMetrics with
          | m :: _ => Some (company_id m)
          | [] => None
          end in
        let companyId :=
          match originalMetric with
          | Some m =>
              if strTruthy (company_id m) then Some (company_id m)
              else firstCompanyId
          | None => firstCompanyId
          end in
        match companyId with
        | None => (lastKnownStockPrice, companyMetrics)
        | Some cid =>
          if negb (strTruthy cid) then (lastKnownStockPrice, companyMetrics)
          else
            let companyMetric :=
              {| companyId := cid;
                 rowDate := d;
                 weightedAvgBuyPrice := orZero lastKnownAvgBuyPrice;
                 ethHoldings := orZero lastKnownEthHoldings;
                 avgBuyPrice := orZero lastKnownAvgBuyPrice;
                 usdHoldings := numOrZero lastKnownUsdHoldings;
                 stakingRewards := orZero lastKnownStakingRewards;
                 sharesOutstanding := sharesOutstanding;
                 marketCap := mul price sharesOutstanding;
                 ethConcentration := orZero lastKnownEthConcentration;
                 issuedAtmShares := issuedAtmShares;
                 rowNotes :=
                   match originalMetric with
                   | Some m =>
                       match notes m with
                       | Some t => t
                       | None => EmptyString
                       end
                   | None => EmptyString
                   end;
                 sharesBoughtBack := Some (orZero lastKnownSharesBoughtBack) |}
            in
            (lastKnownStockPrice, companyMetrics ++ [companyMetric])
        end
  end.

(** [now] is the instant read by [new Date()]. *)
Definition postFillMetrics (metrics : list CompanyMetrics)
    (stockPrices : list StockPrice) (startDate now : Z)
  : list CompanyMetric :=
  let normalizedMetrics := map withNormalizedDate metrics in
  snd (fold_left (fillDay normalizedMetrics stockPrices)
                 (fillDates startDate now) (None, [])).

(** *** [calculateCurrentNAV] *)

(** What the awaited calls of one invocation return: the price
    gateways, the two table reads, the alternative-assets lookup, and
    the clock. *)
Record Reads : Type := {
  getCurrentEthPrice : number;
  getCurrentBmnrPrice : number;
  getAllCompanyMetrics : string -> list CompanyMetrics;
  getStockPrices : string -> list StockPrice;
  getAlternativeAssetsValue : string -> number;
  now : Z
}.

(** [new Date("2025-06-12")], day 20251 of the epoch. *)
Definition startDate : Z := 20251 * msPerDay.

(** The tail of [calculateCurrentNAV], from the destructuring of
    [latestMetric] on. *)
Definition navOfLatest (companyId : string) (today : Z)
    (latestMetric : CompanyMetric)
    (alternativeAssetsValue ethPrice stockPrice : number)
  : option NavMetric :=
  let ethHoldings := ethHoldings latestMetric in
  let sharesOutstanding := sharesOutstanding latestMetric in
  let usdHoldings := usdHoldings latestMetric in
  (* [usdHoldings === undefined] never holds: the field is a number *)
  if negb (truthy ethHoldings) || negb (truthy sharesOutstanding) then None
  else
    let v := NavFormulas.compute add mul div
               ethHoldings sharesOutstanding usdHoldings
               alternativeAssetsValue ethPrice stockPrice in
    Some {| navCompanyId := companyId;
            navDate := today;
            navPerShare := NavFormulas.navPerShare v;
            stockPrice := stockPrice;
            ethPrice := ethPrice;
            mNav := NavFormulas.mNav v;
            totalNavValue := NavFormulas.totalNavValue v |}.

Definition calculateCurrentNAV (r : Reads) (companyId : string)
    (currentStockPrice currentEthPrice : option number)
  : option NavMetric :=
  let ethPrice :=
    if truthyOpt currentEthPrice then orZero currentEthPrice
    else getCurrentEthPrice r in
  let stockPrice :=
    if truthyOpt currentStockPrice then orZero currentStockPrice
    else getCurrentBmnrPrice r in
  if negb (truthy ethPrice) || negb (truthy stockPrice) then None
  else
    let allMetrics := getAllCompanyMetrics r companyId in
    let allStockPrices := getStockPrices r companyId in
    match allMetrics, allStockPrices with
    | [], _ | _, [] => None
    | _, _ =>
      let processedMetrics :=
        postFillMetrics allMetrics allStockPrices startDate (now r) in
      (* [processedMetrics[processedMetrics.length - 1]] *)
      match rev processedMetrics with
      | [] => None
      | latestMetric :: _ =>
        let alternativeAssetsValue := getAlternativeAssetsValue r companyId in
        navOfLatest companyId (now r / msPerDay) latestMetric
                    alternativeAssetsValue ethPrice stockPrice
      end
    end.

(** [navResult?.mNav || null] *)
Definition calculateCurrentMnav (r : Reads) (companyId : string)
  : option number :=
  match calculateCurrentNAV r companyId None None with
  | Some navResult =>
      if truthy (mNav navResult) then Some (mNav navResult) else None
  | None => None
  end.
End MnavService.

(** ** The alert tables *)

Module AlertStore.
Import JsNum.

(** A row of [mnav_threshold_alerts] ([interface ActiveAlert] of the
    route, [interface MnavAlert] of the service).  [last_triggered_at]
    is the instant of the stored timestamp, [None] for SQL [NULL]. *)
Record Alert : Type := {
  id : string;
  user_id : string;
  company_id : string;
  threshold_value : number;
  alert_type : string;
  is_active : bool;
  last_triggered_at : option Z
}.

(** A row of [mnav_notifications]. *)
Record Notification : Type := {
  notification_id : string;
  alert_id : string;
  notified_user_id : string;
  notified_company_id : string;
  mnav_value : number;
  notified_threshold_value : number;
  notified_alert_type : string
}.

Record Db : Type := {
  mnav_threshold_alerts : list Alert;
  mnav_notifications : list Notification
}.

(** How the store answers the two writes of the trigger path:
    [insertResult a] is the [id] of the inserted notification, or
    [None] when the insert reports an error; [updateSucceeds a] tells
    whether the [update ... eq("id", a.id)] is applied. *)
Record Writes : Type := {
  insertResult : Alert -> option string;
  updateSucceeds : Alert -> bool
}.

Definition withLastTriggered (a : Alert) (t : Z) : Alert :=
  {| id := id a;
     user_id := user_id a;
     company_id := company_id a;
     threshold_value := threshold_value a;
     alert_type := alert_type a;
     is_active := is_active a;
     last_triggered_at := Some t |}.

(** [.update({ last_triggered_at: now }).eq("id", alertId)] *)
Definition markTriggered (alertId : string) (t : Z) (rows : list Alert)
  : list Alert :=
  map (fun row => if String.eqb (id row) alertId
                  then withLastTriggered row t else row) rows.

Definition notificationFor (nid : string) (a : Alert) (currentMnav : number)
  : Notification :=
  {| notification_id := nid;
     alert_id := id a;
     notified_user_id := user_id a;
     notified_company_id := company_id a;
     mnav_value := currentMnav;
     notified_threshold_value := threshold_value a;
     notified_alert_type := alert_type a |}.

(** The two writes of a firing rule: the insert, and only when it
    succeeded the update of [last_triggered_at].  The result carries the
    notification id, [None] when the insert failed. *)
Definition insertThenUpdate (w : Writes) (t : Z) (a : Alert)
    (currentMnav : number) (db : Db) : Db * option string :=
  match insertResult w a with
  | None => (db, None)
  | Some nid =>
      ({| mnav_threshold_alerts :=
            if updateSucceeds w a
            then markTriggered (id a) t (mnav_threshold_alerts db)
            else mnav_threshold_alerts db;
          mnav_notifications :=
            mnav_notifications db ++ [notificationFor nid a currentMnav] |},
       Some nid)
  end.

(** The stored rows of one rule, and the notifications that refer to
    it. *)
Definition rowsOf (alertId : string) (db : Db) : list Alert :=
  filter (fun row => String.eqb (id row) alertId) (mnav_threshold_alerts db).

Definition notificationsOf (alertId : string) (db : Db) : list Notification :=
  filter (fun n => String.eqb (alert_id n) alertId) (mnav_notifications db).
End AlertStore.

(** ** The cron route [POST /api/mnav-monitor/check] *)

Module MnavMonitorRoute.
Import JsNum AlertStore.

Definition checkAlertCondition (currentMnav threshold : number)
    (alertType : string) : bool :=
  if String.eqb alertType "above" then gt currentMnav threshold
  else if String.eqb alertType "below" then lt currentMnav threshold
  else false.

(** [nowMs] is [Date.now()]. *)
Definition checkCooldownPeriod (nowMs : Z) (lastTriggered : option Z) : bool :=
  match lastTriggered with
  | None => true
  | Some lastTriggeredDate =>
      let sixHoursAgo := nowMs - 6 * 60 * 60 * 1000 in
      lastTriggeredDate <? sixHoursAgo
  end.

(** The view [active_mnav_alerts]: its definition is not part of the
    sources; by its name and by the service's
    [.eq("is_active", true)] it holds the active rules. *)
Definition active_mnav_alerts (db : Db) : list Alert :=
  filter is_active (mnav_threshold_alerts db).

(** *** [Object.entries]

    An object is the list of its properties in the order of their
    creation.  [Object.entries] and [Object.keys] list first the
    properties whose key is an array index (the decimal form, without
    leading zeros, of an integer from 0 to 2^32 - 2) in ascending
    numeric order, and then the other properties in the order of their
    creation. *)
Definition digitOf (c : Ascii.ascii) : option N :=
  let n := Ascii.N_of_ascii c in
  if ((48 <=? n) && (n <=? 57))%N then Some (n - 48)%N else None.

Fixpoint digitsValue (s : string) (acc : N) : option N :=
  match s with
  | EmptyString => Some acc
  | String c s' =>
      match digitOf c with
      | Some d => digitsValue s' (10 * acc + d)%N
      | None => None
      end
  end.

Definition arrayIndex (key : string) : option N :=
  match key with
  | EmptyString => None
  | String c rest =>
      match digitsValue key 0 with
      | Some n =>
          if (Ascii.N_of_ascii c =? 48)%N && negb (String.eqb rest EmptyString)
          then None
          else if (n <? 4294967295)%N then Some n else None
      | None => None
      end
  end.

Section ObjectEntries.
Context {V : Type}.

Fixpoint insertByIndex (n : N) (entry : string * V)
    (l : list (N * (string * V))) : list (N * (string * V)) :=
  match l with
  | [] => [(n, entry)]
  | (n', entry') :: l' =>
      if (n <=? n')%N then (n, entry) :: l
      else (n', entry') :: insertByIndex n entry l'
  end.

(** The properties with an array index as key, by ascending index. *)
Definition indexed (o : list (string * V)) : list (N * (string * V)) :=
  fold_right (fun entry acc =>
                match arrayIndex (fst entry) with
                | Some n => insertByIndex n entry acc
                | None => acc
                end) [] o.

Definition objectEntries (o : list (string * V)) : list (string * V) :=
  map snd (indexed o)
  ++ filter (fun entry => match arrayIndex (fst entry) with
                          | Some _ => false
                          | None => true
                          end) o.

Definition objectKeys (o : list (string * V)) : list string :=
  map fst (objectEntries o).
End ObjectEntries.

(** The [reduce] that groups the alerts by company builds the object
    [alertsByCompany], a property per company.  The company ids are
    taken not to name a member of [Object.prototype], for which
    [acc[companyId]] is found on the prototype and [push] throws; they
    are the keys of the [companies] table, such as
    ["4bf5e88a-dfba-44d0-bdfb-7d878cbd10db"] in the mNAV service. *)
Fixpoint pushAlert (alert : Alert) (acc : list (string * list Alert))
  : list (string * list Alert) :=
  match acc with
  | [] => [(company_id alert, [alert])]
  | (companyId, companyAlerts) :: rest =>
      if String.eqb companyId (company_id alert)
      then (companyId, companyAlerts ++ [alert]) :: rest
      else (companyId, companyAlerts) :: pushAlert alert rest
  end.

Definition alertsByCompany (alerts : list Alert)
  : list (string * list Alert) :=
  fold_left (fun acc alert => pushAlert alert acc) alerts [].

Record RunState : Type := {
  db : Db;
  alertsTriggered : nat;
  notificationsCreated : list string
}.

(** The body of [for (const alert of companyAlerts)]. *)
Definition checkAlert (w : Writes) (nowMs : Z) (currentMnav : number)
    (st : RunState) (alert : Alert) : RunState :=
  let shouldTrigger :=
    checkAlertCondition currentMnav (threshold_value alert)
                        (alert_type alert) in
  let cooldownPassed := checkCooldownPeriod nowMs (last_triggered_at alert) in
  if shouldTrigger && cooldownPassed then
    match insertThenUpdate w nowMs alert currentMnav (db st) with
    | (_, None) => st
    | (db', Some nid) =>
        {| db := db';
           alertsTriggered := S (alertsTriggered st);
           notificationsCreated := notificationsCreated st ++ [nid] |}
    end
  else st.

(** The body of [for (const [companyId, companyAlerts] of ...)]. *)
Definition checkCompany (r : MnavService.Reads) (w : Writes)
    (st : RunState) (group : string * list Alert) : RunState :=
  let '(companyId, companyAlerts) := group in
  match MnavService.calculateCurrentMnav r companyId with
  | None => st
  | Some currentMnav =>
      fold_left (checkAlert w (MnavService.now r) currentMnav)
                companyAlerts st
  end.

Record CheckResult : Type := {
  resAlertsChecked : nat;
  resAlertsTriggered : nat;
  resNotificationsCreated : list string
}.

(** One invocation; the clock of the invocation is [MnavService.now r]. *)
Definition checkMnavThresholds (r : MnavService.Reads) (w : Writes)
    (db0 : Db) : Db * CheckResult :=
  let alerts := active_mnav_alerts db0 in
  match alerts with
  | [] => (db0, {| resAlertsChecked := 0; resAlertsTriggered := 0;
                   resNotificationsCreated := [] |})
  | _ =>
      let st :=
        fold_left (checkCompany r w) (objectEntries (alertsByCompany alerts))
                  {| db := db0; alertsTriggered := 0;
                     notificationsCreated := [] |} in
      (db st, {| resAlertsChecked := List.length alerts;
                 resAlertsTriggered := alertsTriggered st;
                 resNotificationsCreated := notificationsCreated st |})
  end.
End MnavMonitorRoute.

(** ** The class [MnavMonitorService] *)

Module MnavMonitorService.
Import JsNum AlertStore.

Definition COOLDOWN_HOURS : Z := 6.

(** [nowMs] is [new Date()]. *)
Definition shouldTriggerAlert (nowMs : Z) (alert : Alert)
    (currentMnav : number) : bool :=
  let inCooldown :=
    match last_triggered_at alert with
    | Some lastTriggered =>
        let cooldownExpiry :=
          lastTriggered + COOLDOWN_HOURS * 60 * 60 * 1000 in
        nowMs <? cooldownExpiry
    | None => false
    end in
  if inCooldown then false
  else if String.eqb (alert_type alert) "below"
       then lt currentMnav (threshold_value alert)
  else if String.eqb (alert_type alert) "above"
       then gt currentMnav (threshold_value alert)
  else false.

(** [recordTriggeredAlert]: the notification id, or [null]. *)
Definition recordTriggeredAlert (w : Writes) (nowMs : Z) (alert : Alert)
    (currentMnav : number) (db : Db) : Db * option string :=
  insertThenUpdate w nowMs alert currentMnav db.

(** The service's own mNAV, from the newest raw rows ([metrics[0]] and
    [stockPrices[0]] of the two descending reads) and the ETH price. *)
Definition calculateCurrentMnav (metrics : list MnavService.CompanyMetrics)
    (stockPrices : list MnavService.StockPrice)
    (currentEthPrice : option number) : option number :=
  match metrics, stockPrices with
  | [], _ | _, [] => None
  | latestMetric :: _, latestStockPrice :: _ =>
    match currentEthPrice with
    | None => None
    | Some ethPrice =>
      if negb (truthy ethPrice) then None
      else
        match MnavService.close latestStockPrice with
        | None => None
        | Some close =>
          if negb (truthy close) then None
          else
            let marketCap :=
              mul (orZero (num (MnavService.shares_outstanding
                                  latestMetric)))
                  close in
            let totalNavValue :=
              add (mul (orZero (num (MnavService.eth_holdings
                                       latestMetric)))
                       ethPrice)
                  (orZero (num (MnavService.usd_holdings latestMetric))) in
            if le totalNavValue zero then None
            else Some (div marketCap totalNavValue)
        end
    end
  end.
End MnavMonitorService.

(** ** The loops of [MnavMonitorService] *)

Module MnavMonitorLoops.
Import JsNum AlertStore.

(** What the awaited reads of one call return: the ten newest
    [company_metrics] and [stock_prices] rows of a company, newest first,
    the answer of [getCurrentEthPrice] when it is asked for that company,
    and the clock. *)
Record Reads : Type := {
  company_metrics : string -> list MnavService.CompanyMetrics;
  stock_prices : string -> list MnavService.StockPrice;
  getCurrentEthPrice : string -> option number;
  now : Z
}.

Definition currentMnavOf (r : Reads) (companyId : string) : option number :=
  MnavMonitorService.calculateCurrentMnav
    (company_metrics r companyId) (stock_prices r companyId)
    (getCurrentEthPrice r companyId).

(** [getActiveAlerts]: the rows with [is_active = true]. *)
Definition getActiveAlerts (db : Db) : list Alert :=
  filter is_active (mnav_threshold_alerts db).

(** [triggerAlert]: the insert and, when it succeeded, the update; the
    delivery that follows writes to neither table. *)
Definition triggerAlert (w : Writes) (nowMs : Z) (alert : Alert)
    (currentMnav : number) (db : Db) : Db :=
  fst (insertThenUpdate w nowMs alert currentMnav db).

(** [interface MnavCheckResult] *)
Record MnavCheckResult : Type := {
  result_company_id : string;
  current_mnav : number;
  triggered_alerts : list Alert
}.

(** The body of [for (const alert of companyAlerts)] in [checkAllAlerts]:
    the alert is pushed on [triggeredAlerts] whatever [triggerAlert]
    did. *)
Definition checkOne (w : Writes) (nowMs : Z) (currentMnav : number)
    (st : Db * list Alert) (alert : Alert) : Db * list Alert :=
  let '(db, triggeredAlerts) := st in
  if MnavMonitorService.shouldTriggerAlert nowMs alert currentMnav
  then (triggerAlert w nowMs alert currentMnav db, triggeredAlerts ++ [alert])
  else st.

(** The body of the loop over the companies in [checkAllAlerts]. *)
Definition checkGroup (r : Reads) (w : Writes)
    (st : Db * list MnavCheckResult) (group : string * list Alert)
  : Db * list MnavCheckResult :=
  let '(db, results) := st in
  let '(companyId, companyAlerts) := group in
  match currentMnavOf r companyId with
  | None => st
  | Some currentMnav =>
      let '(db', triggeredAlerts) :=
        fold_left (checkOne w (now r) currentMnav) companyAlerts (db, []) in
      (db', results ++ [{| result_company_id := companyId;
                           current_mnav := currentMnav;
                           triggered_alerts := triggeredAlerts |}])
  end.

(** The grouping [reduce] is the one of the route, word for word. *)
Definition checkAllAlerts (r : Reads) (w : Writes) (db0 : Db)
  : Db * list MnavCheckResult :=
  let alerts := getActiveAlerts db0 in
  match alerts with
  | [] => (db0, [])
  | _ => fold_left (checkGroup r w)
                   (MnavMonitorRoute.objectEntries
                      (MnavMonitorRoute.alertsByCompany alerts))
                   (db0, [])
  end.

(** An entry of [triggered_alerts] in the answer for the external e-mail
    service. *)
Record TriggeredAlert : Type := {
  triggered_alert_id : string;
  triggered_company_id : string;
  triggered_mnav : number;
  triggered_threshold_value : number;
  triggered_alert_type : string;
  triggered_at : Z
}.

Record EmailCheck : Type := {
  email_triggered_alerts : list TriggeredAlert;
  total_companies_checked : nat;
  total_alerts_triggered : nat
}.

(** The body of the inner loop of [checkAlertsForExternalEmail];
    [if (notificationId)] is false for [null] and for the empty
    string. *)
Definition recordOne (w : Writes) (nowMs : Z) (currentMnav : number)
    (st : Db * list TriggeredAlert) (alert : Alert)
  : Db * list TriggeredAlert :=
  let '(db, triggeredAlerts) := st in
  if MnavMonitorService.shouldTriggerAlert nowMs alert currentMnav then
    match MnavMonitorService.recordTriggeredAlert
            w nowMs alert currentMnav db with
    | (db', Some notificationId) =>
        if MnavService.strTruthy notificationId then
          (db', triggeredAlerts ++
                [{| triggered_alert_id := id alert;
                    triggered_company_id := company_id alert;
                    triggered_mnav := currentMnav;
                    triggered_threshold_value := threshold_value alert;
                    triggered_alert_type := alert_type alert;
                    triggered_at := nowMs |}])
        else (db', triggeredAlerts)
    | (db', None) => (db', triggeredAlerts)
    end
  else st.

Definition recordGroup (r : Reads) (w : Writes)
    (st : Db * list TriggeredAlert) (group : string * list Alert)
  : Db * list TriggeredAlert :=
  let '(companyId, companyAlerts) := group in
  match currentMnavOf r companyId with
  | None => st
  | Some currentMnav =>
      fold_left (recordOne w (now r) currentMnav) companyAlerts st
  end.

Definition checkAlertsForExternalEmail (r : Reads) (w : Writes) (db0 : Db)
  : Db * EmailCheck :=
  let alerts := getActiveAlerts db0 in
  match alerts with
  | [] => (db0, {| email_triggered_alerts := [];
                   total_companies_checked := 0;
                   total_alerts_triggered := 0 |})
  | _ =>
      let alertsByCompany := MnavMonitorRoute.alertsByCompany alerts in
      let companiesChecked :=
        List.length (MnavMonitorRoute.objectKeys alertsByCompany) in
      let '(db', triggeredAlerts) :=
        fold_left (recordGroup r w)
                  (MnavMonitorRoute.objectEntries alertsByCompany)
                  (db0, []) in
      (db', {| email_triggered_alerts := triggeredAlerts;
               total_companies_checked := companiesChecked;
               total_alerts_triggered := List.length triggeredAlerts |})
  end.
End MnavMonitorLoops.

(** ** Cron authentication of the route *)

Module CronAuth.

(** [requireCronAuth]: [authorization] is the request header and
    [cronSecret] is [process.env.CRON_SECRET], each [None] when
    [undefined].  The template [`Bearer ${cronSecret}`] prints an
    undefined secret as ["undefined"].  The answer is [true] for
    [{ authenticated: true }] and [false] for the 401 error. *)
Definition requireCronAuth (authorization cronSecret : option string) : bool :=
  let expected :=
    ("Bearer " ++ match cronSecret with
                  | Some secret => secret
                  | None => "undefined"
                  end)%string in
  let headerMatches :=
    match authorization with
    | Some authHeader => String.eqb authHeader expected
    | None => false
    end in
  let isCronJob :=
    headerMatches && match cronSecret with
                     | Some secret => MnavService.strTruthy secret
                     | None => false
                     end in
  isCronJob.
End CronAuth.

(** ** The Finnhub price feed *)

Module PriceFeed.
Import JsNum.

Definition DEBOUNCE_MS : Z := 15000.
Definition MAX_RECONNECT_ATTEMPTS : Z := 10.
Definition RECONNECT_BASE_DELAY_MS : Z := 1000.

(** A [Map<string, V>]: its entries in insertion order.  [set] on a key
    that is present replaces the value in place, [delete] removes the
    entry. *)
Section JsMap.
Context {V : Type}.

Fixpoint mapGet (k : string) (m : list (string * V)) : option V :=
  match m with
  | [] => None
  | (k', v) :: m' => if String.eqb k' k then Some v else mapGet k m'
  end.

Fixpoint mapSet (k : string) (v : V) (m : list (string * V))
  : list (string * V) :=
  match m with
  | [] => [(k, v)]
  | (k', v') :: m' =>
      if String.eqb k' k then (k', v) :: m' else (k', v') :: mapSet k v m'
  end.

Fixpoint mapDelete (k : string) (m : list (string * V)) : list (string * V) :=
  match m with
  | [] => []
  | (k', v') :: m' =>
      if String.eqb k' k then m' else (k', v') :: mapDelete k m'
  end.

Definition mapKeys (m : list (string * V)) : list string := map fst m.
End JsMap.

(** An upsert into [realtime_stock_prices] that the feed has started:
    ticker, price, and the instant at which it was started. *)
Record Upsert : Type := {
  upsert_ticker : string;
  upsert_price : number;
  upsert_at : Z
}.

(** The module state: the two maps, and the upserts started so far. *)
Record Feed : Type := {
  lastUpdateTime : list (string * Z);
  pendingPrices : list (string * number);
  upserts : list Upsert
}.

Definition emptyFeed : Feed :=
  {| lastUpdateTime := []; pendingPrices := []; upserts := [] |}.

(** [flushPrice], up to its first [await]; [nowMs] is its reading of
    [Date.now()]. *)
Definition flushPrice (nowMs : Z) (ticker : string) (st : Feed) : Feed :=
  match mapGet ticker (pendingPrices st) with
  | None => st
  | Some price =>
      {| lastUpdateTime := mapSet ticker nowMs (lastUpdateTime st);
         pendingPrices := mapDelete ticker (pendingPrices st);
         upserts := upserts st ++ [{| upsert_ticker := ticker;
                                      upsert_price := price;
                                      upsert_at := nowMs |}] |}
  end.

(** [updatePrice], up to its first [await]: [nowMs] is the reading of
    [Date.now()] in its first line, [flushMs] the one in [flushPrice]
    when that is called. *)
Definition updatePrice (nowMs flushMs : Z) (ticker : string) (price : number)
    (st : Feed) : Feed :=
  let lastUpdate :=
    match mapGet ticker (lastUpdateTime st) with
    | Some t => t            (* [t || 0] is [t], also when [t] is [0] *)
    | None => 0
    end in
  let st1 :=
    {| lastUpdateTime := lastUpdateTime st;
       pendingPrices := mapSet ticker price (pendingPrices st);
       upserts := upserts st |} in
  if nowMs - lastUpdate <? DEBOUNCE_MS then st1
  else flushPrice flushMs ticker st1.

(** [flushAllPendingPrices] when nothing else runs between its
    [await]s; [clock ticker] is the reading of [Date.now()] in the call
    of [flushPrice] for [ticker]. *)
Definition flushAllPendingPrices (clock : string -> Z) (st : Feed) : Feed :=
  let tickers := mapKeys (pendingPrices st) in
  fold_left (fun s ticker => flushPrice (clock ticker) ticker s) tickers st.

(** What reaches the maps: a trade of a message, through [updatePrice],
    or one turn of the loop of the periodic [flushAllPendingPrices], with
    the ticker of that turn.  Trades may arrive between two turns. *)
Inductive FeedEvent : Type :=
| Trade (nowMs flushMs : Z) (ticker : string) (price : number)
| Flush (nowMs : Z) (ticker : string).

Definition feedStep (st : Feed) (e : FeedEvent) : Feed :=
  match e with
  | Trade nowMs flushMs ticker price =>
      updatePrice nowMs flushMs ticker price st
  | Flush nowMs ticker => flushPrice nowMs ticker st
  end.

Definition runFeed (events : list FeedEvent) : Feed :=
  fold_left feedStep events emptyFeed.

(** [scheduleReconnect]: the delay of the timer it sets, if it sets
    one, and the new value of [reconnectAttempts]. *)
Definition scheduleReconnect (reconnectAttempts : Z) : option Z * Z :=
  if MAX_RECONNECT_ATTEMPTS <=? reconnectAttempts
  then (None, reconnectAttempts)
  else (Some (RECONNECT_BASE_DELAY_MS * 2 ^ reconnectAttempts),
        reconnectAttempts + 1).

(** The socket events that touch [reconnectAttempts]. *)
Inductive SocketEvent : Type := Open | Close.

(** The counter after an event, with the delay of the reconnect timer
    the event set. *)
Definition socketStep (reconnectAttempts : Z) (e : SocketEvent)
  : option Z * Z :=
  match e with
  | Open => (None, 0)
  | Close => scheduleReconnect reconnectAttempts
  end.

(** The delays of the timers set along a run of events. *)
Fixpoint reconnectDelays (reconnectAttempts : Z) (events : list SocketEvent)
  : list Z :=
  match events with
  | [] => []
  | e :: rest =>
      let '(delay, attempts') := socketStep reconnectAttempts e in
      match delay with
      | Some d => d :: reconnectDelays attempts' rest
      | None => reconnectDelays attempts' rest
      end
  end.
End PriceFeed.

(** ** Concrete inputs used by the examples below *)

Module Fixtures.
Import JsNum MnavService.

(** 2025-06-12, the start date of the service. *)
Definition day1 : Z := 20251.

(** A row of [company_metrics] as it is read from the table: an absent
    value is [null]. *)
Definition disclosure (d : Z) (eth conc usd : option number)
  : CompanyMetrics :=
  {| id := "m"; company_id := "bmnr"; date := d;
     eth_holdings := ofOption eth; avg_buy_price := Null;
     usd_holdings := ofOption usd;
     staking_rewards := Null; shares_outstanding := Null;
     market_cap := Null; eth_concentration := ofOption conc;
     issued_atm_shares := Null; notes := None |}.

Definition priceOn (day : Z) (c : number) : StockPrice :=
  {| price_company_id := "bmnr"; price_date := DateOnly day;
     close := Some c |}.

(** Disclosures on day 1 (100 held, concentration 500) and on day 5
    (150 held), for a day 1 numbered [D]. *)
Definition twoDisclosures (D : Z) : list CompanyMetrics :=
  [ disclosure (D * msPerDay) (Some (ofZ 100)) (Some (ofZ 500)) None;
    disclosure ((D + 4) * msPerDay) (Some (ofZ 150)) None None ].

(** A single disclosure of holdings, with no concentration. *)
Definition holdingsOnly : list CompanyMetrics :=
  [ disclosure (day1 * msPerDay) (Some (ofZ 100)) None None ].

(** A single disclosure with a net cash position of minus one
    million. *)
Definition netDebt : list CompanyMetrics :=
  [ disclosure (day1 * msPerDay) (Some (ofZ 100)) (Some (ofZ 500))
               (Some (ofZ (-1))) ].

Definition readsOf (ms : list CompanyMetrics) (t : Z) : Reads :=
  {| getCurrentEthPrice := ofZ 2000;
     getCurrentBmnrPrice := ofZ 40;
     getAllCompanyMetrics := fun _ => ms;
     getStockPrices := fun _ => [priceOn day1 (ofZ 40)];
     getAlternativeAssetsValue := fun _ => zero;
     now := t |}.

(** The latest metric of the NAV example of the specification. *)
Definition navExampleMetric : CompanyMetric :=
  {| companyId := "bmnr"; rowDate := day1 * msPerDay;
     ethHoldings := ofZ 1000; avgBuyPrice := zero;
     usdHoldings := ofZ 500000; stakingRewards := zero;
     sharesOutstanding := ofZ 10000; marketCap := zero;
     ethConcentration := zero; issuedAtmShares := zero;
     weightedAvgBuyPrice := zero; rowNotes := EmptyString;
     sharesBoughtBack := None |}.

(** Runs of the filler: on the single disclosure at the instant of
    day 1, and on the two disclosures in the course of day 7. *)
Definition holdingsOnlyRows : list CompanyMetric :=
  postFillMetrics holdingsOnly [priceOn day1 (ofZ 40)]
                  (day1 * msPerDay) (day1 * msPerDay).

Definition twoDisclosuresRows : list CompanyMetric :=
  postFillMetrics (twoDisclosures day1) [priceOn day1 (ofZ 40)]
                  (day1 * msPerDay) ((day1 + 6) * msPerDay + 1000).

(** A latest metric with nothing held, no shares and no cash. *)
Definition emptyMetric : CompanyMetric :=
  {| companyId := "bmnr"; rowDate := day1 * msPerDay;
     ethHoldings := zero; avgBuyPrice := zero;
     usdHoldings := zero; stakingRewards := zero;
     sharesOutstanding := zero; marketCap := zero;
     ethConcentration := zero; issuedAtmShares := zero;
     weightedAvgBuyPrice := zero; rowNotes := EmptyString;
     sharesBoughtBack := None |}.

Definition rowAt (rows : list CompanyMetric) (n : nat) : CompanyMetric :=
  nth n rows navExampleMetric.

Definition holdingsOnlyRow : CompanyMetric := rowAt holdingsOnlyRows 0.
Definition firstRow : CompanyMetric := rowAt twoDisclosuresRows 0.
Definition thirdRow : CompanyMetric := rowAt twoDisclosuresRows 2.

(** The instant at which day 2 starts. *)
Definition day2 : Z := (day1 + 1) * msPerDay.

(** Two disclosures of the same field: [v1] on day 1, [v2] on day 2. *)
Definition heldThen (v1 v2 : option number) : list CompanyMetrics :=
  [ disclosure (day1 * msPerDay) v1 None None;
    disclosure ((day1 + 1) * msPerDay) v2 None None ].

Definition cashThen (v1 v2 : option number) : list CompanyMetrics :=
  [ disclosure (day1 * msPerDay) None None v1;
    disclosure ((day1 + 1) * msPerDay) None None v2 ].

(** The values of the NAV example, on binary64. *)
Definition navExampleValues : NavFormulas.NavValues number :=
  NavFormulas.compute add mul div
    (ofZ 1000) (ofZ 10000) (ofZ 500000) zero (ofZ 2000) (ofZ 250).

(** Net cash positions that make the total NAV exactly zero, and
    negative for the service as well. *)
Definition exactDebt : list CompanyMetrics :=
  [ disclosure (day1 * msPerDay) (Some (ofZ 100)) (Some (ofZ 500))
               (Some (div (ofZ (-1)) (ofZ 5))) ].

Definition deepDebt : list CompanyMetrics :=
  [ disclosure (day1 * msPerDay) (Some (ofZ 100)) (Some (ofZ 500))
               (Some (ofZ (-300000))) ].

Definition rule (i company ty : string) (threshold : number)
    (last : option Z) : AlertStore.Alert :=
  {| AlertStore.id := i; AlertStore.user_id := "u";
     AlertStore.company_id := company;
     AlertStore.threshold_value := threshold;
     AlertStore.alert_type := ty; AlertStore.is_active := true;
     AlertStore.last_triggered_at := last |}.

(** A rule of company "bmnr" that fired at the start of day 7, next
    to a rule that never fired, and the reads of an invocation at
    instant [t]: the two disclosures give an mNAV of 12000 / 300000. *)
Definition t0 : Z := (day1 + 6) * msPerDay.

Definition firedRule : AlertStore.Alert :=
  rule "a1" "bmnr" "below" (ofZ 1) (Some t0).

Definition neverFiredRule : AlertStore.Alert :=
  rule "a2" "bmnr" "above" (div (ofZ 12000) (ofZ 300000)) None.

Definition alertsDb : AlertStore.Db :=
  {| AlertStore.mnav_threshold_alerts := [firedRule; neverFiredRule];
     AlertStore.mnav_notifications := [] |}.

Definition readsAt (t : Z) : Reads := readsOf (twoDisclosures day1) t.

(** The store after an invocation one hour after [t0], and after a
    second invocation seven hours after [t0]. *)
Definition dbAfterOneHour (w : AlertStore.Writes) : AlertStore.Db :=
  fst (MnavMonitorRoute.checkMnavThresholds
         (readsAt (t0 + 1 * 60 * 60 * 1000)) w alertsDb).

Definition dbAfterSevenHours (w : AlertStore.Writes) : AlertStore.Db :=
  fst (MnavMonitorRoute.checkMnavThresholds
         (readsAt (t0 + 7 * 60 * 60 * 1000)) w (dbAfterOneHour w)).

Definition failingWrites : AlertStore.Writes :=
  {| AlertStore.insertResult := fun _ => None;
     AlertStore.updateSucceeds := fun _ => true |}.

Definition workingWrites : AlertStore.Writes :=
  {| AlertStore.insertResult := fun a => Some ("n-" ++ AlertStore.id a)%string;
     AlertStore.updateSucceeds := fun _ => true |}.
End Fixtures.

(** ** Vocabulary of the statements *)

Module Spec.
Import JsNum MnavService.

(** A row whose fields are the values resolved for its day from the
    normalized disclosures [nm], with the share count derived from
    them. *)
Definition resolvedRow (nm : list CompanyMetrics) (row : CompanyMetric)
  : Prop :=
  ethHoldings row = orZero (getLastKnownEthHoldings nm (rowDate row)) /\
  ethConcentration row =
    orZero (getLastKnownEthConcentration nm (rowDate row)) /\
  avgBuyPrice row = orZero (getLastKnownAvgBuyPrice nm (rowDate row)) /\
  stakingRewards row =
    orZero (getLastKnownStakingRewards nm (rowDate row)) /\
  usdHoldings row = numOrZero (getLastKnownUsdHoldings nm (rowDate row)) /\
  sharesOutstanding row =
    div (ethHoldings row) (div (ethConcentration row) (ofZ 1000)).

(** *** The days the filler emits *)

(** The close the loop finds for day [d]. *)
Definition closeOn (stockPrices : list StockPrice) (d : Z) : option number :=
  match find (fun p => priceDateMatches (price_date p) d) stockPrices with
  | Some p => close p
  | None => None
  end.

(** [lastKnownStockPrice] once the loop has gone through the days [ds]. *)
Definition lastKnownAfter (stockPrices : list StockPrice) (ds : list Z)
  : option number :=
  fold_left (fun last d => if truthyOpt (closeOn stockPrices d)
                           then closeOn stockPrices d else last)
            ds None.

(** Some disclosure dated [d] or earlier carries one of the five
    fields: the field is not [undefined]; a [null] counts. *)
Definition hasAnyMetricData (nm : list CompanyMetrics) (d : Z) : bool :=
  existsb (fun m =>
             (date m <=? d) &&
             (notUndefined (eth_holdings m) ||
              notUndefined (eth_concentration m) ||
              notUndefined (avg_buy_price m) ||
              notUndefined (usd_holdings m) ||
              notUndefined (staking_rewards m)))
          nm.

(** The company of the day's disclosure, else of the first disclosure, is
    a non-empty identifier. *)
Definition hasCompanyId (nm : list CompanyMetrics) (d : Z) : bool :=
  let first :=
    match nm with
    | m :: _ => strTruthy (company_id m)
    | [] => false
    end in
  match find (fun metric => date metric =? d) nm with
  | Some m => strTruthy (company_id m) || first
  | None => first
  end.

(** The three conditions under which the loop reaches its [push] on day
    [d], the days [earlier] having been gone through: a price is known, a
    disclosure is known, a company is known.  None of them reads the value
    of a concentration. *)
Definition reachesPush (nm : list CompanyMetrics)
    (stockPrices : list StockPrice) (earlier : list Z) (d : Z) : bool :=
  truthyOpt (lastKnownAfter stockPrices (earlier ++ [d]))
  && hasAnyMetricData nm d && hasCompanyId nm d.

(** Forward fill as the specification words it: over a series of
    dated optional values, the value of the day itself if present, else
    the value of the most recent earlier day that has one. *)
Section ForwardFill.
Context {A : Type}.
Variables (dateOf : A -> Z) (valueOf : A -> option number).

(** The entry of the latest date, the first of them in the list. *)
Fixpoint mostRecent (l : list A) : option A :=
  match l with
  | [] => None
  | x :: l' =>
      match mostRecent l' with
      | None => Some x
      | Some y => if dateOf x <? dateOf y then Some y else Some x
      end
  end.

Definition valueOfEntry (e : option A) : option number :=
  match e with
  | Some x => valueOf x
  | None => None
  end.

Definition forwardFill (l : list A) (d : Z) : option number :=
  let today := valueOfEntry (find (fun x => dateOf x =? d) l) in
  if isDefined today then today
  else
    valueOfEntry
      (mostRecent
         (filter (fun x => (dateOf x <? d) && isDefined (valueOf x)) l)).
End ForwardFill.

(** A disclosed value counts as present only when it is truthy. *)
Definition presentIfTruthy (v : option number) : option number :=
  if truthyOpt v then v else None.

(** *** What one invocation of the route does for one alert *)

(** The notification rows the route inserts for alert [a] of the
    snapshot when its company's mNAV is [currentMnav]: one row when the
    condition holds, the cooldown has passed and the insert succeeds,
    none otherwise. *)
Definition emitted (w : AlertStore.Writes) (nowMs : Z) (currentMnav : number)
    (a : AlertStore.Alert) : list AlertStore.Notification :=
  if MnavMonitorRoute.checkAlertCondition
       currentMnav (AlertStore.threshold_value a) (AlertStore.alert_type a)
     && MnavMonitorRoute.checkCooldownPeriod
          nowMs (AlertStore.last_triggered_at a)
  then match AlertStore.insertResult w a with
       | Some nid => [AlertStore.notificationFor nid a currentMnav]
       | None => []
       end
  else [].

Definition emittedFor (r : Reads) (w : AlertStore.Writes)
    (a : AlertStore.Alert) : list AlertStore.Notification :=
  match calculateCurrentMnav r (AlertStore.company_id a) with
  | Some currentMnav => emitted w (now r) currentMnav a
  | None => []
  end.

(** Every alert of a group belongs to the company of the group. *)
Definition wellGrouped (groups : list (string * list AlertStore.Alert))
  : Prop :=
  Forall (fun g => Forall (fun a => AlertStore.company_id a = fst g) (snd g))
         groups.

(** The columns of a rule that the monitor never writes. *)
Definition keyOf (a : AlertStore.Alert) : string * bool :=
  (AlertStore.id a, AlertStore.is_active a).

Definition hours (n : Z) : Z := n * 60 * 60 * 1000.
End Spec.

(** ** Vocabulary for the further properties of the filler *)

Module FillerSpec.
Import JsNum MnavService Spec.

(** The share count of the latest earlier row that has a truthy one. *)
Definition previousShares (earlierRows : list CompanyMetric) : option number :=
  match find (fun r => truthy (sharesOutstanding r)) (rev earlierRows) with
  | Some r => Some (sharesOutstanding r)
  | None => None
  end.

(** The fields of a pushed row that are derived from the price carried
    by the loop and from the rows pushed before it. *)
Definition builtFrom (earlierRows : list CompanyMetric) (price : number)
    (row : CompanyMetric) : Prop :=
  marketCap row = mul price (sharesOutstanding row) /\
  weightedAvgBuyPrice row = avgBuyPrice row /\
  sharesBoughtBack row
  = Some (orZero (getLastKnownSharesBoughtBack earlierRows (rowDate row))) /\
  issuedAtmShares row
  = match getLastKnownSharesOutstanding earlierRows (rowDate row) with
    | Some prev =>
        if truthy prev then sub (sharesOutstanding row) prev
        else sharesOutstanding row
    | None => sharesOutstanding row
    end.

(** The first disclosure names its company. *)
Definition firstHasCompany (metrics : list CompanyMetrics) : Prop :=
  match metrics with
  | m :: _ => strTruthy (company_id m) = true
  | [] => True
  end.

(** No price row has a truthy close. *)
Definition noClose (stockPrices : list StockPrice) : Prop :=
  Forall (fun p => truthyOpt (close p) = false) stockPrices.

(** No disclosure carries any of the five fields: each of them is
    [undefined] in every disclosure. *)
Definition noField (metrics : list CompanyMetrics) : Prop :=
  Forall (fun m => eth_holdings m = Undefined /\
                   eth_concentration m = Undefined /\
                   avg_buy_price m = Undefined /\
                   usd_holdings m = Undefined /\
                   staking_rewards m = Undefined) metrics.
End FillerSpec.

(** ** Reading a number as the rational it denotes *)

Module NumberValue.
Import JsNum.





End NumberValue.

(** ** Vocabulary for the further properties of the monitor *)

Module MonitorSpec.
Import JsNum AlertStore Spec.

Definition isEmpty {A : Type} (l : list A) : bool :=
  match l with
  | [] => true
  | _ => false
  end.

(** In an invocation of the route, alert [a] of the snapshot gets the
    [last_triggered_at] of rule [alertId] written: it is an alert of that
    rule, it emitted its notification, and the update is applied. *)
Definition stamps (r : MnavService.Reads) (w : Writes) (alertId : string)
    (a : Alert) : bool :=
  String.eqb (id a) alertId
  && negb (isEmpty (emittedFor r w a)) && updateSucceeds w a.

(** The same for an alert of a company whose mNAV is [currentMnav]. *)
Definition stampsAt (w : Writes) (nowMs : Z) (currentMnav : number)
    (alertId : string) (a : Alert) : bool :=
  String.eqb (id a) alertId
  && negb (isEmpty (emitted w nowMs currentMnav a)) && updateSucceeds w a.

(** A stored row after an invocation at [nowMs]: what it was, or what it
    was with [last_triggered_at] set to the instant of the invocation. *)
Definition onlyStamped (nowMs : Z) (old new : Alert) : Prop :=
  new = old \/ new = withLastTriggered old nowMs.

(** The alerts of company [k], in their order. *)
Definition alertsOf (k : string) (alerts : list Alert) : list Alert :=
  filter (fun a => String.eqb k (company_id a)) alerts.

(** The group filed under key [k]. *)
Definition groupOf (k : string) (groups : list (string * list Alert))
  : list Alert :=
  match find (fun g => String.eqb (fst g) k) groups with
  | Some g => snd g
  | None => []
  end.
End MonitorSpec.

(** ** Concrete inputs for the further properties *)

Module MoreFixtures.
Import JsNum MnavService Fixtures.

(** The eight rows of [twoDisclosuresRows], split around the fifth. *)
Definition rowsBeforeFifth : list CompanyMetric := firstn 4 twoDisclosuresRows.
Definition fifthRow : CompanyMetric := rowAt twoDisclosuresRows 4.
Definition rowsAfterFifth : list CompanyMetric := skipn 5 twoDisclosuresRows.

(** The instant of the run of [twoDisclosuresRows]. *)
Definition runStart : Z := day1 * msPerDay.
Definition runInstant : Z := (day1 + 6) * msPerDay + 1000.

(** That run, written out. *)
Notation twoDisclosuresRun :=
  (postFillMetrics (twoDisclosures day1) [priceOn day1 (ofZ 40)]
                   runStart runInstant).

(** The day-2 instant, at which the two disclosures resolve to the first
    one. *)
Definition firstDisclosure : CompanyMetrics :=
  disclosure (day1 * msPerDay) (Some (ofZ 100)) (Some (ofZ 500)) None.

(** A row of the table whose numeric columns are all NULL, and a
    disclosure object that has none of the numeric properties. *)
Definition nullDisclosure : CompanyMetrics :=
  disclosure (day1 * msPerDay) None None None.

Definition bareDisclosure : CompanyMetrics :=
  {| id := "m"; company_id := "bmnr"; date := day1 * msPerDay;
     eth_holdings := Undefined; avg_buy_price := Undefined;
     usd_holdings := Undefined; staking_rewards := Undefined;
     shares_outstanding := Undefined; market_cap := Undefined;
     eth_concentration := Undefined; issued_atm_shares := Undefined;
     notes := None |}.

(** A price row without a close. *)
Definition priceWithoutClose : StockPrice :=
  {| price_company_id := "bmnr"; price_date := DateOnly day1; close := None |}.

(** A store that inserts the notification and then fails the update. *)
Definition insertOnlyWrites : AlertStore.Writes :=
  {| AlertStore.insertResult :=
       fun a => Some ("n-" ++ AlertStore.id a)%string;
     AlertStore.updateSucceeds := fun _ => false |}.

(** The mNAV the two disclosures give. *)
Definition exampleMnav : number := div (ofZ 12000) (ofZ 300000).

(** Invocations of the route seven and eight hours after [t0]. *)
Definition readsAtSeven : Reads := readsAt (t0 + 7 * 60 * 60 * 1000).
Definition readsAtEight : Reads := readsAt (t0 + 8 * 60 * 60 * 1000).

Definition dbAfterSeven (w : AlertStore.Writes) : AlertStore.Db :=
  fst (MnavMonitorRoute.checkMnavThresholds readsAtSeven w alertsDb).

Definition dbAfterEight (w1 w2 : AlertStore.Writes) : AlertStore.Db :=
  fst (MnavMonitorRoute.checkMnavThresholds readsAtEight w2 (dbAfterSeven w1)).

(** A store with one rule of direction "below" that has not fired, and
    three invocations of the route on it in a row: at [t0], one hour
    later and seven hours later. *)
Definition unfiredRule : AlertStore.Alert :=
  rule "a3" "bmnr" "below" (ofZ 1) None.

Definition freshDb : AlertStore.Db :=
  {| AlertStore.mnav_threshold_alerts := [unfiredRule];
     AlertStore.mnav_notifications := [] |}.

Definition readsAtFiring : Reads := readsAt t0.
Definition readsAtOne : Reads := readsAt (t0 + 1 * 60 * 60 * 1000).

Definition dbFired (w0 : AlertStore.Writes) : AlertStore.Db :=
  fst (MnavMonitorRoute.checkMnavThresholds readsAtFiring w0 freshDb).

Definition dbAfterOne (w0 w1 : AlertStore.Writes) : AlertStore.Db :=
  fst (MnavMonitorRoute.checkMnavThresholds readsAtOne w1 (dbFired w0)).

Definition dbAfterOneAndSeven (w0 w1 w2 : AlertStore.Writes)
  : AlertStore.Db :=
  fst (MnavMonitorRoute.checkMnavThresholds readsAtSeven w2
         (dbAfterOne w0 w1)).

(** A rule that is due exactly six hours after [t0]. *)
Definition instantOfExpiry : Z := t0 + 6 * 60 * 60 * 1000.




End MoreFixtures.

(** ** Reading the price feed and the service loops *)

Module FeedSpec.
Import JsNum PriceFeed.

(** The price of the last trade of a ticker in a run of events. *)
Definition lastTraded (ticker : string) (events : list FeedEvent)
  : option number :=
  fold_left (fun acc e =>
               match e with
               | Trade _ _ k price =>
                   if String.eqb k ticker then Some price else acc
               | Flush _ _ => acc
               end) events None.

(** The upserts of a ticker, and the price and the instant of its last
    one. *)
Definition upsertsOf (ticker : string) (log : list Upsert) : list Upsert :=
  filter (fun u => String.eqb (upsert_ticker u) ticker) log.

Definition lastUpsert (ticker : string) (log : list Upsert)
  : option Upsert :=
  hd_error (rev (upsertsOf ticker log)).

Definition lastUpserted (ticker : string) (log : list Upsert)
  : option number :=
  option_map upsert_price (lastUpsert ticker log).

Definition lastUpsertAt (ticker : string) (log : list Upsert) : option Z :=
  option_map upsert_at (lastUpsert ticker log).

(** The latest price of each ticker, as [latest] gives it, is the
    pending one, or the last one upserted when none is pending. *)
Definition tracks (latest : string -> option number) (st : Feed) : Prop :=
  NoDup (mapKeys (pendingPrices st)) /\
  forall ticker,
    latest ticker = match mapGet ticker (pendingPrices st) with
                    | Some price => Some price
                    | None => lastUpserted ticker (upserts st)
                    end.

(** [lastUpdateTime] holds the instant of the last upsert of each
    ticker. *)
Definition stamped (st : Feed) : Prop :=
  forall ticker,
    mapGet ticker (lastUpdateTime st) = lastUpsertAt ticker (upserts st).

(** Two upserts of a ticker in a row are [DEBOUNCE_MS] apart. *)
Definition spaced (log : list Upsert) : Prop :=
  forall ticker pre u1 u2 post,
    upsertsOf ticker log = pre ++ u1 :: u2 :: post ->
    DEBOUNCE_MS <= upsert_at u2 - upsert_at u1.

(** A trade whose two readings of the clock do not go backwards. *)
Definition tradeInOrder (e : FeedEvent) : Prop :=
  match e with
  | Trade nowMs flushMs _ _ => nowMs <= flushMs
  | Flush _ _ => False
  end.

Definition upsertOf (clock : string -> Z) (entry : string * number) : Upsert :=
  {| upsert_ticker := fst entry;
     upsert_price := snd entry;
     upsert_at := clock (fst entry) |}.

(** The counter after a run of socket events. *)
Definition attemptsAfter (reconnectAttempts : Z) (events : list SocketEvent)
  : Z :=
  fold_left (fun n e => snd (socketStep n e)) events reconnectAttempts.
End FeedSpec.

Module LoopSpec.
Import JsNum AlertStore MnavMonitorLoops.

(** What [checkAllAlerts] reports for a group, read off the snapshot
    and the mNAV alone. *)
Definition reportOf (r : Reads) (group : string * list Alert)
  : list MnavCheckResult :=
  match currentMnavOf r (fst group) with
  | None => []
  | Some currentMnav =>
      [{| result_company_id := fst group;
          current_mnav := currentMnav;
          triggered_alerts :=
            filter (fun alert =>
                      MnavMonitorService.shouldTriggerAlert
                        (now r) alert currentMnav) (snd group) |}]
  end.

(** The rule and the mNAV of a stored notification and of an entry of
    the answer. *)
Definition storedKey (n : Notification) : string * number :=
  (alert_id n, mnav_value n).

Definition answerKey (t : TriggeredAlert) : string * number :=
  (triggered_alert_id t, triggered_mnav t).

(** A stored notification whose [id] is truthy. *)
Definition hasTruthyId (n : Notification) : bool :=
  MnavService.strTruthy (notification_id n).

(** The companies of a snapshot, each once. *)
Definition companiesOf (alerts : list Alert) : list string :=
  nodup string_dec (map company_id alerts).
End LoopSpec.

(** ** Fixtures of the service and of the feed *)

Module LoopFixtures.
Import JsNum MnavService Fixtures.

(** What the service reads seven hours after [t0]: the single
    disclosure, a close of 40 and an ETH price of 2000. *)
Definition serviceReads : MnavMonitorLoops.Reads :=
  {| MnavMonitorLoops.company_metrics := fun _ => holdingsOnly;
     MnavMonitorLoops.stock_prices := fun _ => [priceOn day1 (ofZ 40)];
     MnavMonitorLoops.getCurrentEthPrice := fun _ => Some (ofZ 2000);
     MnavMonitorLoops.now := t0 + 7 * 60 * 60 * 1000 |}.

(** A rule of direction "below" with threshold 1 that has not fired. *)
Definition belowRule : AlertStore.Alert :=
  rule "a3" "bmnr" "below" (ofZ 1) None.

(** Three trades of one ticker: the second within the debounce window
    of the first, the third after it. *)
Definition threeTrades : list PriceFeed.FeedEvent :=
  [ PriceFeed.Trade 20000 20000 "BMNR" (ofZ 40);
    PriceFeed.Trade 20001 20001 "BMNR" (ofZ 41);
    PriceFeed.Trade 36000 36001 "BMNR" (ofZ 42) ].

Definition firstUpsert : PriceFeed.Upsert :=
  {| PriceFeed.upsert_ticker := "BMNR";
     PriceFeed.upsert_price := ofZ 40;
     PriceFeed.upsert_at := 20000 |}.

Definition secondUpsert : PriceFeed.Upsert :=
  {| PriceFeed.upsert_ticker := "BMNR";
     PriceFeed.upsert_price := ofZ 42;
     PriceFeed.upsert_at := 36001 |}.
End LoopFixtures.

(** * Properties *)

(** ** Numbers *)

Section NumberFacts.
Import JsNum.

Lemma SFcompare_Eq_sym (x y : number) :
  SFcompare x y = Some Eq -> SFcompare y x = Some Eq.
Proof.
  destruct x as [sx|sx| |sx mx ex], y as [sy|sy| |sy my ey]; simpl;
    try discriminate; try reflexivity;
    try (destruct sx; discriminate); try (destruct sy; discriminate).
  - destruct sx, sy; intros H; try discriminate; reflexivity.
  - destruct sx, sy; try discriminate.
    + destruct (Z.compare_spec ex ey) as [He|He|He]; try discriminate.
      subst ey. rewrite Z.compare_refl. intros H.
      destruct (Pos.compare_cont Eq mx my) eqn:Hc; try discriminate.
      apply Pos.compare_eq in Hc. subst my.
      fold (Pos.compare mx mx). now rewrite Pos.compare_refl.
    + destruct (Z.compare_spec ex ey) as [He|He|He]; try discriminate.
      subst ey. rewrite Z.compare_refl. intros H.
      destruct (Pos.compare_cont Eq mx my) eqn:Hc; try discriminate.
      apply Pos.compare_eq in Hc. subst my.
      fold (Pos.compare mx mx). now rewrite Pos.compare_refl.
Qed.

(** Strict equality excludes both strict orders. *)
Lemma strictEq_not_lt (x y : number) :
  strictEq x y = true -> lt x y = false /\ gt x y = false.
Proof.
  unfold strictEq, lt, gt, SFeqb, SFltb. intros H.
  destruct (SFcompare x y) as [[| |]|] eqn:Hc; try discriminate.
  apply SFcompare_Eq_sym in Hc. now rewrite Hc.
Qed.

Lemma lt_irrefl (x : number) : lt x x = false.
Proof.
  unfold lt, SFltb.
  destruct x as [s|s| |s m e]; simpl; try reflexivity.
  - now destruct s.
  - destruct s; rewrite Z.compare_refl; fold (Pos.compare m m);
      now rewrite Pos.compare_refl.
Qed.

(** Dividing by the quotient [0 / 1000] never gives a finite number. *)
Lemma div_by_zero_quotient (h c : number) :
  truthy c = false -> isNaN c = false ->
  div h (div c (ofZ 1000)) =
    match h with
    | S754_zero _ | S754_nan => NaN
    | S754_infinity s | S754_finite s _ _ =>
        S754_infinity (xorb s (match c with S754_zero sc => sc | _ => false end))
    end.
Proof.
  destruct c as [sc|sc| |sc mc ec]; try discriminate. intros _ _.
  destruct h as [sh|sh| |sh mh eh], sc; reflexivity.
Qed.

Lemma orZero_cases (v : option number) :
  orZero v = zero \/ truthy (orZero v) = true.
Proof.
  destruct v as [x|]; simpl; [|now left].
  destruct (truthy x) eqn:Hx; [now right | now left].
Qed.
End NumberFacts.

(** ** Rounding

    What [SpecFloat] computes for a product and for a quotient, read
    on the rationals: the exact result lies within two units in the last
    place of the rounded one. *)

Section RoundingFacts.
Import JsNum NumberValue.
















End RoundingFacts.

(** ** The series filler *)

Section FillerFacts.
Import JsNum MnavService Spec.

(** An iteration pushes at most one row, built for the day of the
    iteration from the resolved values. *)
Lemma fillDay_rows nm sp (st : FillState) d :
  snd (fillDay nm sp st d) = snd st \/
  exists row, snd (fillDay nm sp st d) = snd st ++ [row] /\
              rowDate row = d /\ resolvedRow nm row.
Proof.
  destruct st as [last rows]. unfold fillDay.
  destruct (if truthyOpt _ then _ else last) as [price|]; [|now left].
  destruct (truthy price); simpl negb; cbv iota; [|now left].
  destruct (existsb _ nm); simpl negb; cbv iota; [|now left].
  match goal with
  | |- context [match ?c with Some cid => _ | None => _ end] =>
      destruct c as [cid|]; [|now left]
  end.
  destruct (strTruthy cid); simpl negb; cbv iota; [|now left].
  right. eexists. split; [reflexivity|]. split; [reflexivity|].
  repeat split.
Qed.

Lemma fill_rows_invariant (P : CompanyMetric -> Prop) nm sp :
  (forall d row, rowDate row = d -> resolvedRow nm row -> P row) ->
  forall ds (st : FillState),
    Forall P (snd st) ->
    Forall P (snd (fold_left (fillDay nm sp) ds st)).
Proof.
  intros HP ds. induction ds as [|d ds IH]; intros st Hst; [exact Hst|].
  simpl. apply IH.
  destruct (fillDay_rows nm sp st d) as [E|[row [E [Hd Hr]]]]; rewrite E.
  - exact Hst.
  - apply Forall_app. split; [exact Hst|].
    constructor; [|constructor]. now apply (HP d).
Qed.

(** Every emitted row carries the resolved values of its day. *)
Lemma postFill_resolved metrics sp start t row :
  In row (postFillMetrics metrics sp start t) ->
  resolvedRow (map withNormalizedDate metrics) row.
Proof.
  unfold postFillMetrics. intros Hin.
  pose proof (fill_rows_invariant
                (resolvedRow (map withNormalizedDate metrics))
                (map withNormalizedDate metrics) sp
                (fun _ _ _ H => H)
                (fillDates start t) (None, []) (Forall_nil _)) as HF.
  rewrite Forall_forall in HF. now apply HF.
Qed.

(** The price the loop carries does not depend on the rows. *)
Lemma fillDay_price nm sp last rows d :
  fst (fillDay nm sp (last, rows) d)
  = if truthyOpt (closeOn sp d) then closeOn sp d else last.
Proof.
  unfold fillDay, closeOn.
  destruct (if truthyOpt _ then _ else last) as [price|]; [|reflexivity].
  destruct (truthy price); simpl negb; cbv iota; [|reflexivity].
  destruct (existsb _ nm); simpl negb; cbv iota; [|reflexivity].
  match goal with
  | |- context [match ?c with Some cid => _ | None => _ end] =>
      destruct c as [cid|]; [|reflexivity]
  end.
  now destruct (strTruthy cid).
Qed.

(** With a price, a disclosure and a company known, the iteration pushes
    a row. *)
Lemma fillDay_pushes nm sp last rows d :
  truthyOpt (if truthyOpt (closeOn sp d) then closeOn sp d else last)
  && hasAnyMetricData nm d && hasCompanyId nm d = true ->
  exists row, snd (fillDay nm sp (last, rows) d) = rows ++ [row] /\
              rowDate row = d /\ resolvedRow nm row.
Proof.
  unfold fillDay, closeOn, hasAnyMetricData, hasCompanyId.
  destruct (if truthyOpt _ then _ else last) as [price|]; [|discriminate].
  cbn [truthyOpt].
  destruct (truthy price); simpl negb; cbv iota; [|discriminate].
  destruct (existsb _ nm); simpl negb; cbv iota; [|discriminate].
  cbn [andb].
  destruct (find (fun metric => date metric =? d) nm) as [m|];
    destruct nm as [|m0 nm']; try discriminate.
  all: try destruct (strTruthy (company_id m)) eqn:E1;
       try destruct (strTruthy (company_id m0)) eqn:E2;
       try discriminate; intros _;
       try rewrite E1; try rewrite E2; simpl negb; cbv iota;
       eexists; (split; [reflexivity|]); (split; [reflexivity|]);
       repeat split.
Qed.

Lemma fill_price nm sp ds : forall last rows,
  fst (fold_left (fillDay nm sp) ds (last, rows))
  = fold_left (fun last d => if truthyOpt (closeOn sp d)
                             then closeOn sp d else last) ds last.
Proof.
  induction ds as [|d ds IH]; intros last rows; cbn [fold_left];
    [reflexivity|].
  destruct (fillDay nm sp (last, rows) d) as [last' rows'] eqn:E.
  rewrite IH. f_equal.
  now rewrite <- (fillDay_price nm sp last rows d), E.
Qed.

(** Rows are only ever appended. *)
Lemma fill_rows_kept nm sp ds : forall (st : FillState) row,
  In row (snd st) -> In row (snd (fold_left (fillDay nm sp) ds st)).
Proof.
  induction ds as [|d ds IH]; intros st row Hin; cbn [fold_left];
    [exact Hin|].
  apply IH.
  destruct (fillDay_rows nm sp st d) as [E|[r [E _]]]; rewrite E;
    [exact Hin | apply in_or_app; now left].
Qed.

(** Every day that reaches the [push] has its row in the output. *)
Lemma postFill_emits metrics sp start t earlier d later :
  fillDates start t = earlier ++ d :: later ->
  reachesPush (map withNormalizedDate metrics) sp earlier d = true ->
  exists row, In row (postFillMetrics metrics sp start t) /\
              rowDate row = d.
Proof.
  intros Hds Hq. unfold postFillMetrics. rewrite Hds, fold_left_app.
  set (nm := map withNormalizedDate metrics) in *.
  destruct (fold_left (fillDay nm sp) earlier (None, [])) as [last rows] eqn:E.
  assert (Hlast : last = lastKnownAfter sp earlier).
  { unfold lastKnownAfter. rewrite <- fill_price with (nm := nm) (rows := []).
    now rewrite E. }
  unfold reachesPush, lastKnownAfter in Hq. rewrite fold_left_app in Hq.
  simpl in Hq. fold (lastKnownAfter sp earlier) in Hq. rewrite <- Hlast in Hq.
  destruct (fillDay_pushes nm sp last rows d Hq) as [row [Hrow [Hd _]]].
  exists row. split; [|exact Hd].
  cbn [fold_left]. apply fill_rows_kept. rewrite Hrow. apply in_or_app. right. now left.
Qed.

Lemma normalizeDate_midnight k : normalizeDate (k * msPerDay) = k * msPerDay.
Proof.
  unfold normalizeDate. now rewrite Z.div_mul by (unfold msPerDay; lia).
Qed.

Lemma normalized_twoDisclosures D :
  map withNormalizedDate (Fixtures.twoDisclosures D)
  = Fixtures.twoDisclosures D.
Proof.
  unfold Fixtures.twoDisclosures, withNormalizedDate, Fixtures.disclosure.
  cbn [map date id company_id eth_holdings avg_buy_price usd_holdings
       staking_rewards shares_outstanding market_cap eth_concentration
       issued_atm_shares notes].
  now rewrite !normalizeDate_midnight.
Qed.

(** Forward fill on the two disclosures: 100 from day 1 up to day 5
    excluded, 150 from day 5 on. *)
Lemma ethHoldings_twoDisclosures D d :
  let nm := map withNormalizedDate (Fixtures.twoDisclosures D) in
  (D * msPerDay <= d < (D + 4) * msPerDay ->
     getLastKnownEthHoldings nm d = Some (ofZ 100)) /\
  ((D + 4) * msPerDay <= d ->
     getLastKnownEthHoldings nm d = Some (ofZ 150)).
Proof.
  cbv zeta. rewrite normalized_twoDisclosures.
  unfold Fixtures.twoDisclosures, getLastKnownEthHoldings, getLastKnown.
  assert (H100 : truthy (ofZ 100) = true) by reflexivity.
  assert (H150 : truthy (ofZ 150) = true) by reflexivity.
  unfold msPerDay.
  split; intros Hd;
    cbn [date Fixtures.disclosure eth_holdings numberOf num ofOption
         find filter truthyOpt];
    repeat match goal with
           | |- context [Z.eqb ?a ?b] => destruct (Z.eqb_spec a b); try lia
           | |- context [Z.ltb ?a ?b] => destruct (Z.ltb_spec a b); try lia
           | _ => rewrite H100 || rewrite H150
           | _ => progress cbn [date Fixtures.disclosure eth_holdings
                                numberOf num ofOption
                                truthyOpt andb sortDesc insertDesc]
           end; reflexivity.
Qed.

(** C1 (as stated, refuted).  With one disclosure of 100 held units and
    no concentration, and a price on that day, the filler emits the day:
    the row has a resolved concentration of [0] and a
    [sharesOutstanding] of [Infinity]. *)
Lemma zero_concentration_row_emitted :
  exists row,
    In row (postFillMetrics Fixtures.holdingsOnly
              [Fixtures.priceOn Fixtures.day1 (ofZ 40)]
              (Fixtures.day1 * msPerDay) (Fixtures.day1 * msPerDay)) /\
    ethConcentration row = zero /\
    sharesOutstanding row = Infinity /\
    isFinite (sharesOutstanding row) = false.
Proof.
  eexists. split; [vm_compute; left; reflexivity|].
  repeat split.
Qed.

(** C1 (amended).  No day is omitted on account of its resolved
    concentration: every day of the loop for which a price, a disclosure
    and a company are known has its row in the output.  Every emitted row
    with a resolved concentration of [0] carries a [sharesOutstanding]
    that is not finite: [NaN] when the resolved holdings are [0], plus or
    minus [Infinity] otherwise. *)
Theorem zero_concentration_gives_non_finite_shares
    metrics stockPrices start t :
  (forall earlier d later,
      fillDates start t = earlier ++ d :: later ->
      reachesPush (map withNormalizedDate metrics) stockPrices earlier d
      = true ->
      exists row, In row (postFillMetrics metrics stockPrices start t) /\
                  rowDate row = d) /\
  (forall row,
      In row (postFillMetrics metrics stockPrices start t) ->
      strictEq (ethConcentration row) zero = true ->
      isFinite (sharesOutstanding row) = false /\
      (truthy (ethHoldings row) = false ->
         sharesOutstanding row = NaN) /\
      (truthy (ethHoldings row) = true ->
         sharesOutstanding row = Infinity \/
         sharesOutstanding row = S754_infinity true)).
Proof.
  split; [intros earlier d later; apply postFill_emits|].
  intros row Hin Hc.
  destruct (postFill_resolved _ _ _ _ _ Hin)
    as (Hh & _ & _ & _ & _ & Hs).
  assert (Hz : truthy (ethConcentration row) = false
               /\ isNaN (ethConcentration row) = false).
  { destruct (ethConcentration row) as [s|s| |s m e]; try discriminate;
      try (destruct s; discriminate). now split. }
  destruct Hz as [Hz1 Hz2].
  rewrite Hs, (div_by_zero_quotient _ _ Hz1 Hz2).
  destruct (orZero_cases (getLastKnownEthHoldings
                            (map withNormalizedDate metrics) (rowDate row)))
    as [E|E]; rewrite <- Hh in E.
  - rewrite E. repeat split; try reflexivity; discriminate.
  - assert (Hsc : match ethConcentration row with
                  | S754_zero sc => sc
                  | _ => false
                  end = false).
    { destruct (orZero_cases (getLastKnownEthConcentration
                            (map withNormalizedDate metrics) (rowDate row)))
        as [E'|E']; destruct (postFill_resolved _ _ _ _ _ Hin)
        as (_ & Hcc & _); rewrite <- Hcc in E'.
      - now rewrite E'.
      - congruence. }
    rewrite Hsc.
    destruct (ethHoldings row) as [s|s| |s m e]; try discriminate;
      destruct s; repeat split; try reflexivity; try discriminate;
      intros _; auto.
Qed.

Lemma zero_concentration_witness :
  (fillDates (Fixtures.day1 * msPerDay) (Fixtures.day1 * msPerDay)
   = [] ++ Fixtures.day1 * msPerDay :: [] /\
   reachesPush (map withNormalizedDate Fixtures.holdingsOnly)
               [Fixtures.priceOn Fixtures.day1 (ofZ 40)]
               [] (Fixtures.day1 * msPerDay) = true /\
   exists row, In row Fixtures.holdingsOnlyRows /\
               rowDate row = Fixtures.day1 * msPerDay) /\
  (In Fixtures.holdingsOnlyRow Fixtures.holdingsOnlyRows /\
   strictEq (ethConcentration Fixtures.holdingsOnlyRow) zero = true /\
   isFinite (sharesOutstanding Fixtures.holdingsOnlyRow) = false).
Proof.
  set (row := Fixtures.holdingsOnlyRow).
  pose proof (zero_concentration_gives_non_finite_shares
                Fixtures.holdingsOnly
                [Fixtures.priceOn Fixtures.day1 (ofZ 40)]
                (Fixtures.day1 * msPerDay) (Fixtures.day1 * msPerDay))
    as [Hemit Hshares].
  assert (Hds : fillDates (Fixtures.day1 * msPerDay)
                          (Fixtures.day1 * msPerDay)
                = [] ++ Fixtures.day1 * msPerDay :: [])
    by (vm_compute; reflexivity).
  assert (Hq : reachesPush (map withNormalizedDate Fixtures.holdingsOnly)
                 [Fixtures.priceOn Fixtures.day1 (ofZ 40)]
                 [] (Fixtures.day1 * msPerDay) = true)
    by (vm_compute; reflexivity).
  assert (Hin : In row Fixtures.holdingsOnlyRows)
    by (vm_compute; left; reflexivity).
  assert (Hc : strictEq (ethConcentration row) zero = true)
    by (vm_compute; reflexivity).
  split.
  - split; [exact Hds|]. split; [exact Hq|].
    exact (Hemit [] (Fixtures.day1 * msPerDay) [] Hds Hq).
  - split; [exact Hin|]. split; [exact Hc|].
    exact (proj1 (Hshares row Hin Hc)).
Defined.

Lemma strictEq_refl (x : number) : isNaN x = false -> strictEq x x = true.
Proof.
  unfold strictEq, SFeqb.
  destruct x as [s|s| |s m e]; simpl; try reflexivity; try discriminate.
  - now destruct s.
  - intros _. destruct s; rewrite Z.compare_refl;
      fold (Pos.compare m m); now rewrite Pos.compare_refl.
Qed.

(** C4.  Every emitted row carries the resolved (forward-filled)
    holdings and concentration of its day, and its [sharesOutstanding]
    is the binary64 value of [ethHoldings / (ethConcentration / 1000)]
    computed from them; unless that value is [NaN], [===] holds between
    the two. *)
Theorem derived_share_invariant metrics stockPrices start t row :
  In row (postFillMetrics metrics stockPrices start t) ->
  let nm := map withNormalizedDate metrics in
  ethHoldings row = orZero (getLastKnownEthHoldings nm (rowDate row)) /\
  ethConcentration row =
    orZero (getLastKnownEthConcentration nm (rowDate row)) /\
  sharesOutstanding row =
    div (ethHoldings row) (div (ethConcentration row) (ofZ 1000)) /\
  (isNaN (sharesOutstanding row) = false ->
   strictEq (sharesOutstanding row)
            (div (ethHoldings row) (div (ethConcentration row) (ofZ 1000)))
   = true).
Proof.
  intros Hin nm.
  destruct (postFill_resolved _ _ _ _ _ Hin)
    as (Hh & Hc & _ & _ & _ & Hs).
  repeat split; try assumption.
  intros Hn. rewrite <- Hs. now apply strictEq_refl.
Qed.

Lemma derived_share_witness :
  In Fixtures.firstRow Fixtures.twoDisclosuresRows /\
  sharesOutstanding Fixtures.firstRow = ofZ 200 /\
  sharesOutstanding Fixtures.firstRow =
    div (ethHoldings Fixtures.firstRow)
        (div (ethConcentration Fixtures.firstRow) (ofZ 1000)).
Proof.
  set (row := Fixtures.firstRow).
  assert (Hin : In row Fixtures.twoDisclosuresRows)
    by (vm_compute; left; reflexivity).
  split; [exact Hin|]. split; [vm_compute; reflexivity|].
  exact (proj1 (proj2 (proj2 (derived_share_invariant _ _ _ _ row Hin)))).
Defined.

(** C3.  With disclosures on day 1 (100 held, concentration 500) and
    on day 5 (150 held) only, whatever the prices, the start date and
    the instant of the call, every emitted row of days 2 to 4 reports
    100 held units and every emitted row from day 5 on reports 150; and
    with a price on day 1, started on day 1 and called in the course of
    day 7, the filler emits the days 1 to 8 with 100 on days 1 to 4 and
    150 on days 5 to 8. *)
Theorem forward_fill_correctness :
  (forall D stockPrices start t row,
      In row (postFillMetrics (Fixtures.twoDisclosures D)
                              stockPrices start t) ->
      ((D + 1) * msPerDay <= rowDate row < (D + 4) * msPerDay ->
         ethHoldings row = ofZ 100) /\
      ((D + 4) * msPerDay <= rowDate row ->
         ethHoldings row = ofZ 150)) /\
  map (fun row => (rowDate row / msPerDay - Fixtures.day1 + 1,
                   ethHoldings row))
      Fixtures.twoDisclosuresRows
  = [ (1, ofZ 100); (2, ofZ 100); (3, ofZ 100); (4, ofZ 100);
      (5, ofZ 150); (6, ofZ 150); (7, ofZ 150); (8, ofZ 150) ].
Proof.
  split; [|vm_compute; reflexivity].
  intros D sp start t row Hin.
  destruct (postFill_resolved _ _ _ _ _ Hin) as (Hh & _).
  destruct (ethHoldings_twoDisclosures D (rowDate row)) as [H1 H2].
  split; intros Hd; rewrite Hh.
  - rewrite H1; [reflexivity|]. unfold msPerDay in *. lia.
  - rewrite H2; [reflexivity|]. exact Hd.
Qed.

Lemma forward_fill_witness :
  In Fixtures.thirdRow Fixtures.twoDisclosuresRows /\
  (Fixtures.day1 + 1) * msPerDay <= rowDate Fixtures.thirdRow
    < (Fixtures.day1 + 4) * msPerDay /\
  ethHoldings Fixtures.thirdRow = ofZ 100.
Proof.
  set (row := Fixtures.thirdRow).
  assert (Hin : In row Fixtures.twoDisclosuresRows)
    by (vm_compute; do 2 right; left; reflexivity).
  assert (Hd : (Fixtures.day1 + 1) * msPerDay <= rowDate row
               < (Fixtures.day1 + 4) * msPerDay)
    by (vm_compute; split; [discriminate | reflexivity]).
  split; [exact Hin|]. split; [exact Hd|].
  exact (proj1 (proj1 forward_fill_correctness
                  Fixtures.day1 _ _ _ row Hin) Hd).
Defined.
End FillerFacts.

(** ** The NAV computation *)

Section NavFacts.
Import JsNum MnavService Spec.

(** C8 (as stated, refuted).  On the inputs of the example the code
    does not produce the total, the NAV per share and the ratio the
    claim lists. *)
Lemma nav_example_stated_values_refuted :
  NavFormulas.totalNavValue Fixtures.navExampleValues <> ofZ 2500500 /\
  NavFormulas.navPerShare Fixtures.navExampleValues
    <> div (ofZ 25005) (ofZ 100) /\
  NavFormulas.mNav Fixtures.navExampleValues
    <> div (ofZ 2500000) (ofZ 2500500).
Proof. vm_compute. repeat split; discriminate. Qed.

(** C8 (amended).  With 1000 held units, an asset price of 2000, cash
    of 500000, no other assets, 10000 shares and an equity price of 250,
    the NAV computation yields a total of 2500000, a NAV per share of
    250, a market capitalisation of 2500000 and an mNAV of 1. *)
Theorem nav_example_values today :
  NavFormulas.totalNavValue Fixtures.navExampleValues = ofZ 2500000 /\
  NavFormulas.navPerShare Fixtures.navExampleValues = ofZ 250 /\
  NavFormulas.marketCap Fixtures.navExampleValues = ofZ 2500000 /\
  NavFormulas.mNav Fixtures.navExampleValues = ofZ 1 /\
  navOfLatest "bmnr" today Fixtures.navExampleMetric
              zero (ofZ 2000) (ofZ 250)
  = Some {| navCompanyId := "bmnr";
            navDate := today;
            navPerShare := ofZ 250;
            stockPrice := ofZ 250;
            ethPrice := ofZ 2000;
            mNav := ofZ 1;
            totalNavValue := ofZ 2500000 |}.
Proof. repeat split; vm_compute; reflexivity. Qed.

(** *** Zero as absent, zero as present *)

Lemma hd_insertDesc {A} (dateOf : A -> Z) x l :
  hd_error (insertDesc dateOf x l) =
    match hd_error l with
    | None => Some x
    | Some y => if dateOf x <? dateOf y then Some y else Some x
    end.
Proof. destruct l as [|y l]; simpl; [reflexivity|]. now destruct (_ <? _). Qed.

Lemma hd_sortDesc {A} (dateOf : A -> Z) l :
  hd_error (sortDesc dateOf l) = mostRecent dateOf l.
Proof.
  induction l as [|x l IH]; simpl; [reflexivity|].
  now rewrite hd_insertDesc, IH.
Qed.

Lemma mostRecent_In {A} (dateOf : A -> Z) l e :
  mostRecent dateOf l = Some e -> In e l.
Proof.
  revert e. induction l as [|x l IH]; simpl; intros e; [discriminate|].
  destruct (mostRecent dateOf l) as [y|].
  - destruct (_ <? _); intros [= <-]; auto.
  - intros [= <-]. auto.
Qed.

Lemma head_value {A} (valueOf : A -> option number) (l : list A) :
  match l with
  | m :: _ => valueOf m
  | [] => None
  end = valueOfEntry valueOf (hd_error l).
Proof. now destruct l. Qed.

Lemma isDefined_presentIfTruthy v :
  isDefined (presentIfTruthy v) = truthyOpt v.
Proof.
  unfold presentIfTruthy. destruct (truthyOpt v) eqn:E; [|reflexivity].
  destruct v; [reflexivity|discriminate].
Qed.

(** The four truthiness-testing helpers are the forward fill of the
    series in which a falsy disclosed value is absent. *)
Lemma getLastKnown_forwardFill field ms d :
  getLastKnown field ms d
  = forwardFill date (fun m => presentIfTruthy (field m)) ms d.
Proof.
  unfold getLastKnown, forwardFill.
  rewrite head_value, hd_sortDesc.
  rewrite (filter_ext
             (fun x => (date x <? d) && isDefined (presentIfTruthy (field x)))
             (fun m => (date m <? d) && truthyOpt (field m)))
    by (intros a; now rewrite isDefined_presentIfTruthy).
  assert (Htail :
    valueOfEntry field
      (mostRecent date
         (filter (fun m => (date m <? d) && truthyOpt (field m)) ms))
    = valueOfEntry (fun m => presentIfTruthy (field m))
        (mostRecent date
           (filter (fun m => (date m <? d) && truthyOpt (field m)) ms))).
  { destruct (mostRecent _ _) as [e|] eqn:He; [|reflexivity].
    apply mostRecent_In, filter_In in He. destruct He as [_ He].
    apply andb_prop in He. destruct He as [_ He]. simpl.
    unfold presentIfTruthy. now rewrite He. }
  destruct (find _ ms) as [m|]; simpl.
  - rewrite isDefined_presentIfTruthy.
    destruct (truthyOpt (field m)) eqn:E.
    + unfold presentIfTruthy. now rewrite E.
    + exact Htail.
  - exact Htail.
Qed.

Lemma usdHoldingsExist_num c : usdHoldingsExist c = isDefined (num c).
Proof. now destruct c. Qed.

(** The cash helper is the forward fill of the series as disclosed: a
    disclosed zero is a value like any other. *)
Lemma getLastKnownUsdHoldings_forwardFill ms d :
  getLastKnownUsdHoldings ms d
  = mul (orZero (forwardFill date (numberOf usd_holdings) ms d)) million.
Proof.
  unfold getLastKnownUsdHoldings, forwardFill.
  rewrite (filter_ext
             (fun m => (date m <? d) && usdHoldingsExist (usd_holdings m))
             (fun x => (date x <? d) && isDefined (numberOf usd_holdings x)))
    by (intros a; unfold numberOf; now rewrite usdHoldingsExist_num).
  assert (Hhead : forall l,
             num (match l with
                  | m :: _ => usd_holdings m
                  | [] => Undefined
                  end)
             = valueOfEntry (numberOf usd_holdings) (hd_error l))
    by (now intros [|m l]).
  rewrite Hhead, hd_sortDesc, usdHoldingsExist_num.
  assert (Hcur : num (match find (fun metric => date metric =? d) ms with
                      | Some m => usd_holdings m
                      | None => Undefined
                      end)
                 = valueOfEntry (numberOf usd_holdings)
                     (find (fun x => date x =? d) ms))
    by (now destruct (find _ ms)).
  rewrite Hcur. now destruct (isDefined _).
Qed.

Lemma strictEq_zero_falsy x : strictEq x zero = true -> truthy x = false.
Proof.
  destruct x as [s|s| |s m e]; try reflexivity; try discriminate;
    destruct s; discriminate.
Qed.

(** C9.  In the filler, the helpers for held quantity, average
    acquisition price, staking rewards and concentration skip a
    disclosed [0] exactly as they skip an absent value, while the cash
    helper keeps a disclosed [0]; in the NAV computation, held quantity
    [0] or share count [0] makes the computation fail, and any cash
    value, [0] included, is accepted. *)
Theorem zero_handling_asymmetry :
  (forall ms d,
      getLastKnownEthHoldings ms d
      = forwardFill date
          (fun m => presentIfTruthy (numberOf eth_holdings m)) ms d /\
      getLastKnownAvgBuyPrice ms d
      = forwardFill date
          (fun m => presentIfTruthy (numberOf avg_buy_price m)) ms d /\
      getLastKnownStakingRewards ms d
      = forwardFill date
          (fun m => presentIfTruthy (numberOf staking_rewards m)) ms d /\
      getLastKnownEthConcentration ms d
      = forwardFill date
          (fun m => presentIfTruthy (numberOf eth_concentration m)) ms d /\
      getLastKnownUsdHoldings ms d
      = mul (orZero (forwardFill date (numberOf usd_holdings) ms d))
            million) /\
  (getLastKnownEthHoldings
     (Fixtures.heldThen (Some (ofZ 100)) (Some zero)) Fixtures.day2
   = Some (ofZ 100) /\
   getLastKnownEthHoldings
     (Fixtures.heldThen (Some (ofZ 100)) None) Fixtures.day2
   = Some (ofZ 100) /\
   getLastKnownUsdHoldings
     (Fixtures.cashThen (Some (ofZ 5)) (Some zero)) Fixtures.day2
   = zero /\
   getLastKnownUsdHoldings
     (Fixtures.cashThen (Some (ofZ 5)) None) Fixtures.day2
   = ofZ 5000000) /\
  (forall companyId today latest alt ethP stockP,
      (strictEq (ethHoldings latest) zero = true ->
       navOfLatest companyId today latest alt ethP stockP = None) /\
      (strictEq (sharesOutstanding latest) zero = true ->
       navOfLatest companyId today latest alt ethP stockP = None) /\
      (truthy (ethHoldings latest) = true ->
       truthy (sharesOutstanding latest) = true ->
       strictEq (usdHoldings latest) zero = true ->
       exists nav,
         navOfLatest companyId today latest alt ethP stockP = Some nav)).
Proof.
  split; [|split].
  - intros ms d.
    unfold getLastKnownEthHoldings, getLastKnownAvgBuyPrice,
      getLastKnownStakingRewards, getLastKnownEthConcentration.
    rewrite !getLastKnown_forwardFill, getLastKnownUsdHoldings_forwardFill.
    repeat split.
  - repeat split; vm_compute; reflexivity.
  - intros cid today latest alt ethP stockP. unfold navOfLatest.
    split; [|split].
    + intros H. now rewrite (strictEq_zero_falsy _ H).
    + intros H. rewrite (strictEq_zero_falsy _ H).
      now destruct (truthy (ethHoldings latest)).
    + intros H1 H2 _. rewrite H1, H2. simpl. eexists. reflexivity.
Qed.

Lemma zero_handling_witness :
  (strictEq (ethHoldings Fixtures.emptyMetric) zero = true /\
   strictEq (sharesOutstanding Fixtures.emptyMetric) zero = true /\
   navOfLatest "bmnr" Fixtures.day1 Fixtures.emptyMetric
               zero (ofZ 2000) (ofZ 40) = None) /\
  (truthy (ethHoldings (Fixtures.firstRow))
   = true /\
   truthy (sharesOutstanding (Fixtures.firstRow))
   = true /\
   strictEq (usdHoldings (Fixtures.firstRow)) zero
   = true /\
   exists nav,
     navOfLatest "bmnr" Fixtures.day1
                 (Fixtures.firstRow)
                 zero (ofZ 2000) (ofZ 40) = Some nav).
Proof.
  assert (H0 : strictEq (ethHoldings Fixtures.emptyMetric) zero = true)
    by reflexivity.
  assert (H0' : strictEq (sharesOutstanding Fixtures.emptyMetric) zero = true)
    by reflexivity.
  assert (H1 : truthy (ethHoldings
                         (Fixtures.firstRow))
               = true) by (vm_compute; reflexivity).
  assert (H2 : truthy (sharesOutstanding
                         (Fixtures.firstRow))
               = true) by (vm_compute; reflexivity).
  assert (H3 : strictEq (usdHoldings
                           (Fixtures.firstRow))
                        zero = true) by (vm_compute; reflexivity).
  pose proof (proj2 (proj2 zero_handling_asymmetry)) as Hnav.
  split.
  - split; [exact H0|]. split; [exact H0'|].
    exact (proj1 (Hnav "bmnr"%string Fixtures.day1 Fixtures.emptyMetric
                       zero (ofZ 2000) (ofZ 40)) H0).
  - split; [exact H1|]. split; [exact H2|]. split; [exact H3|].
    exact (proj2 (proj2 (Hnav "bmnr"%string Fixtures.day1
                              (Fixtures.firstRow)
                              zero (ofZ 2000) (ofZ 40))) H1 H2 H3).
Defined.

(** *** The ratio identity *)

Import NumberValue.


(** Over exact (rational) arithmetic the formulas of the NAV
    computation satisfy the identity as an equation. *)
Lemma ratio_identity_over_rationals
    (ethHoldings sharesOutstanding usdHoldings alt ethP stockP : Q) :
  let v := NavFormulas.compute Qplus Qmult Qdiv
             ethHoldings sharesOutstanding usdHoldings alt ethP stockP in
  ~ sharesOutstanding == 0 ->
  ~ NavFormulas.totalNavValue v == 0 ->
  (NavFormulas.mNav v * NavFormulas.navPerShare v == stockP /\
   NavFormulas.mNav v == stockP / NavFormulas.navPerShare v)%Q.
Proof.
  cbv zeta. unfold NavFormulas.compute; simpl. intros Hs Ht.
  split; field; auto.
Qed.






(** *** The missing guard *)

(** The service's own computation refuses a total NAV that is zero or
    negative. *)
Lemma service_mnav_guard ms sp p m :
  MnavMonitorService.calculateCurrentMnav ms sp p = Some m ->
  exists latestMetric ethP close,
    hd_error ms = Some latestMetric /\ p = Some ethP /\
    le (add (mul (orZero (numberOf eth_holdings latestMetric)) ethP)
            (orZero (numberOf usd_holdings latestMetric))) zero = false /\
    m = div (mul (orZero (numberOf shares_outstanding latestMetric)) close)
            (add (mul (orZero (numberOf eth_holdings latestMetric)) ethP)
                 (orZero (numberOf usd_holdings latestMetric))).
Proof.
  unfold MnavMonitorService.calculateCurrentMnav.
  destruct ms as [|latest ms]; [discriminate|].
  destruct sp as [|price sp]; [discriminate|].
  destruct p as [ethP|]; [|discriminate].
  destruct (truthy ethP); simpl negb; cbv iota; [|discriminate].
  destruct (MnavService.close price) as [c|]; [|discriminate].
  destruct (truthy c); simpl negb; cbv iota; [|discriminate].
  destruct (le _ zero) eqn:Hle; [discriminate|].
  intros [= <-]. exists latest, ethP, c. repeat split. exact Hle.
Qed.

(** C6 (the code fails the claim).  With a disclosed net cash position
    of minus one million against 200000 of held assets,
    [calculateCurrentNAV] returns a snapshot whose total NAV is -800000
    and whose mNAV is negative, and [calculateCurrentMnav] hands that
    ratio to the monitor; with a net cash position that cancels the held
    assets it returns a snapshot whose total NAV is [0] and whose mNAV is
    [Infinity].  The service's own computation returns no value on a
    negative total. *)
Theorem invalid_nav_is_returned :
  (exists nav,
      calculateCurrentNAV
        (Fixtures.readsOf Fixtures.netDebt (Fixtures.day1 * msPerDay))
        "bmnr" None None = Some nav /\
      totalNavValue nav = ofZ (-800000) /\
      lt (mNav nav) zero = true /\
      calculateCurrentMnav
        (Fixtures.readsOf Fixtures.netDebt (Fixtures.day1 * msPerDay))
        "bmnr" = Some (mNav nav)) /\
  (exists nav,
      calculateCurrentNAV
        (Fixtures.readsOf Fixtures.exactDebt (Fixtures.day1 * msPerDay))
        "bmnr" None None = Some nav /\
      totalNavValue nav = zero /\
      mNav nav = Infinity) /\
  MnavMonitorService.calculateCurrentMnav
    Fixtures.deepDebt [Fixtures.priceOn Fixtures.day1 (ofZ 40)]
    (Some (ofZ 2000)) = None.
Proof.
  split; [|split].
  - eexists. split; [vm_compute; reflexivity|]. repeat split.
  - eexists. split; [vm_compute; reflexivity|]. repeat split.
  - vm_compute. reflexivity.
Qed.
End NavFacts.

(** ** The alert monitor *)

Section MonitorFacts.
Import JsNum AlertStore MnavMonitorRoute Spec.

(** *** The two writes *)

Lemma markTriggered_keys i t rows :
  map keyOf (markTriggered i t rows) = map keyOf rows.
Proof.
  unfold markTriggered. rewrite map_map. apply map_ext.
  intros a. now destruct (String.eqb (id a) i).
Qed.

Lemma markTriggered_other i t rows aid :
  i <> aid ->
  filter (fun row => String.eqb (id row) aid) (markTriggered i t rows)
  = filter (fun row => String.eqb (id row) aid) rows.
Proof.
  intros Hne. induction rows as [|x rows IH]; [reflexivity|].
  cbn [markTriggered map filter]. fold (markTriggered i t rows).
  destruct (String.eqb_spec (id x) i) as [E|E].
  - cbn [withLastTriggered id].
    destruct (String.eqb_spec (id x) aid) as [E'|E']; [congruence|].
    exact IH.
  - destruct (String.eqb (id x) aid); [f_equal|]; exact IH.
Qed.

(** *** One alert *)

Lemma checkAlert_notifications w t m st a :
  mnav_notifications (db (checkAlert w t m st a))
  = mnav_notifications (db st) ++ emitted w t m a.
Proof.
  unfold checkAlert, emitted, insertThenUpdate.
  destruct (_ && _); [|now rewrite app_nil_r].
  destruct (insertResult w a); [reflexivity|now rewrite app_nil_r].
Qed.

Lemma checkAlert_quiet w t m st a : emitted w t m a = [] ->
  checkAlert w t m st a = st.
Proof.
  unfold checkAlert, emitted, insertThenUpdate.
  destruct (_ && _); [|reflexivity].
  destruct (insertResult w a); [discriminate|reflexivity].
Qed.

Lemma checkAlert_rows w t m st a aid :
  id a <> aid \/ emitted w t m a = [] ->
  rowsOf aid (db (checkAlert w t m st a)) = rowsOf aid (db st).
Proof.
  intros [Hne|Hq]; [|now rewrite checkAlert_quiet].
  unfold checkAlert, insertThenUpdate.
  destruct (_ && _); [|reflexivity].
  destruct (insertResult w a); [|reflexivity].
  unfold rowsOf. cbn [db mnav_threshold_alerts].
  destruct (updateSucceeds w a); [|reflexivity].
  now apply markTriggered_other.
Qed.

Lemma checkAlert_keys w t m st a :
  map keyOf (mnav_threshold_alerts (db (checkAlert w t m st a)))
  = map keyOf (mnav_threshold_alerts (db st)).
Proof.
  unfold checkAlert, insertThenUpdate.
  destruct (_ && _); [|reflexivity].
  destruct (insertResult w a); [|reflexivity].
  cbn [db mnav_threshold_alerts].
  destruct (updateSucceeds w a); [|reflexivity].
  apply markTriggered_keys.
Qed.

(** *** The alerts of one company *)

Lemma checkAlerts_notifications w t m l : forall st,
  mnav_notifications (db (fold_left (checkAlert w t m) l st))
  = mnav_notifications (db st) ++ flat_map (emitted w t m) l.
Proof.
  induction l as [|a l IH]; intros st; simpl; [now rewrite app_nil_r|].
  now rewrite IH, checkAlert_notifications, app_assoc.
Qed.

Lemma checkAlerts_rows w t m aid l : forall st,
  Forall (fun a => id a <> aid \/ emitted w t m a = []) l ->
  rowsOf aid (db (fold_left (checkAlert w t m) l st)) = rowsOf aid (db st).
Proof.
  induction l as [|a l IH]; intros st Hl; simpl; [reflexivity|].
  inversion Hl as [|? ? Ha Hl']; subst.
  rewrite IH by assumption. now apply checkAlert_rows.
Qed.

Lemma checkAlerts_keys w t m l : forall st,
  map keyOf (mnav_threshold_alerts (db (fold_left (checkAlert w t m) l st)))
  = map keyOf (mnav_threshold_alerts (db st)).
Proof.
  induction l as [|a l IH]; intros st; simpl; [reflexivity|].
  now rewrite IH, checkAlert_keys.
Qed.

(** *** Grouping *)

Lemma pushAlert_wellGrouped a acc :
  wellGrouped acc -> wellGrouped (pushAlert a acc).
Proof.
  unfold wellGrouped. induction acc as [|[k v] acc IH]; intros H; simpl.
  - repeat constructor.
  - inversion H as [|? ? Hkv Hacc]; subst.
    destruct (String.eqb_spec k (company_id a)) as [E|E].
    + constructor; [|exact Hacc]. simpl in *.
      apply Forall_app. split; [exact Hkv|]. now repeat constructor.
    + constructor; [exact Hkv|]. now apply IH.
Qed.

Lemma alertsByCompany_wellGrouped alerts :
  wellGrouped (alertsByCompany alerts).
Proof.
  unfold alertsByCompany.
  assert (H : forall acc, wellGrouped acc ->
              wellGrouped (fold_left (fun acc alert => pushAlert alert acc)
                                     alerts acc)).
  { induction alerts as [|a l IH]; intros acc Hacc; simpl; [exact Hacc|].
    apply IH. now apply pushAlert_wellGrouped. }
  apply H. constructor.
Qed.

Lemma pushAlert_members a acc :
  Permutation (List.concat (map snd (pushAlert a acc)))
              (a :: List.concat (map snd acc)).
Proof.
  induction acc as [|[k v] acc IH]; simpl; [reflexivity|].
  destruct (String.eqb k (company_id a)); simpl.
  - rewrite <- app_assoc. simpl. symmetry. apply Permutation_middle.
  - rewrite IH. symmetry. apply Permutation_middle.
Qed.

Lemma alertsByCompany_members alerts :
  Permutation (List.concat (map snd (alertsByCompany alerts))) alerts.
Proof.
  unfold alertsByCompany.
  assert (H : forall acc,
             Permutation
               (List.concat (map snd (fold_left
                                   (fun acc alert => pushAlert alert acc)
                                   alerts acc)))
               (List.concat (map snd acc) ++ alerts)).
  { induction alerts as [|a l IH]; intros acc; simpl.
    - now rewrite app_nil_r.
    - rewrite IH, pushAlert_members. simpl. apply Permutation_middle. }
  apply (H []).
Qed.

Lemma insertByIndex_members {V : Type} n (entry : string * V) l :
  Permutation (map snd (insertByIndex n entry l)) (entry :: map snd l).
Proof.
  induction l as [|[n' entry'] l IH]; cbn [insertByIndex map snd];
    [reflexivity|].
  destruct (n <=? n')%N; cbn [map snd]; [reflexivity|].
  rewrite IH. apply perm_swap.
Qed.

Lemma objectEntries_members {V : Type} (o : list (string * V)) :
  Permutation (objectEntries o) o.
Proof.
  unfold objectEntries. induction o as [|entry o IH];
    cbn [indexed fold_right filter]; [reflexivity|].
  fold (indexed o). destruct (arrayIndex (fst entry)) as [n|].
  - rewrite insertByIndex_members. cbn [app]. now apply perm_skip.
  - symmetry. apply Permutation_cons_app. now symmetry.
Qed.

Lemma entries_wellGrouped alerts :
  wellGrouped (objectEntries (alertsByCompany alerts)).
Proof.
  unfold wellGrouped.
  apply (Permutation_Forall
           (Permutation_sym (objectEntries_members (alertsByCompany alerts)))).
  apply alertsByCompany_wellGrouped.
Qed.

Lemma entries_members alerts :
  Permutation
    (List.concat (map snd (objectEntries (alertsByCompany alerts)))) alerts.
Proof.
  rewrite <- (alertsByCompany_members alerts) at 2.
  rewrite <- !flat_map_concat_map.
  apply Permutation_flat_map, objectEntries_members.
Qed.

(** *** One company *)

Lemma emittedFor_in_group r w k v :
  Forall (fun a => company_id a = k) v ->
  flat_map (emittedFor r w) v
  = match MnavService.calculateCurrentMnav r k with
    | Some m => flat_map (emitted w (MnavService.now r) m) v
    | None => []
    end.
Proof.
  induction 1 as [|a v Ha Hv IH]; simpl.
  - now destruct (MnavService.calculateCurrentMnav r k).
  - rewrite IH. unfold emittedFor at 1. rewrite Ha.
    now destruct (MnavService.calculateCurrentMnav r k).
Qed.

Lemma checkCompany_notifications r w st g :
  Forall (fun a => company_id a = fst g) (snd g) ->
  mnav_notifications (db (checkCompany r w st g))
  = mnav_notifications (db st) ++ flat_map (emittedFor r w) (snd g).
Proof.
  destruct g as [k v]. simpl. intros Hg.
  rewrite (emittedFor_in_group r w k v Hg).
  destruct (MnavService.calculateCurrentMnav r k) as [m|].
  - apply checkAlerts_notifications.
  - now rewrite app_nil_r.
Qed.

Lemma checkCompany_rows r w st g aid :
  Forall (fun a => company_id a = fst g) (snd g) ->
  Forall (fun a => id a <> aid \/ emittedFor r w a = []) (snd g) ->
  rowsOf aid (db (checkCompany r w st g)) = rowsOf aid (db st).
Proof.
  destruct g as [k v]. simpl. intros Hg Hq.
  destruct (MnavService.calculateCurrentMnav r k) as [m|] eqn:Hm;
    [|reflexivity].
  apply checkAlerts_rows.
  rewrite Forall_forall in *. intros a Ha.
  destruct (Hq a Ha) as [Hne|He]; [now left|right].
  unfold emittedFor in He. now rewrite (Hg a Ha), Hm in He.
Qed.

Lemma checkCompany_keys r w st g :
  map keyOf (mnav_threshold_alerts (db (checkCompany r w st g)))
  = map keyOf (mnav_threshold_alerts (db st)).
Proof.
  destruct g as [k v]. simpl.
  destruct (MnavService.calculateCurrentMnav r k); [|reflexivity].
  apply checkAlerts_keys.
Qed.

(** *** All companies *)

Lemma checkCompanies_notifications r w groups : forall st,
  wellGrouped groups ->
  mnav_notifications (db (fold_left (checkCompany r w) groups st))
  = mnav_notifications (db st)
    ++ flat_map (emittedFor r w) (List.concat (map snd groups)).
Proof.
  induction groups as [|g groups IH]; intros st Hg; simpl.
  - now rewrite app_nil_r.
  - inversion Hg as [|? ? Hg1 Hg2]; subst.
    rewrite IH by assumption.
    rewrite checkCompany_notifications by assumption.
    now rewrite flat_map_app, app_assoc.
Qed.

Lemma checkCompanies_rows r w aid groups : forall st,
  wellGrouped groups ->
  Forall (fun a => id a <> aid \/ emittedFor r w a = [])
         (List.concat (map snd groups)) ->
  rowsOf aid (db (fold_left (checkCompany r w) groups st))
  = rowsOf aid (db st).
Proof.
  induction groups as [|g groups IH]; intros st Hg Hq; simpl;
    [reflexivity|].
  inversion Hg as [|? ? Hg1 Hg2]; subst.
  simpl in Hq. apply Forall_app in Hq. destruct Hq as [Hq1 Hq2].
  rewrite IH by assumption. now apply checkCompany_rows.
Qed.

Lemma checkCompanies_keys r w groups : forall st,
  map keyOf
      (mnav_threshold_alerts (db (fold_left (checkCompany r w) groups st)))
  = map keyOf (mnav_threshold_alerts (db st)).
Proof.
  induction groups as [|g groups IH]; intros st; simpl; [reflexivity|].
  now rewrite IH, checkCompany_keys.
Qed.

(** *** One invocation *)

(** The notifications table after an invocation: the rows it held,
    followed by what each alert of the snapshot emitted, the alerts
    taken company by company. *)
Lemma run_notifications r w db0 :
  exists visited,
    Permutation visited (active_mnav_alerts db0) /\
    mnav_notifications (fst (checkMnavThresholds r w db0))
    = mnav_notifications db0 ++ flat_map (emittedFor r w) visited.
Proof.
  unfold checkMnavThresholds.
  destruct (active_mnav_alerts db0) as [|a l] eqn:Ha.
  - exists []. split; [reflexivity|]. simpl. now rewrite app_nil_r.
  - exists (List.concat
              (map snd (objectEntries (alertsByCompany (a :: l))))).
    split; [apply entries_members|].
    cbn [fst]. rewrite checkCompanies_notifications
      by apply entries_wellGrouped.
    reflexivity.
Qed.

Lemma run_rows r w db0 aid :
  (forall a, In a (active_mnav_alerts db0) -> id a = aid ->
             emittedFor r w a = []) ->
  rowsOf aid (fst (checkMnavThresholds r w db0)) = rowsOf aid db0.
Proof.
  intros Hq. unfold checkMnavThresholds.
  destruct (active_mnav_alerts db0) as [|a l] eqn:Ha; [reflexivity|].
  cbn [fst]. rewrite checkCompanies_rows; [reflexivity | |].
  - apply entries_wellGrouped.
  - rewrite Forall_forall. intros x Hx.
    apply (Permutation_in _ (entries_members (a :: l))) in Hx.
    destruct (String.eqb_spec (id x) aid) as [E|E]; [right|now left].
    now apply Hq.
Qed.

Lemma run_keys r w db0 :
  map keyOf (mnav_threshold_alerts (fst (checkMnavThresholds r w db0)))
  = map keyOf (mnav_threshold_alerts db0).
Proof.
  unfold checkMnavThresholds.
  destruct (active_mnav_alerts db0) as [|a l]; [reflexivity|].
  cbn [fst]. now rewrite checkCompanies_keys.
Qed.

(** *** The notifications of one rule *)

Lemma emittedFor_alert_id r w a n :
  In n (emittedFor r w a) -> alert_id n = id a.
Proof.
  unfold emittedFor, emitted.
  destruct (MnavService.calculateCurrentMnav r (company_id a)); [|easy].
  destruct (_ && _); [|easy].
  destruct (insertResult w a); [|easy].
  intros [<-|[]]. reflexivity.
Qed.

Lemma filter_flat_map {A B} (p : B -> bool) (f : A -> list B) l :
  filter p (flat_map f l) = flat_map (fun x => filter p (f x)) l.
Proof.
  induction l as [|x l IH]; simpl; [reflexivity|].
  now rewrite filter_app, IH.
Qed.

Lemma flat_map_nil {A B} (f : A -> list B) l :
  (forall x, In x l -> f x = []) -> flat_map f l = [].
Proof.
  induction l as [|x l IH]; intros H; simpl; [reflexivity|].
  rewrite (H x) by now left. apply IH. intros y Hy. apply H. now right.
Qed.

Lemma emittedFor_other r w a aid :
  id a <> aid ->
  filter (fun n => String.eqb (alert_id n) aid) (emittedFor r w a) = [].
Proof.
  intros Hne.
  assert (H : forall l, (forall n, In n l -> alert_id n = id a) ->
              filter (fun n => String.eqb (alert_id n) aid) l = []).
  { induction l as [|n l IH]; intros Hl; simpl; [reflexivity|].
    rewrite (Hl n) by now left.
    destruct (String.eqb_spec (id a) aid); [contradiction|].
    apply IH. intros n' Hn'. apply Hl. now right. }
  apply H. intros n. apply emittedFor_alert_id.
Qed.

Lemma notificationsOf_run r w db0 aid :
  exists visited,
    Permutation visited (active_mnav_alerts db0) /\
    notificationsOf aid (fst (checkMnavThresholds r w db0))
    = notificationsOf aid db0
      ++ flat_map (fun a => filter (fun n => String.eqb (alert_id n) aid)
                                   (emittedFor r w a)) visited.
Proof.
  destruct (run_notifications r w db0) as [visited [Hp Hn]].
  exists visited. split; [exact Hp|].
  unfold notificationsOf. now rewrite Hn, filter_app, filter_flat_map.
Qed.

(** An invocation in which the alerts of a rule emit nothing leaves the
    notifications of the rule as they were. *)
Lemma run_quiet r w db0 aid :
  (forall a, In a (active_mnav_alerts db0) -> id a = aid ->
             emittedFor r w a = []) ->
  notificationsOf aid (fst (checkMnavThresholds r w db0))
  = notificationsOf aid db0.
Proof.
  intros Hq. destruct (notificationsOf_run r w db0 aid) as [v [Hp ->]].
  rewrite flat_map_nil; [now rewrite app_nil_r|].
  intros x Hx. apply (Permutation_in _ Hp) in Hx.
  destruct (String.eqb_spec (id x) aid) as [E|E].
  - now rewrite (Hq x Hx E).
  - now apply emittedFor_other.
Qed.

Lemma NoDup_map_In_eq {A B} (f : A -> B) l x y :
  NoDup (map f l) -> In x l -> In y l -> f x = f y -> x = y.
Proof.
  induction l as [|z l IH]; simpl; intros Hnd Hx Hy E; [contradiction|].
  inversion Hnd as [|? ? Hz Hnd']; subst.
  destruct Hx as [->|Hx], Hy as [->|Hy]; auto.
  - exfalso. apply Hz. rewrite E. now apply in_map.
  - exfalso. apply Hz. rewrite <- E. now apply in_map.
Qed.

(** An invocation in which the one alert of a rule emits a
    notification adds exactly that notification for the rule. *)
Lemma run_once r w db0 a n :
  In a (active_mnav_alerts db0) ->
  NoDup (map id (active_mnav_alerts db0)) ->
  emittedFor r w a = [n] ->
  notificationsOf (id a) (fst (checkMnavThresholds r w db0))
  = notificationsOf (id a) db0 ++ [n].
Proof.
  intros Hin Hnd He.
  destruct (notificationsOf_run r w db0 (id a)) as [v [Hp ->]].
  f_equal.
  set (h := fun x => filter (fun n => String.eqb (alert_id n) (id a))
                            (emittedFor r w x)).
  assert (Hh : flat_map h (active_mnav_alerts db0) = [n]).
  { destruct (in_split _ _ Hin) as [l1 [l2 Hs]].
    assert (Hother : forall x, In x (l1 ++ l2) -> h x = []).
    { intros x Hx. apply emittedFor_other. intros E.
      rewrite Hs, map_app in Hnd. simpl in Hnd.
      apply NoDup_remove_2 in Hnd. apply Hnd.
      rewrite <- E, <- map_app. now apply in_map. }
    rewrite Hs, flat_map_app. simpl.
    rewrite !flat_map_nil.
    - unfold h. rewrite He. simpl.
      rewrite (emittedFor_alert_id r w a n) by (rewrite He; now left).
      now rewrite String.eqb_refl.
    - intros x Hx. apply Hother, in_or_app. now right.
    - intros x Hx. apply Hother, in_or_app. now left. }
  apply Permutation_length_1_inv. rewrite <- Hh.
  symmetry. now apply Permutation_flat_map.
Qed.

Lemma active_ids rows :
  map id (filter is_active rows)
  = map fst (filter snd (map keyOf rows)).
Proof.
  induction rows as [|x rows IH]; simpl; [reflexivity|].
  destruct (is_active x); simpl; now rewrite IH.
Qed.

(** An invocation that leaves the rows of a rule alone keeps the rule in
    the next snapshot, and keeps the identifiers of the snapshot. *)
Lemma next_snapshot r w db0 a :
  In a (active_mnav_alerts db0) ->
  rowsOf (id a) (fst (checkMnavThresholds r w db0)) = rowsOf (id a) db0 ->
  In a (active_mnav_alerts (fst (checkMnavThresholds r w db0))) /\
  map id (active_mnav_alerts (fst (checkMnavThresholds r w db0)))
  = map id (active_mnav_alerts db0).
Proof.
  intros Hin Hrows. split.
  - unfold active_mnav_alerts in *. apply filter_In in Hin.
    destruct Hin as [Hin Hact]. apply filter_In. split; [|exact Hact].
    assert (Hr : In a (rowsOf (id a) db0)).
    { apply filter_In. split; [exact Hin|apply String.eqb_refl]. }
    rewrite <- Hrows in Hr. now apply filter_In in Hr.
  - unfold active_mnav_alerts. now rewrite !active_ids, run_keys.
Qed.

(** *** Conditions *)

Lemma service_condition nowMs a m :
  MnavMonitorService.shouldTriggerAlert nowMs a m
  = match last_triggered_at a with
    | Some lastTriggered =>
        negb (nowMs <? lastTriggered + hours 6)
    | None => true
    end
    && checkAlertCondition m (threshold_value a) (alert_type a).
Proof.
  unfold MnavMonitorService.shouldTriggerAlert, checkAlertCondition,
    MnavMonitorService.COOLDOWN_HOURS, hours.
  assert (Hty :
    (if String.eqb (alert_type a) "below"
     then lt m (threshold_value a)
     else if String.eqb (alert_type a) "above"
          then gt m (threshold_value a) else false)
    = (if String.eqb (alert_type a) "above"
       then gt m (threshold_value a)
       else if String.eqb (alert_type a) "below"
            then lt m (threshold_value a) else false)).
  { destruct (String.eqb_spec (alert_type a) "below") as [E|E];
      [rewrite E; reflexivity|].
    reflexivity. }
  rewrite Hty.
  destruct (last_triggered_at a) as [t|]; [|reflexivity].
  now destruct (nowMs <? t + 6 * 60 * 60 * 1000).
Qed.

Lemma condition_fails_on_equal m threshold ty :
  strictEq m threshold = true ->
  checkAlertCondition m threshold ty = false.
Proof.
  intros H. destruct (strictEq_not_lt _ _ H) as [Hlt Hgt].
  unfold checkAlertCondition. rewrite Hlt, Hgt.
  now destruct (String.eqb ty "above"), (String.eqb ty "below").
Qed.

(** *** The claims on the monitor *)

(** C5.  The route tests [currentMnav > threshold] for "above" and
    [currentMnav < threshold] for "below", and so does the service; an
    mNAV that is [===] to the threshold satisfies neither, whatever the
    direction: [checkAlertCondition] and [shouldTriggerAlert] answer
    [false], and an invocation of the route in which the mNAV of a
    rule's company equals its threshold creates no notification for the
    rule and leaves its stored rows as they were. *)
Theorem threshold_boundary :
  (forall m threshold,
      checkAlertCondition m threshold "above" = gt m threshold /\
      checkAlertCondition m threshold "below" = lt m threshold) /\
  (forall m threshold ty,
      strictEq m threshold = true ->
      checkAlertCondition m threshold ty = false) /\
  (forall t a m,
      strictEq m (threshold_value a) = true ->
      MnavMonitorService.shouldTriggerAlert t a m = false) /\
  (forall r w db0 aid,
      (forall a m, In a (active_mnav_alerts db0) -> id a = aid ->
                   MnavService.calculateCurrentMnav r (company_id a) = Some m ->
                   strictEq m (threshold_value a) = true) ->
      notificationsOf aid (fst (checkMnavThresholds r w db0))
      = notificationsOf aid db0 /\
      rowsOf aid (fst (checkMnavThresholds r w db0)) = rowsOf aid db0).
Proof.
  split; [|split; [|split]].
  - intros m threshold. split; reflexivity.
  - intros m threshold ty. apply condition_fails_on_equal.
  - intros t a m H. rewrite service_condition.
    rewrite (condition_fails_on_equal _ _ _ H). apply andb_false_r.
  - intros r w db0 aid H.
    assert (Hq : forall a, In a (active_mnav_alerts db0) -> id a = aid ->
                           emittedFor r w a = []).
    { intros a Hin E. unfold emittedFor, emitted.
      destruct (MnavService.calculateCurrentMnav r (company_id a))
        as [m|] eqn:Hm; [|reflexivity].
      now rewrite (condition_fails_on_equal _ _ _ (H a m Hin E Hm)). }
    split; [now apply run_quiet | now apply run_rows].
Qed.

Lemma threshold_boundary_witness :
  strictEq (ofZ 1) (ofZ 1) = true /\
  checkAlertCondition (ofZ 1) (ofZ 1) "above" = false /\
  checkAlertCondition (ofZ 1) (ofZ 1) "below" = false /\
  MnavMonitorService.shouldTriggerAlert
    Fixtures.t0 (Fixtures.rule "a3" "bmnr" "above" (ofZ 1) None) (ofZ 1)
  = false.
Proof.
  assert (H : strictEq (ofZ 1) (ofZ 1) = true) by reflexivity.
  split; [exact H|].
  split; [exact (proj1 (proj2 threshold_boundary) _ _ "above"%string H)|].
  split; [exact (proj1 (proj2 threshold_boundary) _ _ "below"%string H)|].
  exact (proj1 (proj2 (proj2 threshold_boundary)) Fixtures.t0
               (Fixtures.rule "a3" "bmnr" "above" (ofZ 1) None) (ofZ 1) H).
Defined.

(** C7.  In an invocation of the route in which the insert fails for
    the alerts of a rule, the stored rows of the rule, [last_triggered_at]
    included, and its notifications are what they were.  In the route and
    in the service alike the trigger path stops at a failed insert with
    the store untouched, and it changes the alerts table only when the
    notification has been inserted. *)
Theorem no_update_without_notification :
  (forall r w db0 aid,
      (forall a, In a (active_mnav_alerts db0) -> id a = aid ->
                 insertResult w a = None) ->
      rowsOf aid (fst (checkMnavThresholds r w db0)) = rowsOf aid db0 /\
      notificationsOf aid (fst (checkMnavThresholds r w db0))
      = notificationsOf aid db0) /\
  (forall w t m st a,
      insertResult w a = None -> checkAlert w t m st a = st) /\
  (forall w t a m db0,
      insertResult w a = None ->
      MnavMonitorService.recordTriggeredAlert w t a m db0 = (db0, None)) /\
  (forall w t a m db0,
      mnav_threshold_alerts
        (fst (MnavMonitorService.recordTriggeredAlert w t a m db0))
      <> mnav_threshold_alerts db0 ->
      exists nid,
        insertResult w a = Some nid /\
        In (notificationFor nid a m)
           (mnav_notifications
              (fst (MnavMonitorService.recordTriggeredAlert w t a m db0)))).
Proof.
  split; [|split; [|split]].
  - intros r w db0 aid H.
    assert (Hq : forall a, In a (active_mnav_alerts db0) -> id a = aid ->
                           emittedFor r w a = []).
    { intros a Hin E. unfold emittedFor, emitted. rewrite (H a Hin E).
      destruct (MnavService.calculateCurrentMnav r (company_id a));
        [|reflexivity].
      now destruct (_ && _). }
    split; [now apply run_rows | now apply run_quiet].
  - intros w t m st a H. apply checkAlert_quiet.
    unfold emitted. rewrite H. now destruct (_ && _).
  - intros w t a m db0 H.
    unfold MnavMonitorService.recordTriggeredAlert, insertThenUpdate.
    now rewrite H.
  - intros w t a m db0.
    unfold MnavMonitorService.recordTriggeredAlert, insertThenUpdate.
    destruct (insertResult w a) as [nid|]; [|now intros []].
    intros _. exists nid. split; [reflexivity|].
    cbn [fst mnav_notifications]. apply in_or_app. right. now left.
Qed.

Lemma no_update_without_notification_witness :
  insertResult Fixtures.failingWrites Fixtures.firedRule = None /\
  MnavMonitorService.recordTriggeredAlert
    Fixtures.failingWrites (Fixtures.t0 + hours 7) Fixtures.firedRule
    (ofZ 1) Fixtures.alertsDb
  = (Fixtures.alertsDb, None) /\
  rowsOf "a1" (Fixtures.dbAfterSevenHours Fixtures.failingWrites)
  = [Fixtures.firedRule].
Proof.
  assert (H : insertResult Fixtures.failingWrites Fixtures.firedRule = None)
    by reflexivity.
  split; [exact H|]. split.
  - exact (proj1 (proj2 (proj2 no_update_without_notification))
                 Fixtures.failingWrites (Fixtures.t0 + hours 7)
                 Fixtures.firedRule (ofZ 1) Fixtures.alertsDb H).
  - unfold Fixtures.dbAfterSevenHours.
    rewrite (proj1 (proj1 no_update_without_notification _
                      Fixtures.failingWrites _ "a1"%string
                      (fun _ _ _ => eq_refl))).
    unfold Fixtures.dbAfterOneHour.
    rewrite (proj1 (proj1 no_update_without_notification _
                      Fixtures.failingWrites _ "a1"%string
                      (fun _ _ _ => eq_refl))).
    reflexivity.
Defined.
End MonitorFacts.

(** ** More on the series filler *)

Section FillerMore.
Import JsNum MnavService Spec FillerSpec.

Lemma fillDay_detail nm sp last rows d :
  let last' := if truthyOpt (closeOn sp d) then closeOn sp d else last in
  (truthyOpt last' && hasAnyMetricData nm d && hasCompanyId nm d = false ->
   fillDay nm sp (last, rows) d = (last', rows)) /\
  (truthyOpt last' && hasAnyMetricData nm d && hasCompanyId nm d = true ->
   exists row price,
     fillDay nm sp (last, rows) d = (last', rows ++ [row]) /\
     last' = Some price /\ truthy price = true /\
     rowDate row = d /\ resolvedRow nm row /\ builtFrom rows price row).
Proof.
  cbv zeta.
  unfold fillDay, closeOn, hasAnyMetricData, hasCompanyId.
  destruct (if truthyOpt _ then _ else last) as [price|];
    [|split; [reflexivity|discriminate]].
  cbn [truthyOpt].
  destruct (truthy price) eqn:Hp; simpl negb; cbv iota;
    [|split; [reflexivity|discriminate]].
  destruct (existsb _ nm); simpl negb; cbv iota;
    [|split; [reflexivity|discriminate]].
  cbn [andb].
  destruct (find (fun metric => date metric =? d) nm) as [m|];
    destruct nm as [|m0 nm'].
  all: try destruct (strTruthy (company_id m)) eqn:E1;
       try destruct (strTruthy (company_id m0)) eqn:E2;
       cbn [orb]; try rewrite E1; try rewrite E2; simpl negb; cbv iota;
       (split; [try reflexivity; discriminate|]);
       try discriminate; intros _;
       eexists; exists price;
       (split; [reflexivity|]); (split; [reflexivity|]);
       (split; [exact Hp|]); (split; [reflexivity|]);
       split; repeat split.
Qed.

(** Induction along the loop: [P] holds of the days gone through and of
    the state reached. *)
Lemma fill_ind nm sp ds (P : list Z -> FillState -> Prop) :
  P [] (None, []) ->
  (forall done d rest st,
      ds = done ++ d :: rest -> P done st ->
      P (done ++ [d]) (fillDay nm sp st d)) ->
  P ds (fold_left (fillDay nm sp) ds (None, [])).
Proof.
  intros H0 Hstep.
  assert (H : forall rest done st,
             ds = done ++ rest -> P done st ->
             P ds (fold_left (fillDay nm sp) rest st)).
  { induction rest as [|d rest IH]; intros done st Hds HP.
    - rewrite app_nil_r in Hds. subst done. exact HP.
    - cbn [fold_left]. apply (IH (done ++ [d])).
      + now rewrite <- app_assoc.
      + now apply (Hstep done d rest). }
  now apply (H ds []).
Qed.

Lemma app_snoc_split {A} (l pre post : list A) x y :
  l ++ [x] = pre ++ y :: post ->
  (post = [] /\ pre = l /\ y = x) \/
  (exists post', post = post' ++ [x] /\ l = pre ++ y :: post').
Proof.
  intros E. destruct (exists_last (l := y :: post)) as [body [z Hz]];
    [discriminate|].
  rewrite Hz, app_assoc in E. apply app_inj_tail in E. destruct E as [E1 E2].
  subst z. destruct post as [|p post].
  - left. destruct body as [|b body]; simpl in Hz.
    + injection Hz as ->. rewrite app_nil_r in E1. auto.
    + injection Hz as _ Hz. destruct body; discriminate.
  - right. destruct (exists_last (l := p :: post)) as [post' [z Hz']];
      [discriminate|].
    rewrite Hz' in Hz. change (y :: post' ++ [z]) with ((y :: post') ++ [z]) in Hz.
    apply app_inj_tail in Hz. destruct Hz as [Hb Hzx]. subst.
    exists post'. split; [exact Hz'|]. reflexivity.
Qed.

(** Where a row of the output comes from: its day is a day of the loop
    that reached the [push], and the row was built from the price known
    that day and from the rows that precede it in the output. *)
Lemma postFill_row_context metrics sp start t pre row post :
  postFillMetrics metrics sp start t = pre ++ row :: post ->
  exists earlier later price,
    fillDates start t = earlier ++ rowDate row :: later /\
    reachesPush (map withNormalizedDate metrics) sp earlier (rowDate row)
    = true /\
    lastKnownAfter sp (earlier ++ [rowDate row]) = Some price /\
    truthy price = true /\
    builtFrom pre price row.
Proof.
  unfold postFillMetrics.
  set (nm := map withNormalizedDate metrics).
  set (ds := fillDates start t).
  revert pre row post.
  apply (fill_ind nm sp ds
           (fun done st =>
              fst st = lastKnownAfter sp done /\
              (exists rest, ds = done ++ rest) /\
              forall pre row post,
                snd st = pre ++ row :: post ->
                exists earlier later price,
                  ds = earlier ++ rowDate row :: later /\
                  reachesPush nm sp earlier (rowDate row) = true /\
                  lastKnownAfter sp (earlier ++ [rowDate row]) = Some price /\
                  truthy price = true /\
                  builtFrom pre price row)).
  - split; [reflexivity|]. split; [now exists ds|].
    intros pre row post E. destruct pre; discriminate.
  - intros done d rest [last rows] Hds [Hlast [_ Hrows]].
    cbn [fst snd] in Hlast, Hrows.
    assert (Hnext : lastKnownAfter sp (done ++ [d])
                    = if truthyOpt (closeOn sp d) then closeOn sp d else last).
    { unfold lastKnownAfter. rewrite fold_left_app. cbn [fold_left].
      fold (lastKnownAfter sp done). now rewrite <- Hlast. }
    destruct (fillDay_detail nm sp last rows d) as [Hno Hyes].
    destruct (truthyOpt (if truthyOpt (closeOn sp d) then closeOn sp d else last)
              && hasAnyMetricData nm d && hasCompanyId nm d) eqn:Hc.
    + destruct (Hyes eq_refl) as (r & price & E & Hprice & Htr & Hd & _ & Hb).
      rewrite E. cbn [fst snd].
      split; [now rewrite Hnext|].
      split; [exists rest; now rewrite <- app_assoc|].
      intros pre row post Hsplit.
      apply app_snoc_split in Hsplit.
      destruct Hsplit as [(-> & -> & ->)|(post' & -> & Hrows')].
      * exists done, rest, price. rewrite Hd.
        split; [exact Hds|].
        split; [unfold reachesPush; now rewrite Hnext|].
        split; [now rewrite Hnext|]. split; assumption.
      * now apply (Hrows pre row post').
    + rewrite (Hno eq_refl). cbn [fst snd].
      split; [now rewrite Hnext|].
      split; [exists rest; now rewrite <- app_assoc|].
      exact Hrows.
Qed.

(** *** The days of the loop *)

Lemma StronglySorted_map_seq (f : nat -> Z) :
  (forall i j, (i < j)%nat -> f i < f j) ->
  forall n s, StronglySorted Z.lt (map f (seq s n)).
Proof.
  intros Hf. induction n as [|n IH]; intros s; simpl; constructor.
  - apply IH.
  - rewrite Forall_forall. intros x Hx. apply in_map_iff in Hx.
    destruct Hx as [j [<- Hj]]. apply in_seq in Hj. apply Hf. lia.
Qed.

Lemma StronglySorted_filter {A} (R : A -> A -> Prop) (p : A -> bool) l :
  StronglySorted R l -> StronglySorted R (filter p l).
Proof.
  induction 1 as [|x l Hl IH Hx]; simpl; [constructor|].
  destruct (p x); [|exact IH].
  constructor; [exact IH|].
  rewrite Forall_forall in *. intros y Hy. apply filter_In in Hy.
  now apply Hx.
Qed.

Lemma fillDates_sorted start t : StronglySorted Z.lt (fillDates start t).
Proof.
  unfold fillDates. apply StronglySorted_filter, StronglySorted_map_seq.
  intros i j Hij. unfold addDays, msPerDay. lia.
Qed.

Lemma ceil_bounds x : 
  x <= - ((- x) / msPerDay) * msPerDay < x + msPerDay.
Proof.
  unfold msPerDay.
  pose proof (Z.div_mod (- x) (1000 * 3600 * 24) ltac:(lia)) as Hdm.
  pose proof (Z.mod_pos_bound (- x) (1000 * 3600 * 24) ltac:(lia)) as Hb.
  lia.
Qed.

Lemma fillDates_bounds start t d :
  In d (fillDates start t) ->
  start <= d /\ d < t + msPerDay /\ normalizeDate d = d.
Proof.
  unfold fillDates. intros Hd. apply filter_In in Hd. destruct Hd as [Hd Hs].
  apply in_map_iff in Hd. destruct Hd as [i [<- Hi]]. apply in_seq in Hi.
  split; [now apply Z.leb_le in Hs|].
  unfold differenceInDays in Hi. cbv zeta in Hi.
  pose proof (ceil_bounds (t - normalizeDate start)) as Hc.
  assert (Hn : exists k, normalizeDate start = k * msPerDay)
    by (now exists (start / msPerDay)).
  destruct Hn as [k Hk].
  split.
  - unfold addDays.
    assert (Z.of_nat i <= - (- (t - normalizeDate start) / msPerDay)) by lia.
    unfold msPerDay in *. nia.
  - unfold addDays. rewrite Hk.
    replace (k * msPerDay + Z.of_nat i * msPerDay)
      with ((k + Z.of_nat i) * msPerDay) by ring.
    unfold normalizeDate. now rewrite Z.div_mul by (unfold msPerDay; lia).
Qed.

(** Called at or after the start date, the loop ends on the first
    midnight that is not before the call. *)
Lemma fillDates_last start t :
  start <= t ->
  exists body d, fillDates start t = body ++ [d] /\ t <= d < t + msPerDay.
Proof.
  intros Hst. unfold fillDates.
  set (ns := normalizeDate start).
  assert (Hns : ns <= start).
  { unfold ns, normalizeDate, msPerDay.
    pose proof (Z.div_mod start (1000 * 3600 * 24) ltac:(lia)).
    pose proof (Z.mod_pos_bound start (1000 * 3600 * 24) ltac:(lia)). lia. }
  pose proof (ceil_bounds (t - ns)) as Hc.
  set (c := differenceInDays t ns).
  assert (Hcdef : c = - (- (t - ns) / msPerDay)) by reflexivity.
  assert (Hc0 : 0 <= c) by (unfold msPerDay in *; nia).
  replace (Z.to_nat (c + 1)) with (S (Z.to_nat c)) by lia.
  rewrite seq_S, map_app, filter_app. cbn [map filter Nat.add].
  rewrite Z2Nat.id by exact Hc0.
  assert (Hlast : t <= addDays ns c < t + msPerDay).
  { unfold addDays. rewrite Hcdef. lia. }
  destruct (Z.leb_spec start (addDays ns c)); [|lia].
  eexists. exists (addDays ns c). split; [reflexivity|exact Hlast].
Qed.

Lemma sorted_before {A} (R : A -> A -> Prop) l1 d l2 :
  StronglySorted R (l1 ++ d :: l2) -> Forall (fun x => R x d) l1.
Proof.
  induction l1 as [|x l1 IH]; simpl; intros H; [constructor|].
  inversion H as [|? ? Hl Hx]; subst. constructor; [|now apply IH].
  rewrite Forall_forall in Hx. apply Hx, in_or_app. right. now left.
Qed.

Lemma sorted_snoc {A} (R : A -> A -> Prop) l x :
  StronglySorted R l -> Forall (fun y => R y x) l ->
  StronglySorted R (l ++ [x]).
Proof.
  induction 1 as [|y l Hl IH Hy]; intros Hx; simpl.
  - repeat constructor.
  - inversion Hx; subst. constructor; [now apply IH|].
    apply Forall_app. split; [exact Hy|]. now repeat constructor.
Qed.

(** The rows come out in ascending order of their dates, one per day at
    most, and each date is a day of the loop. *)
Lemma postFill_sorted metrics sp start t :
  StronglySorted Z.lt (map rowDate (postFillMetrics metrics sp start t)) /\
  Forall (fun r => In (rowDate r) (fillDates start t))
         (postFillMetrics metrics sp start t).
Proof.
  unfold postFillMetrics.
  set (nm := map withNormalizedDate metrics).
  set (ds := fillDates start t).
  pose (P := fun (done : list Z) (st : FillState) =>
                 StronglySorted Z.lt (map rowDate (snd st)) /\
                 Forall (fun r => In (rowDate r) done) (snd st) /\
                 exists rest, ds = done ++ rest).
  assert (H : P ds (fold_left (fillDay nm sp) ds (None, []))).
  { apply (fill_ind nm sp ds P); unfold P.
    - split; [constructor|]. split; [constructor|]. now exists ds.
    - intros done d rest st Hds (Hs & Hin & _).
      split; [|split; [|exists rest; now rewrite <- app_assoc]].
      + destruct (fillDay_rows nm sp st d) as [E|[row [E [Hd _]]]]; rewrite E;
          [exact Hs|].
        rewrite map_app. cbn [map]. apply sorted_snoc; [exact Hs|].
        rewrite Forall_map, Hd.
        pose proof (fillDates_sorted start t) as Hsorted. fold ds in Hsorted.
        rewrite Hds in Hsorted. apply sorted_before in Hsorted.
        rewrite Forall_forall in *. intros r Hr. now apply Hsorted, Hin.
      + destruct (fillDay_rows nm sp st d) as [E|[row [E [Hd _]]]]; rewrite E.
        * eapply Forall_impl; [|exact Hin]. intros r Hr.
          apply in_or_app. now left.
        * apply Forall_app. split.
          -- eapply Forall_impl; [|exact Hin]. intros r Hr.
             apply in_or_app. now left.
          -- repeat constructor. rewrite Hd. apply in_or_app. right. now left. }
  destruct H as (Hs & Hin & _). now split.
Qed.

(** *** Once started, no gaps *)

Lemma hasAnyMetricData_mono nm d d' :
  d <= d' -> hasAnyMetricData nm d = true -> hasAnyMetricData nm d' = true.
Proof.
  unfold hasAnyMetricData. intros Hd H. apply existsb_exists in H.
  destruct H as [m [Hm Hc]]. apply existsb_exists. exists m.
  split; [exact Hm|]. apply andb_prop in Hc. destruct Hc as [Hc1 Hc2].
  rewrite Hc2, andb_true_r. apply Z.leb_le. apply Z.leb_le in Hc1. lia.
Qed.

Lemma hasCompanyId_of_first metrics d :
  firstHasCompany metrics ->
  hasAnyMetricData (map withNormalizedDate metrics) d = true ->
  hasCompanyId (map withNormalizedDate metrics) d = true.
Proof.
  unfold firstHasCompany, hasCompanyId, hasAnyMetricData.
  destruct metrics as [|m0 ms]; [discriminate|].
  cbn [map]. intros H0 _.
  change (company_id (withNormalizedDate m0)) with (company_id m0).
  rewrite H0.
  destruct (find _ _); [apply orb_true_r|reflexivity].
Qed.

Lemma postFill_suffix metrics sp start t :
  firstHasCompany metrics ->
  exists skipped,
    fillDates start t
    = skipped ++ map rowDate (postFillMetrics metrics sp start t).
Proof.
  intros Hfirst. unfold postFillMetrics.
  set (nm := map withNormalizedDate metrics).
  set (ds := fillDates start t).
  pose (P := fun (done : list Z) (st : FillState) =>
     (exists skipped, done = skipped ++ map rowDate (snd st)) /\
     (snd st <> [] ->
      truthyOpt (fst st) = true /\
      exists d0, In d0 done /\ hasAnyMetricData nm d0 = true)).
  assert (H : P ds (fold_left (fillDay nm sp) ds (None, []))).
  { apply (fill_ind nm sp ds P); unfold P.
    - split; [now exists []|]. now intros [].
    - intros done d rest [last rows] Hds [[skipped Hsk] Hstarted].
      cbn [fst snd] in *.
      pose proof (fillDates_sorted start t) as Hsorted. fold ds in Hsorted.
      rewrite Hds in Hsorted. apply sorted_before in Hsorted.
      rewrite Forall_forall in Hsorted.
      destruct (fillDay_detail nm sp last rows d) as [Hno Hyes].
      destruct (truthyOpt (if truthyOpt (closeOn sp d)
                           then closeOn sp d else last)
                && hasAnyMetricData nm d && hasCompanyId nm d) eqn:Hc.
      + destruct (Hyes eq_refl) as (r & price & E & Hprice & Htr & Hd & _).
        rewrite E. cbn [fst snd]. split.
        * exists skipped. rewrite map_app, Hsk, <- app_assoc.
          cbn [map]. now rewrite Hd.
        * intros _. rewrite Hprice. split; [exact Htr|].
          exists d. split; [apply in_or_app; right; now left|].
          apply andb_prop in Hc. destruct Hc as [Hc _].
          apply andb_prop in Hc. now destruct Hc.
      + rewrite (Hno eq_refl). cbn [fst snd].
        destruct rows as [|r0 rows'].
        * split; [|now intros []]. exists (done ++ [d]).
          now rewrite app_nil_r.
        * exfalso. destruct (Hstarted ltac:(discriminate))
            as [Hlast [d0 [Hd0 Hany]]].
          assert (Hany' : hasAnyMetricData nm d = true).
          { apply (hasAnyMetricData_mono nm d0 d); [|exact Hany].
            specialize (Hsorted d0 Hd0). lia. }
          pose proof (hasCompanyId_of_first metrics d Hfirst Hany') as Hcid.
          fold nm in Hcid. rewrite Hany', Hcid, !andb_true_r in Hc.
          destruct (truthyOpt (closeOn sp d)) eqn:Hcl; congruence. }
  destruct H as [H _]. exact H.
Qed.

(** *** Nothing without a price or a disclosure *)

Lemma closeOn_noClose sp d : noClose sp -> truthyOpt (closeOn sp d) = false.
Proof.
  unfold noClose, closeOn. intros H.
  destruct (find _ sp) as [p|] eqn:E; [|reflexivity].
  apply find_some in E. rewrite Forall_forall in H. now apply H.
Qed.

Lemma hasAnyMetricData_noField metrics d :
  noField metrics ->
  hasAnyMetricData (map withNormalizedDate metrics) d = false.
Proof.
  unfold noField, hasAnyMetricData.
  induction 1 as [|m ms (H1 & H2 & H3 & H4 & H5) Hms IH]; [reflexivity|].
  cbn [map existsb]. rewrite IH.
  cbn [withNormalizedDate eth_holdings eth_concentration avg_buy_price
       usd_holdings staking_rewards].
  rewrite H1, H2, H3, H4, H5. cbn [isDefined orb]. now rewrite andb_false_r.
Qed.

Lemma postFill_nothing metrics sp start t :
  noClose sp \/ noField metrics ->
  postFillMetrics metrics sp start t = [].
Proof.
  intros Hnone. unfold postFillMetrics.
  set (nm := map withNormalizedDate metrics).
  set (ds := fillDates start t).
  pose (P := fun (done : list Z) (st : FillState) =>
               snd st = [] /\ (noClose sp -> fst st = None)).
  assert (H : P ds (fold_left (fillDay nm sp) ds (None, []))).
  { apply (fill_ind nm sp ds P); unfold P.
    - now split.
    - intros done d rest [last rows] _ [Hrows Hlast]. cbn [fst snd] in *.
      destruct (fillDay_detail nm sp last rows d) as [Hno _].
      rewrite Hno.
      + cbn [fst snd]. split; [exact Hrows|].
        intros Hnc. now rewrite (closeOn_noClose sp d Hnc), (Hlast Hnc).
      + destruct Hnone as [Hnc|Hnf].
        * now rewrite (closeOn_noClose sp d Hnc), (Hlast Hnc).
        * unfold nm. rewrite (hasAnyMetricData_noField metrics d Hnf).
          now rewrite andb_false_r. }
  now destruct H.
Qed.

(** *** The rows before a row *)

Lemma mostRecent_of_sorted {A} (dateOf : A -> Z) l :
  StronglySorted Z.lt (map dateOf l) ->
  mostRecent dateOf l = hd_error (rev l).
Proof.
  induction l as [|x l IH]; [reflexivity|].
  cbn [map]. intros H. inversion H as [|? ? Hl Hx]; subst.
  cbn [mostRecent rev]. rewrite (IH Hl).
  destruct (rev l) as [|y r] eqn:Hr; [reflexivity|].
  cbn [hd_error app].
  assert (Hy : In y l) by (apply in_rev; rewrite Hr; now left).
  rewrite Forall_forall in Hx.
  specialize (Hx (dateOf y) (in_map dateOf l y Hy)).
  now destruct (Z.ltb_spec (dateOf x) (dateOf y)); [|lia].
Qed.

Lemma find_hd_filter {A} (p : A -> bool) l :
  find p l = hd_error (filter p l).
Proof.
  induction l as [|x l IH]; [reflexivity|]. simpl. now destruct (p x).
Qed.

Lemma sorted_prefix {A} (R : A -> A -> Prop) l1 l2 :
  StronglySorted R (l1 ++ l2) -> StronglySorted R l1.
Proof.
  induction l1 as [|x l1 IH]; simpl; intros H; [constructor|].
  inversion H as [|? ? Hl Hx]; subst. constructor; [now apply IH|].
  apply Forall_app in Hx. now destruct Hx.
Qed.

(** Among rows in ascending order that all precede day [d], the helper
    finds the share count of the last row that has a truthy one. *)
Lemma getLastKnownSharesOutstanding_previous pre d :
  StronglySorted Z.lt (map rowDate pre) ->
  Forall (fun r => rowDate r < d) pre ->
  getLastKnownSharesOutstanding pre d = previousShares pre.
Proof.
  intros Hs Hd. unfold getLastKnownSharesOutstanding, previousShares.
  rewrite (filter_ext_in
             (fun m => (rowDate m <? d) && truthy (sharesOutstanding m))
             (fun m => truthy (sharesOutstanding m))).
  2:{ intros r Hr. rewrite Forall_forall in Hd. specialize (Hd r Hr).
      now destruct (Z.ltb_spec (rowDate r) d); [|lia]. }
  assert (Hsf : StronglySorted Z.lt
                  (map rowDate
                       (filter (fun m => truthy (sharesOutstanding m)) pre))).
  { clear Hd. induction pre as [|x pre IH]; [constructor|].
    cbn [map] in Hs. inversion Hs as [|? ? Hl Hx]; subst.
    cbn [filter]. destruct (truthy (sharesOutstanding x)); [|now apply IH].
    cbn [map]. constructor; [now apply IH|].
    rewrite Forall_forall in *. intros y Hy. apply Hx.
    apply in_map_iff in Hy. destruct Hy as [r [<- Hr]].
    apply filter_In in Hr. apply in_map. now destruct Hr. }
  pose proof (hd_sortDesc rowDate
                (filter (fun m => truthy (sharesOutstanding m)) pre)) as Hhd.
  rewrite (mostRecent_of_sorted _ _ Hsf), <- filter_rev, <- find_hd_filter
    in Hhd.
  destruct (sortDesc rowDate _) as [|m l]; cbn [hd_error] in Hhd;
    now rewrite <- Hhd.
Qed.

Lemma previousShares_truthy pre v :
  previousShares pre = Some v -> truthy v = true.
Proof.
  unfold previousShares.
  destruct (find _ (rev pre)) as [r|] eqn:E; [|discriminate].
  apply find_some in E. intros [= <-]. now destruct E.
Qed.

Lemma getLastKnownSharesBoughtBack_none pre d :
  Forall (fun r => sharesBoughtBack r = Some zero) pre ->
  getLastKnownSharesBoughtBack pre d = None.
Proof.
  intros H. unfold getLastKnownSharesBoughtBack.
  assert (E : filter (fun m => (rowDate m <? d)
                               && truthyOpt (sharesBoughtBack m)) pre = []).
  { induction H as [|r pre Hr Hpre IH]; [reflexivity|].
    cbn [filter]. rewrite Hr, IH. cbn [truthyOpt truthy zero].
    now rewrite andb_false_r. }
  now rewrite E.
Qed.

(** *** The price behind a row *)

(** The price the loop carries is the close found for the latest day so
    far that has a truthy one. *)
Lemma lastKnownAfter_source sp ds price :
  lastKnownAfter sp ds = Some price ->
  exists before d between,
    ds = before ++ d :: between /\
    closeOn sp d = Some price /\ truthy price = true /\
    Forall (fun x => truthyOpt (closeOn sp x) = false) between.
Proof.
  unfold lastKnownAfter.
  induction ds as [|d ds IH] using rev_ind; [discriminate|].
  rewrite fold_left_app. cbn [fold_left].
  destruct (truthyOpt (closeOn sp d)) eqn:Hd.
  - intros E. exists ds, d, []. rewrite E in Hd.
    repeat split; try assumption. constructor.
  - intros E. destruct (IH E) as (before & d' & between & -> & Hc & Ht & Hb).
    exists before, d', (between ++ [d]).
    split; [now rewrite <- app_assoc|].
    repeat split; try assumption.
    apply Forall_app. split; [exact Hb|]. now repeat constructor.
Qed.

(** *** The source of a forward-filled value *)

Lemma mostRecent_latest {A} (dateOf : A -> Z) l e :
  mostRecent dateOf l = Some e ->
  forall x, In x l -> dateOf x <= dateOf e.
Proof.
  revert e. induction l as [|y l IH]; intros e; [discriminate|].
  cbn [mostRecent].
  destruct (mostRecent dateOf l) as [z|] eqn:Hz.
  - destruct (Z.ltb_spec (dateOf y) (dateOf z)); intros [= <-] x [<-|Hx].
    + lia.
    + now apply IH.
    + lia.
    + specialize (IH z eq_refl x Hx). lia.
  - intros [= <-] x [<-|Hx]; [lia|].
    destruct l; [contradiction|]. cbn [mostRecent] in Hz.
    destruct (mostRecent dateOf l); [destruct (_ <? _)|]; discriminate.
Qed.

Lemma mostRecent_some {A} (dateOf : A -> Z) l :
  l <> [] -> mostRecent dateOf l <> None.
Proof.
  destruct l as [|x l]; [congruence|]. intros _. cbn [mostRecent].
  destruct (mostRecent dateOf l); [destruct (_ <? _)|]; discriminate.
Qed.

(** *** Further properties of the filler *)

(** X1.  What a forward-fill helper returns is truthy and is the field
    of a disclosure dated on or before the day, and no disclosure dated
    before the day with a truthy field is more recent than that one; the
    helper returns a value as soon as a disclosure dated before the day
    has a truthy field. *)
Theorem forward_fill_most_recent field ms d :
  (forall v,
      getLastKnown field ms d = Some v ->
      truthy v = true /\
      exists m, In m ms /\ date m <= d /\ field m = Some v /\
                forall m', In m' ms -> date m' < d ->
                           truthyOpt (field m') = true ->
                           date m' <= date m) /\
  ((exists m', In m' ms /\ date m' < d /\ truthyOpt (field m') = true) ->
   getLastKnown field ms d <> None).
Proof.
  unfold getLastKnown. rewrite head_value, hd_sortDesc.
  set (earlier := filter (fun m => (date m <? d) && truthyOpt (field m)) ms).
  assert (Hearlier : forall e, mostRecent date earlier = Some e ->
            In e ms /\ date e < d /\ truthyOpt (field e) = true).
  { intros e He. apply mostRecent_In in He. apply filter_In in He.
    destruct He as [He Hc]. apply andb_prop in Hc. destruct Hc as [Hc1 Hc2].
    apply Z.ltb_lt in Hc1. auto. }
  split.
  - intros v.
    destruct (find (fun metric => date metric =? d) ms) as [m|] eqn:Hf.
    + apply find_some in Hf. destruct Hf as [Hm Hd]. apply Z.eqb_eq in Hd.
      destruct (truthyOpt (field m)) eqn:Ht.
      * intros E. rewrite E in Ht. split; [exact Ht|].
        exists m. split; [exact Hm|]. split; [lia|]. split; [exact E|].
        intros m' _ Hm' _. lia.
      * destruct (mostRecent date earlier) as [e|] eqn:He; [|discriminate].
        cbn [valueOfEntry]. intros E.
        destruct (Hearlier e eq_refl) as (He1 & He2 & He3).
        rewrite E in He3. split; [exact He3|].
        exists e. split; [exact He1|]. split; [lia|]. split; [exact E|].
        intros m' Hm' Hlt Htr. apply (mostRecent_latest date earlier e He).
        apply filter_In. split; [exact Hm'|].
        rewrite Htr, andb_true_r. now apply Z.ltb_lt.
    + cbn [truthyOpt].
      destruct (mostRecent date earlier) as [e|] eqn:He; [|discriminate].
      cbn [valueOfEntry]. intros E.
      destruct (Hearlier e eq_refl) as (He1 & He2 & He3).
      rewrite E in He3. split; [exact He3|].
      exists e. split; [exact He1|]. split; [lia|]. split; [exact E|].
      intros m' Hm' Hlt Htr. apply (mostRecent_latest date earlier e He).
      apply filter_In. split; [exact Hm'|].
      rewrite Htr, andb_true_r. now apply Z.ltb_lt.
  - intros (m' & Hm' & Hlt & Htr).
    assert (Hne : earlier <> []).
    { intros E. assert (Hin : In m' earlier).
      { apply filter_In. split; [exact Hm'|].
        rewrite Htr, andb_true_r. now apply Z.ltb_lt. }
      rewrite E in Hin. contradiction. }
    destruct (mostRecent date earlier) as [e|] eqn:He;
      [|now apply (mostRecent_some date) in Hne].
    destruct (Hearlier e eq_refl) as (_ & _ & He3).
    cbn [valueOfEntry].
    destruct (match find _ ms with Some m => field m | None => None end)
      as [c|]; cbn [truthyOpt].
    + destruct (truthy c); [discriminate|].
      destruct (field e); [discriminate|discriminate].
    + destruct (field e); [discriminate|discriminate].
Qed.

Lemma forward_fill_most_recent_witness :
  getLastKnown (numberOf eth_holdings) (Fixtures.twoDisclosures Fixtures.day1)
               Fixtures.day2 = Some (ofZ 100) /\
  exists m, In m (Fixtures.twoDisclosures Fixtures.day1) /\
            date m <= Fixtures.day2 /\ numberOf eth_holdings m = Some (ofZ 100).
Proof.
  assert (H : getLastKnown (numberOf eth_holdings)
                           (Fixtures.twoDisclosures Fixtures.day1)
                           Fixtures.day2 = Some (ofZ 100))
    by (vm_compute; reflexivity).
  split; [exact H|].
  destruct (proj1 (forward_fill_most_recent
                     (numberOf eth_holdings)
                     (Fixtures.twoDisclosures Fixtures.day1)
                     Fixtures.day2) (ofZ 100) H)
    as (_ & m & Hm & Hd & Hv & _).
  exists m. auto.
Defined.

(** X2.  The rows come out in strictly ascending order of their dates,
    so at most one row per day; every date is a UTC midnight, not before
    the start date, and less than one day after the instant of the
    call. *)
Theorem rows_ascending_one_per_day metrics stockPrices start t :
  StronglySorted Z.lt
    (map rowDate (postFillMetrics metrics stockPrices start t)) /\
  (forall row,
      In row (postFillMetrics metrics stockPrices start t) ->
      start <= rowDate row /\ rowDate row < t + msPerDay /\
      normalizeDate (rowDate row) = rowDate row).
Proof.
  destruct (postFill_sorted metrics stockPrices start t) as [Hs Hin].
  split; [exact Hs|].
  intros row Hrow. rewrite Forall_forall in Hin.
  apply (fillDates_bounds start t). now apply Hin.
Qed.

Lemma rows_ascending_one_per_day_witness :
  In Fixtures.thirdRow MoreFixtures.twoDisclosuresRun /\
  MoreFixtures.runStart <= rowDate Fixtures.thirdRow /\
  rowDate Fixtures.thirdRow < MoreFixtures.runInstant + msPerDay.
Proof.
  assert (Hin : In Fixtures.thirdRow MoreFixtures.twoDisclosuresRun)
    by (vm_compute; do 2 right; left; reflexivity).
  split; [exact Hin|].
  destruct (proj2 (rows_ascending_one_per_day
                     (Fixtures.twoDisclosures Fixtures.day1)
                     [Fixtures.priceOn Fixtures.day1 (ofZ 40)]
                     MoreFixtures.runStart MoreFixtures.runInstant)
                  Fixtures.thirdRow Hin) as (H1 & H2 & _).
  split; assumption.
Defined.

(** X3.  A day has a row in the output exactly when it is a day of the
    loop on which a price, a disclosure and a company are known: a
    truthy close on the day or before, a disclosure dated the day or
    before one of whose five fields is not [undefined] (a [null] read
    from the table counts), and a company id on the day's disclosure
    or the first one. *)
Theorem emitted_days_characterised metrics stockPrices start t d :
  In d (map rowDate (postFillMetrics metrics stockPrices start t)) <->
  exists earlier later,
    fillDates start t = earlier ++ d :: later /\
    reachesPush (map withNormalizedDate metrics) stockPrices earlier d = true.
Proof.
  split.
  - intros Hd. apply in_map_iff in Hd. destruct Hd as [row [<- Hrow]].
    destruct (in_split _ _ Hrow) as [pre [post Hsplit]].
    destruct (postFill_row_context _ _ _ _ _ _ _ Hsplit)
      as (earlier & later & _ & Hds & Hq & _).
    now exists earlier, later.
  - intros (earlier & later & Hds & Hq).
    destruct (postFill_emits _ _ _ _ _ _ _ Hds Hq) as [row [Hrow <-]].
    now apply in_map.
Qed.

Lemma emitted_days_characterised_witness :
  In (rowDate Fixtures.thirdRow) (map rowDate MoreFixtures.twoDisclosuresRun) /\
  exists earlier later,
    fillDates MoreFixtures.runStart MoreFixtures.runInstant
    = earlier ++ rowDate Fixtures.thirdRow :: later.
Proof.
  assert (Hin : In (rowDate Fixtures.thirdRow)
                   (map rowDate MoreFixtures.twoDisclosuresRun))
    by (vm_compute; do 2 right; left; reflexivity).
  split; [exact Hin|].
  destruct (proj1 (emitted_days_characterised
                     (Fixtures.twoDisclosures Fixtures.day1)
                     [Fixtures.priceOn Fixtures.day1 (ofZ 40)]
                     MoreFixtures.runStart MoreFixtures.runInstant
                     (rowDate Fixtures.thirdRow)) Hin)
    as (earlier & later & Hds & _).
  exists earlier, later. exact Hds.
Defined.

(** X4.  The market capitalisation of a row is the product of its share
    count with the close of the latest day of the loop, up to the day of
    the row, for which a truthy close is found. *)
Theorem market_cap_uses_last_known_close metrics stockPrices start t row :
  In row (postFillMetrics metrics stockPrices start t) ->
  exists before d between later price,
    fillDates start t = before ++ (d :: between) ++ later /\
    (exists body, d :: between = body ++ [rowDate row]) /\
    closeOn stockPrices d = Some price /\ truthy price = true /\
    Forall (fun x => truthyOpt (closeOn stockPrices x) = false) between /\
    marketCap row = mul price (sharesOutstanding row).
Proof.
  intros Hrow. destruct (in_split _ _ Hrow) as [pre [post Hsplit]].
  destruct (postFill_row_context _ _ _ _ _ _ _ Hsplit)
    as (earlier & later & price & Hds & _ & Hlast & _ & Hb).
  destruct (lastKnownAfter_source _ _ _ Hlast)
    as (before & d & between & Hsrc & Hc & Ht & Hnone).
  exists before, d, between, later, price.
  split.
  - rewrite Hds.
    transitivity ((earlier ++ [rowDate row]) ++ later).
    + now rewrite <- app_assoc.
    + now rewrite Hsrc, <- app_assoc.
  - split.
    + destruct (app_snoc_split _ _ _ _ _ Hsrc)
        as [(-> & _ & ->)|(post' & -> & _)].
      * now exists [].
      * now exists (d :: post').
    + repeat split; try assumption. now destruct Hb.
Qed.

Lemma market_cap_uses_last_known_close_witness :
  In Fixtures.thirdRow MoreFixtures.twoDisclosuresRun /\
  exists price,
    marketCap Fixtures.thirdRow
    = mul price (sharesOutstanding Fixtures.thirdRow).
Proof.
  assert (Hin : In Fixtures.thirdRow MoreFixtures.twoDisclosuresRun)
    by (vm_compute; do 2 right; left; reflexivity).
  split; [exact Hin|].
  destruct (market_cap_uses_last_known_close
              (Fixtures.twoDisclosures Fixtures.day1)
              [Fixtures.priceOn Fixtures.day1 (ofZ 40)]
              MoreFixtures.runStart MoreFixtures.runInstant
              Fixtures.thirdRow Hin)
    as (_ & _ & _ & _ & price & _ & _ & _ & _ & _ & Hm).
  exists price. exact Hm.
Defined.

(** X5.  When the first disclosure names its company, the days of the
    output are a tail of the days of the loop: from the first emitted day
    on, every day of the loop is emitted.  Called at or after the start
    date, a non-empty output therefore ends with a row dated at the first
    midnight that is not before the instant of the call, which is the
    next day unless the call falls on a midnight. *)
Theorem series_has_no_gaps metrics stockPrices start t :
  firstHasCompany metrics ->
  (exists skipped,
      fillDates start t
      = skipped ++ map rowDate (postFillMetrics metrics stockPrices start t)) /\
  (start <= t ->
   postFillMetrics metrics stockPrices start t <> [] ->
   exists body latest,
     postFillMetrics metrics stockPrices start t = body ++ [latest] /\
     t <= rowDate latest < t + msPerDay).
Proof.
  intros Hfirst.
  destruct (postFill_suffix metrics stockPrices start t Hfirst)
    as [skipped Hsk].
  split; [now exists skipped|].
  intros Hst Hne.
  destruct (fillDates_last start t Hst) as (days & dl & Hdl & Hbound).
  destruct (exists_last Hne) as [body [latest Hout]].
  exists body, latest. split; [exact Hout|].
  rewrite Hout, map_app in Hsk. cbn [map] in Hsk.
  rewrite Hdl, app_assoc in Hsk. apply app_inj_tail in Hsk.
  destruct Hsk as [_ <-]. exact Hbound.
Qed.

Lemma series_has_no_gaps_witness :
  firstHasCompany (Fixtures.twoDisclosures Fixtures.day1) /\
  MoreFixtures.runStart <= MoreFixtures.runInstant /\
  MoreFixtures.twoDisclosuresRun <> [] /\
  exists body latest,
    MoreFixtures.twoDisclosuresRun = body ++ [latest] /\
    MoreFixtures.runInstant <= rowDate latest.
Proof.
  assert (H1 : firstHasCompany (Fixtures.twoDisclosures Fixtures.day1))
    by reflexivity.
  assert (H2 : MoreFixtures.runStart <= MoreFixtures.runInstant)
    by (vm_compute; discriminate).
  assert (H3 : MoreFixtures.twoDisclosuresRun <> [])
    by (vm_compute; discriminate).
  split; [exact H1|]. split; [exact H2|]. split; [exact H3|].
  destruct (proj2 (series_has_no_gaps
                     (Fixtures.twoDisclosures Fixtures.day1)
                     [Fixtures.priceOn Fixtures.day1 (ofZ 40)]
                     MoreFixtures.runStart MoreFixtures.runInstant H1) H2 H3)
    as (body & latest & Hout & Hb & _).
  exists body, latest. split; [exact Hout|exact Hb].
Defined.

(** X6.  Without a price row that has a truthy close, and likewise
    without a disclosure that carries one of the five fields, the output
    is empty, whatever the other input, the start date and the instant;
    in particular for no price rows and for no disclosures.  A field is
    carried as soon as it is not [undefined]: a row of the table whose
    columns are all NULL is read with [null] fields, counts as a
    disclosure, and with a price on its day yields a row of zeros whose
    share count is [NaN]. *)
Theorem no_rows_without_price_or_disclosure metrics stockPrices start t :
  (noClose stockPrices -> postFillMetrics metrics stockPrices start t = []) /\
  (noField metrics -> postFillMetrics metrics stockPrices start t = []) /\
  postFillMetrics metrics [] start t = [] /\
  postFillMetrics [] stockPrices start t = [] /\
  map (fun row => (rowDate row, ethHoldings row, ethConcentration row,
                   isNaN (sharesOutstanding row)))
      (postFillMetrics [MoreFixtures.nullDisclosure]
                       [Fixtures.priceOn Fixtures.day1 (ofZ 40)]
                       MoreFixtures.runStart MoreFixtures.runStart)
  = [(MoreFixtures.runStart, zero, zero, true)].
Proof.
  split; [|split; [|split; [|split]]].
  - intros H. apply postFill_nothing. now left.
  - intros H. apply postFill_nothing. now right.
  - apply postFill_nothing. left. constructor.
  - apply postFill_nothing. right. constructor.
  - vm_compute. reflexivity.
Qed.

Lemma no_rows_without_price_or_disclosure_witness :
  (noClose [MoreFixtures.priceWithoutClose] /\
   postFillMetrics (Fixtures.twoDisclosures Fixtures.day1)
                   [MoreFixtures.priceWithoutClose]
                   MoreFixtures.runStart MoreFixtures.runInstant = []) /\
  (noField [MoreFixtures.bareDisclosure] /\
   postFillMetrics [MoreFixtures.bareDisclosure]
                   [Fixtures.priceOn Fixtures.day1 (ofZ 40)]
                   MoreFixtures.runStart MoreFixtures.runInstant = []).
Proof.
  assert (H : noClose [MoreFixtures.priceWithoutClose])
    by (repeat constructor).
  assert (H' : noField [MoreFixtures.bareDisclosure])
    by (repeat constructor).
  split.
  - split; [exact H|].
    exact (proj1 (no_rows_without_price_or_disclosure
                    (Fixtures.twoDisclosures Fixtures.day1)
                    [MoreFixtures.priceWithoutClose]
                    MoreFixtures.runStart MoreFixtures.runInstant) H).
  - split; [exact H'|].
    exact (proj1 (proj2 (no_rows_without_price_or_disclosure
                           [MoreFixtures.bareDisclosure]
                           [Fixtures.priceOn Fixtures.day1 (ofZ 40)]
                           MoreFixtures.runStart MoreFixtures.runInstant))
                 H').
Defined.

(** X7.  The issued shares of a row are its share count less the share
    count of the last row before it in the output that has a truthy one
    (not zero, not [NaN]), and its share count itself when there is no
    such row. *)
Theorem issued_shares_against_previous_row
    metrics stockPrices start t pre row post :
  postFillMetrics metrics stockPrices start t = pre ++ row :: post ->
  issuedAtmShares row
  = match previousShares pre with
    | Some prev => sub (sharesOutstanding row) prev
    | None => sharesOutstanding row
    end.
Proof.
  intros Hsplit.
  destruct (postFill_row_context _ _ _ _ _ _ _ Hsplit)
    as (_ & _ & price & _ & _ & _ & _ & (_ & _ & _ & Hissued)).
  destruct (postFill_sorted metrics stockPrices start t) as [Hs _].
  rewrite Hsplit, map_app in Hs. cbn [map] in Hs.
  assert (Hpre : StronglySorted Z.lt (map rowDate pre))
    by (now apply sorted_prefix in Hs).
  assert (Hbefore : Forall (fun r => rowDate r < rowDate row) pre).
  { apply sorted_before in Hs. now rewrite Forall_map in Hs. }
  rewrite (getLastKnownSharesOutstanding_previous _ _ Hpre Hbefore) in Hissued.
  rewrite Hissued.
  destruct (previousShares pre) as [prev|] eqn:Hp; [|reflexivity].
  now rewrite (previousShares_truthy _ _ Hp).
Qed.

Lemma issued_shares_against_previous_row_witness :
  MoreFixtures.twoDisclosuresRun
  = MoreFixtures.rowsBeforeFifth
      ++ MoreFixtures.fifthRow :: MoreFixtures.rowsAfterFifth /\
  previousShares MoreFixtures.rowsBeforeFifth = Some (ofZ 200) /\
  issuedAtmShares MoreFixtures.fifthRow
  = sub (sharesOutstanding MoreFixtures.fifthRow) (ofZ 200).
Proof.
  assert (H : MoreFixtures.twoDisclosuresRun
              = MoreFixtures.rowsBeforeFifth
                  ++ MoreFixtures.fifthRow :: MoreFixtures.rowsAfterFifth)
    by (vm_compute; reflexivity).
  assert (Hp : previousShares MoreFixtures.rowsBeforeFifth = Some (ofZ 200))
    by (vm_compute; reflexivity).
  split; [exact H|]. split; [exact Hp|].
  pose proof (issued_shares_against_previous_row
                (Fixtures.twoDisclosures Fixtures.day1)
                [Fixtures.priceOn Fixtures.day1 (ofZ 40)]
                MoreFixtures.runStart MoreFixtures.runInstant
                MoreFixtures.rowsBeforeFifth MoreFixtures.fifthRow
                MoreFixtures.rowsAfterFifth H) as E.
  rewrite Hp in E. exact E.
Defined.

(** X8.  Every emitted row reports [0] shares bought back, and a
    weighted average buy price equal to its average buy price. *)
Theorem shares_bought_back_always_zero metrics stockPrices start t row :
  In row (postFillMetrics metrics stockPrices start t) ->
  sharesBoughtBack row = Some zero /\
  weightedAvgBuyPrice row = avgBuyPrice row.
Proof.
  intros Hrow. unfold postFillMetrics in Hrow.
  set (nm := map withNormalizedDate metrics) in *.
  set (ds := fillDates start t) in *.
  pose (P := fun (done : list Z) (st : FillState) =>
               Forall (fun r => sharesBoughtBack r = Some zero /\
                                weightedAvgBuyPrice r = avgBuyPrice r)
                      (snd st)).
  assert (H : P ds (fold_left (fillDay nm stockPrices) ds (None, []))).
  { apply (fill_ind nm stockPrices ds P); unfold P.
    - constructor.
    - intros done d rest [last rows] _ Hrows. cbn [snd] in Hrows.
      destruct (fillDay_detail nm stockPrices last rows d) as [Hno Hyes].
      destruct (truthyOpt (if truthyOpt (closeOn stockPrices d)
                           then closeOn stockPrices d else last)
                && hasAnyMetricData nm d && hasCompanyId nm d).
      + destruct (Hyes eq_refl)
          as (r & price & E & _ & _ & _ & _ & (_ & Hw & Hb & _)).
        rewrite E. cbn [snd]. apply Forall_app. split; [exact Hrows|].
        repeat constructor; [|exact Hw].
        rewrite Hb, getLastKnownSharesBoughtBack_none; [reflexivity|].
        eapply Forall_impl; [|exact Hrows]. now intros a [Ha _].
      + now rewrite (Hno eq_refl). }
  unfold P in H. rewrite Forall_forall in H. now apply H.
Qed.

Lemma shares_bought_back_always_zero_witness :
  In Fixtures.thirdRow MoreFixtures.twoDisclosuresRun /\
  sharesBoughtBack Fixtures.thirdRow = Some zero.
Proof.
  assert (Hin : In Fixtures.thirdRow MoreFixtures.twoDisclosuresRun)
    by (vm_compute; do 2 right; left; reflexivity).
  split; [exact Hin|].
  exact (proj1 (shares_bought_back_always_zero
                  (Fixtures.twoDisclosures Fixtures.day1)
                  [Fixtures.priceOn Fixtures.day1 (ofZ 40)]
                  MoreFixtures.runStart MoreFixtures.runInstant
                  Fixtures.thirdRow Hin)).
Defined.
End FillerMore.

(** ** More on the alert monitor *)

Section MonitorMore.
Import JsNum AlertStore MnavMonitorRoute Spec MonitorSpec.

(** *** The rows of a rule, in closed form *)

Lemma withLastTriggered_twice a t :
  withLastTriggered (withLastTriggered a t) t = withLastTriggered a t.
Proof. reflexivity. Qed.

Lemma markTriggered_same aid t rows :
  filter (fun row => String.eqb (id row) aid) (markTriggered aid t rows)
  = map (fun row => withLastTriggered row t)
        (filter (fun row => String.eqb (id row) aid) rows).
Proof.
  induction rows as [|x rows IH]; [reflexivity|].
  cbn [markTriggered map filter]. fold (markTriggered aid t rows).
  destruct (String.eqb (id x) aid) eqn:E.
  - cbn [withLastTriggered id]. rewrite E. cbn [map]. now rewrite IH.
  - rewrite E. exact IH.
Qed.

Lemma stamp_twice (t : Z) (rows : list Alert) :
  map (fun row => withLastTriggered row t)
      (map (fun row => withLastTriggered row t) rows)
  = map (fun row => withLastTriggered row t) rows.
Proof. rewrite map_map. now apply map_ext. Qed.

Lemma checkAlert_rows_closed w t m st a aid :
  rowsOf aid (db (checkAlert w t m st a))
  = if stampsAt w t m aid a
    then map (fun row => withLastTriggered row t) (rowsOf aid (db st))
    else rowsOf aid (db st).
Proof.
  unfold stampsAt.
  destruct (String.eqb_spec (id a) aid) as [E|E].
  - unfold checkAlert, emitted, insertThenUpdate.
    destruct (_ && _); [|reflexivity].
    destruct (insertResult w a); [|reflexivity].
    unfold rowsOf. cbn [db mnav_threshold_alerts isEmpty negb andb].
    destruct (updateSucceeds w a); [|reflexivity].
    rewrite E. apply markTriggered_same.
  - cbn [andb]. apply checkAlert_rows. now left.
Qed.

Lemma checkAlerts_rows_closed w t m aid l : forall st,
  rowsOf aid (db (fold_left (checkAlert w t m) l st))
  = if existsb (stampsAt w t m aid) l
    then map (fun row => withLastTriggered row t) (rowsOf aid (db st))
    else rowsOf aid (db st).
Proof.
  induction l as [|a l IH]; intros st; [reflexivity|].
  cbn [fold_left existsb]. rewrite IH, checkAlert_rows_closed.
  destruct (stampsAt w t m aid a); cbn [orb]; [|reflexivity].
  destruct (existsb _ l); [apply stamp_twice|reflexivity].
Qed.

Lemma stamps_in_group r w aid k v :
  Forall (fun a => company_id a = k) v ->
  existsb (stamps r w aid) v
  = match MnavService.calculateCurrentMnav r k with
    | Some m => existsb (stampsAt w (MnavService.now r) m aid) v
    | None => false
    end.
Proof.
  induction 1 as [|a v Ha Hv IH]; cbn [existsb].
  - now destruct (MnavService.calculateCurrentMnav r k).
  - rewrite IH. unfold stamps at 1, emittedFor. rewrite Ha.
    destruct (MnavService.calculateCurrentMnav r k); [reflexivity|].
    cbn [isEmpty negb]. now rewrite andb_false_r.
Qed.

Lemma checkCompany_rows_closed r w st g aid :
  Forall (fun a => company_id a = fst g) (snd g) ->
  rowsOf aid (db (checkCompany r w st g))
  = if existsb (stamps r w aid) (snd g)
    then map (fun row => withLastTriggered row (MnavService.now r))
             (rowsOf aid (db st))
    else rowsOf aid (db st).
Proof.
  destruct g as [k v]. cbn [fst snd]. intros Hg.
  rewrite (stamps_in_group r w aid k v Hg). unfold checkCompany.
  destruct (MnavService.calculateCurrentMnav r k); [|reflexivity].
  apply checkAlerts_rows_closed.
Qed.

Lemma checkCompanies_rows_closed r w aid groups : forall st,
  wellGrouped groups ->
  rowsOf aid (db (fold_left (checkCompany r w) groups st))
  = if existsb (stamps r w aid) (List.concat (map snd groups))
    then map (fun row => withLastTriggered row (MnavService.now r))
             (rowsOf aid (db st))
    else rowsOf aid (db st).
Proof.
  induction groups as [|g groups IH]; intros st Hg; [reflexivity|].
  inversion Hg as [|? ? Hg1 Hg2]; subst.
  cbn [fold_left map List.concat]. rewrite existsb_app.
  rewrite IH by assumption. rewrite checkCompany_rows_closed by assumption.
  destruct (existsb (stamps r w aid) (snd g)); cbn [orb]; [|reflexivity].
  destruct (existsb _ (List.concat _)); [apply stamp_twice|reflexivity].
Qed.

Lemma existsb_Permutation {A} (p : A -> bool) l l' :
  Permutation l l' -> existsb p l = existsb p l'.
Proof.
  induction 1; cbn [existsb]; try congruence.
  now destruct (p x), (p y).
Qed.

(** The stored rows of a rule after an invocation. *)
Lemma run_rows_closed r w db0 aid :
  rowsOf aid (fst (checkMnavThresholds r w db0))
  = if existsb (stamps r w aid) (active_mnav_alerts db0)
    then map (fun row => withLastTriggered row (MnavService.now r))
             (rowsOf aid db0)
    else rowsOf aid db0.
Proof.
  unfold checkMnavThresholds.
  destruct (active_mnav_alerts db0) as [|a l] eqn:Ha; [reflexivity|].
  cbn [fst]. rewrite checkCompanies_rows_closed
    by apply entries_wellGrouped.
  now rewrite (existsb_Permutation _ _ _ (entries_members (a :: l))).
Qed.

(** *** What the invocation returns *)

Lemma checkAlert_result base w t m st a :
  (alertsTriggered st = List.length (notificationsCreated st) /\
   exists added,
     mnav_notifications (db st) = base ++ added /\
     map notification_id added = notificationsCreated st) ->
  (alertsTriggered (checkAlert w t m st a)
   = List.length (notificationsCreated (checkAlert w t m st a)) /\
   exists added,
     mnav_notifications (db (checkAlert w t m st a)) = base ++ added /\
     map notification_id added
     = notificationsCreated (checkAlert w t m st a)) /\
  (alertsTriggered (checkAlert w t m st a) <= S (alertsTriggered st))%nat.
Proof.
  intros [Hn [added [Hdb Hids]]].
  unfold checkAlert, insertThenUpdate.
  destruct (_ && _); [|split; [split; [|exists added]|]; auto].
  destruct (insertResult w a) as [nid|];
    [|split; [split; [|exists added]|]; auto].
  cbn [db alertsTriggered notificationsCreated mnav_notifications].
  split; [split|lia].
  - rewrite length_app. cbn [List.length]. lia.
  - exists (added ++ [notificationFor nid a m]).
    rewrite Hdb, <- app_assoc, map_app, Hids. split; reflexivity.
Qed.

Lemma checkAlerts_result base w t m l : forall st,
  (alertsTriggered st = List.length (notificationsCreated st) /\
   exists added,
     mnav_notifications (db st) = base ++ added /\
     map notification_id added = notificationsCreated st) ->
  let st' := fold_left (checkAlert w t m) l st in
  (alertsTriggered st' = List.length (notificationsCreated st') /\
   exists added,
     mnav_notifications (db st') = base ++ added /\
     map notification_id added = notificationsCreated st') /\
  (alertsTriggered st' <= alertsTriggered st + List.length l)%nat.
Proof.
  induction l as [|a l IH]; intros st H; cbn [fold_left List.length].
  - split; [exact H|lia].
  - destruct (checkAlert_result base w t m st a H) as [H1 Hb].
    destruct (IH _ H1) as [H2 Hb2]. cbv zeta in *. split; [exact H2|lia].
Qed.

Lemma checkCompanies_result base r w groups : forall st,
  (alertsTriggered st = List.length (notificationsCreated st) /\
   exists added,
     mnav_notifications (db st) = base ++ added /\
     map notification_id added = notificationsCreated st) ->
  let st' := fold_left (checkCompany r w) groups st in
  (alertsTriggered st' = List.length (notificationsCreated st') /\
   exists added,
     mnav_notifications (db st') = base ++ added /\
     map notification_id added = notificationsCreated st') /\
  (alertsTriggered st'
   <= alertsTriggered st + List.length (List.concat (map snd groups)))%nat.
Proof.
  induction groups as [|[k v] groups IH]; intros st H;
    cbn [fold_left map List.concat snd].
  - split; [exact H|cbn [List.length]; lia].
  - rewrite length_app.
    assert (Hg :
       (alertsTriggered (checkCompany r w st (k, v))
        = List.length (notificationsCreated (checkCompany r w st (k, v))) /\
        exists added,
          mnav_notifications (db (checkCompany r w st (k, v))) = base ++ added /\
          map notification_id added
          = notificationsCreated (checkCompany r w st (k, v))) /\
       (alertsTriggered (checkCompany r w st (k, v))
        <= alertsTriggered st + List.length v)%nat).
    { unfold checkCompany.
      destruct (MnavService.calculateCurrentMnav r k) as [m|].
      - apply (checkAlerts_result base w (MnavService.now r) m v st H).
      - split; [exact H|lia]. }
    destruct Hg as [H1 Hb].
    destruct (IH _ H1) as [H2 Hb2]. cbv zeta in *. split; [exact H2|lia].
Qed.

(** X9.  The answer of an invocation agrees with what it wrote: the
    number of alerts checked is the size of the snapshot, the number
    triggered is the number of notification ids returned and is at most
    the number checked, and the ids returned are those of the rows
    appended to the notifications table, in order; no existing
    notification row is changed or removed. *)
Theorem run_result_matches_store r w db0 :
  let db' := fst (checkMnavThresholds r w db0) in
  let res := snd (checkMnavThresholds r w db0) in
  resAlertsChecked res = List.length (active_mnav_alerts db0) /\
  resAlertsTriggered res = List.length (resNotificationsCreated res) /\
  (resAlertsTriggered res <= resAlertsChecked res)%nat /\
  exists added,
    mnav_notifications db' = mnav_notifications db0 ++ added /\
    map notification_id added = resNotificationsCreated res.
Proof.
  cbv zeta. unfold checkMnavThresholds.
  destruct (active_mnav_alerts db0) as [|a l] eqn:Ha.
  - cbn [fst snd resAlertsChecked resAlertsTriggered resNotificationsCreated
         List.length].
    repeat split; try lia. exists []. now rewrite app_nil_r.
  - cbn [fst snd resAlertsChecked resAlertsTriggered resNotificationsCreated].
    destruct (checkCompanies_result (mnav_notifications db0) r w
                (objectEntries (alertsByCompany (a :: l)))
                {| db := db0; alertsTriggered := 0;
                   notificationsCreated := [] |})
      as [[Hn Hadded] Hb].
    { split; [reflexivity|]. exists []. cbn [db].
      now rewrite app_nil_r. }
    cbv zeta in *. cbn [alertsTriggered] in Hb.
    rewrite (Permutation_length (entries_members (a :: l))) in Hb.
    split; [reflexivity|]. split; [exact Hn|]. split; [exact Hb|].
    exact Hadded.
Qed.

(** *** One rule among the others *)

Lemma emittedFor_short r w a : (List.length (emittedFor r w a) <= 1)%nat.
Proof.
  unfold emittedFor, emitted.
  destruct (MnavService.calculateCurrentMnav r (company_id a)); [|simpl; lia].
  destruct (_ && _); [|simpl; lia].
  destruct (insertResult w a); simpl; lia.
Qed.

Lemma emittedFor_own r w a :
  filter (fun n => String.eqb (alert_id n) (id a)) (emittedFor r w a)
  = emittedFor r w a.
Proof.
  unfold emittedFor, emitted.
  destruct (MnavService.calculateCurrentMnav r (company_id a)); [|reflexivity].
  destruct (_ && _); [|reflexivity].
  destruct (insertResult w a); [|reflexivity].
  cbn [filter notificationFor alert_id]. now rewrite String.eqb_refl.
Qed.

Lemma notificationsOf_unique r w db0 a :
  In a (active_mnav_alerts db0) ->
  NoDup (map id (active_mnav_alerts db0)) ->
  notificationsOf (id a) (fst (checkMnavThresholds r w db0))
  = notificationsOf (id a) db0 ++ emittedFor r w a.
Proof.
  intros Hin Hnd.
  destruct (notificationsOf_run r w db0 (id a)) as [v [Hp ->]].
  f_equal.
  set (h := fun x => filter (fun n => String.eqb (alert_id n) (id a))
                            (emittedFor r w x)).
  assert (Hh : flat_map h (active_mnav_alerts db0) = emittedFor r w a).
  { destruct (in_split _ _ Hin) as [l1 [l2 Hs]].
    assert (Hother : forall x, In x (l1 ++ l2) -> h x = []).
    { intros x Hx. apply emittedFor_other. intros E.
      rewrite Hs, map_app in Hnd. simpl in Hnd.
      apply NoDup_remove_2 in Hnd. apply Hnd.
      rewrite <- E, <- map_app. now apply in_map. }
    rewrite Hs, flat_map_app. simpl.
    rewrite !flat_map_nil.
    - unfold h. now rewrite emittedFor_own, app_nil_r.
    - intros x Hx. apply Hother, in_or_app. now right.
    - intros x Hx. apply Hother, in_or_app. now left. }
  assert (Hperm : Permutation (emittedFor r w a) (flat_map h v)).
  { rewrite <- Hh. symmetry. now apply Permutation_flat_map. }
  pose proof (emittedFor_short r w a) as Hlen.
  destruct (emittedFor r w a) as [|n [|n' l]].
  - now apply Permutation_nil in Hperm.
  - now apply Permutation_length_1_inv in Hperm.
  - simpl in Hlen. lia.
Qed.

Lemma existsb_unique {A} (p : A -> bool) l x :
  In x l -> (forall y, In y l -> p y = true -> y = x) ->
  existsb p l = p x.
Proof.
  intros Hin Hu. destruct (p x) eqn:Hx.
  - apply existsb_exists. now exists x.
  - destruct (existsb p l) eqn:E; [|reflexivity].
    apply existsb_exists in E. destruct E as [y [Hy Hpy]].
    rewrite (Hu y Hy Hpy) in Hpy. congruence.
Qed.

Lemma stamps_unique r w db0 a :
  In a (active_mnav_alerts db0) ->
  NoDup (map id (active_mnav_alerts db0)) ->
  existsb (stamps r w (id a)) (active_mnav_alerts db0)
  = negb (isEmpty (emittedFor r w a)) && updateSucceeds w a.
Proof.
  intros Hin Hnd. rewrite (existsb_unique _ _ a Hin).
  - unfold stamps. now rewrite String.eqb_refl.
  - intros y Hy Hs. unfold stamps in Hs.
    apply andb_prop in Hs. destruct Hs as [Hs _].
    apply andb_prop in Hs. destruct Hs as [Hs _].
    apply String.eqb_eq in Hs.
    now apply (NoDup_map_In_eq id _ y a Hnd Hy Hin).
Qed.

(** X10.  What an invocation does for a rule depends on that rule alone.
    For an alert [a] that is in the snapshot under an identifier of its
    own, the notifications of the rule after the invocation are those
    before it followed by what [a] emits by itself (nothing, or its one
    notification), and its stored rows are stamped with the instant of
    the invocation exactly when [a] emitted and the update was applied;
    the other alerts, their order and their companies play no part. *)
Theorem rule_outcome_is_independent r w db0 a :
  In a (active_mnav_alerts db0) ->
  NoDup (map id (active_mnav_alerts db0)) ->
  notificationsOf (id a) (fst (checkMnavThresholds r w db0))
  = notificationsOf (id a) db0 ++ emittedFor r w a /\
  rowsOf (id a) (fst (checkMnavThresholds r w db0))
  = if negb (isEmpty (emittedFor r w a)) && updateSucceeds w a
    then map (fun row => withLastTriggered row (MnavService.now r))
             (rowsOf (id a) db0)
    else rowsOf (id a) db0.
Proof.
  intros Hin Hnd. split.
  - now apply notificationsOf_unique.
  - now rewrite run_rows_closed, stamps_unique.
Qed.

Lemma rule_outcome_is_independent_witness :
  In Fixtures.firedRule (active_mnav_alerts Fixtures.alertsDb) /\
  NoDup (map id (active_mnav_alerts Fixtures.alertsDb)) /\
  notificationsOf "a1" (MoreFixtures.dbAfterSeven Fixtures.workingWrites)
  = emittedFor MoreFixtures.readsAtSeven Fixtures.workingWrites
               Fixtures.firedRule.
Proof.
  assert (Hin : In Fixtures.firedRule (active_mnav_alerts Fixtures.alertsDb))
    by (left; reflexivity).
  assert (Hnd : NoDup (map id (active_mnav_alerts Fixtures.alertsDb))).
  { repeat constructor; simpl; intuition discriminate. }
  split; [exact Hin|]. split; [exact Hnd|].
  exact (proj1 (rule_outcome_is_independent
                  MoreFixtures.readsAtSeven Fixtures.workingWrites
                  Fixtures.alertsDb Fixtures.firedRule Hin Hnd)).
Defined.

(** *** The alerts table *)

Lemma markTriggered_onlyStamped i t rows0 rows :
  Forall2 (onlyStamped t) rows0 rows ->
  Forall2 (onlyStamped t) rows0 (markTriggered i t rows).
Proof.
  induction 1 as [|x y rows0 rows Hxy Hrows IH]; [constructor|].
  cbn [markTriggered map]. constructor; [|exact IH].
  destruct (String.eqb (id y) i); [|exact Hxy].
  destruct Hxy as [->| ->]; right; reflexivity.
Qed.

Lemma checkAlert_onlyStamped w t m st a rows0 :
  Forall2 (onlyStamped t) rows0 (mnav_threshold_alerts (db st)) ->
  Forall2 (onlyStamped t) rows0
          (mnav_threshold_alerts (db (checkAlert w t m st a))).
Proof.
  intros H. unfold checkAlert, insertThenUpdate.
  destruct (_ && _); [|exact H].
  destruct (insertResult w a); [|exact H].
  cbn [db mnav_threshold_alerts].
  destruct (updateSucceeds w a); [|exact H].
  now apply markTriggered_onlyStamped.
Qed.

(** X11.  An invocation never adds, removes, reorders, deactivates or
    re-targets a rule: the alerts table after it holds, row for row, what
    it held before, except that [last_triggered_at] may have been set to
    the instant of the invocation. *)
Theorem alerts_table_only_stamped r w db0 :
  Forall2 (onlyStamped (MnavService.now r))
          (mnav_threshold_alerts db0)
          (mnav_threshold_alerts (fst (checkMnavThresholds r w db0))).
Proof.
  assert (Hrefl : Forall2 (onlyStamped (MnavService.now r))
                          (mnav_threshold_alerts db0)
                          (mnav_threshold_alerts db0)).
  { induction (mnav_threshold_alerts db0); constructor; [now left|assumption]. }
  unfold checkMnavThresholds.
  destruct (active_mnav_alerts db0) as [|a0 l0]; [exact Hrefl|].
  cbn [fst].
  assert (Hgroups : forall groups st,
            Forall2 (onlyStamped (MnavService.now r))
                    (mnav_threshold_alerts db0)
                    (mnav_threshold_alerts (db st)) ->
            Forall2 (onlyStamped (MnavService.now r))
                    (mnav_threshold_alerts db0)
                    (mnav_threshold_alerts
                       (db (fold_left (checkCompany r w) groups st)))).
  { induction groups as [|[k v] groups IH]; intros st Hst; [exact Hst|].
    cbn [fold_left]. apply IH. unfold checkCompany.
    destruct (MnavService.calculateCurrentMnav r k) as [m|]; [|exact Hst].
    revert st Hst. induction v as [|a v IHv]; intros st Hst; [exact Hst|].
    cbn [fold_left]. apply IHv. now apply checkAlert_onlyStamped. }
  now apply Hgroups.
Qed.

(** *** From one invocation to the next *)

Lemma NoDup_map_filter {A B} (f : A -> B) (p : A -> bool) l :
  NoDup (map f l) -> NoDup (map f (filter p l)).
Proof.
  induction l as [|x l IH]; cbn [map filter]; intros H; [constructor|].
  inversion H as [|? ? Hx Hl]; subst.
  destruct (p x); [|now apply IH].
  cbn [map]. constructor; [|now apply IH].
  intros Hin. apply Hx. apply in_map_iff in Hin.
  destruct Hin as [y [Hy Hin]]. apply filter_In in Hin.
  rewrite <- Hy. apply in_map. now destruct Hin.
Qed.

Lemma unique_row rows a :
  NoDup (map id rows) -> In a rows ->
  filter (fun row => String.eqb (id row) (id a)) rows = [a].
Proof.
  induction rows as [|x rows IH]; cbn [map filter]; intros Hnd Hin;
    [contradiction|].
  inversion Hnd as [|? ? Hx Hrows]; subst.
  assert (Hnone : forall y, ~ In (id y) (map id rows) ->
            filter (fun row => String.eqb (id row) (id y)) rows = []).
  { intros y Hy. clear - Hy. induction rows as [|z rows IH]; [reflexivity|].
    cbn [filter map] in *. destruct (String.eqb_spec (id z) (id y)) as [E|E].
    - exfalso. apply Hy. left. exact E.
    - apply IH. intros H. apply Hy. now right. }
  destruct Hin as [->|Hin].
  - rewrite String.eqb_refl. f_equal. now apply Hnone.
  - destruct (String.eqb_spec (id x) (id a)) as [E|E].
    + exfalso. apply Hx. rewrite E. now apply in_map.
    + now apply IH.
Qed.

Lemma cooldown_mono t1 t2 last :
  t1 <= t2 -> checkCooldownPeriod t1 last = true ->
  checkCooldownPeriod t2 last = true.
Proof.
  unfold checkCooldownPeriod. destruct last as [t|]; [|reflexivity].
  intros Ht H. apply Z.ltb_lt in H. apply Z.ltb_lt. lia.
Qed.

Lemma fires_alone r w a m nid :
  MnavService.calculateCurrentMnav r (company_id a) = Some m ->
  checkAlertCondition m (threshold_value a) (alert_type a) = true ->
  checkCooldownPeriod (MnavService.now r) (last_triggered_at a) = true ->
  insertResult w a = Some nid ->
  emittedFor r w a = [notificationFor nid a m].
Proof.
  intros Hm Hc Hcd Hi. unfold emittedFor, emitted.
  now rewrite Hm, Hc, Hcd, Hi.
Qed.

(** X12.  Cooldown from one invocation to the next.  When a rule with
    an identifier of its own fires in an invocation at [t1] and the update
    is applied, its stored row carries [last_triggered_at = t1], and a
    following invocation at any instant up to [t1] plus six hours creates
    no notification for it, whatever the mNAV and the store do. *)
Theorem cooldown_after_firing db0 a r1 w1 r2 w2 m nid :
  In a (active_mnav_alerts db0) ->
  NoDup (map id (mnav_threshold_alerts db0)) ->
  MnavService.calculateCurrentMnav r1 (company_id a) = Some m ->
  checkAlertCondition m (threshold_value a) (alert_type a) = true ->
  checkCooldownPeriod (MnavService.now r1) (last_triggered_at a) = true ->
  insertResult w1 a = Some nid ->
  updateSucceeds w1 a = true ->
  MnavService.now r2 <= MnavService.now r1 + hours 6 ->
  let db1 := fst (checkMnavThresholds r1 w1 db0) in
  let db2 := fst (checkMnavThresholds r2 w2 db1) in
  rowsOf (id a) db1 = [withLastTriggered a (MnavService.now r1)] /\
  notificationsOf (id a) db1
  = notificationsOf (id a) db0 ++ [notificationFor nid a m] /\
  notificationsOf (id a) db2 = notificationsOf (id a) db1.
Proof.
  intros Hin Hnd Hm Hc Hcd Hi Hu Hnow db1 db2.
  assert (Hnd' : NoDup (map id (active_mnav_alerts db0)))
    by (now apply NoDup_map_filter).
  assert (Hrow : rowsOf (id a) db0 = [a]).
  { apply unique_row; [exact Hnd|].
    apply filter_In in Hin. now destruct Hin. }
  pose proof (fires_alone r1 w1 a m nid Hm Hc Hcd Hi) as He.
  assert (Hrows1 : rowsOf (id a) db1
                   = [withLastTriggered a (MnavService.now r1)]).
  { unfold db1. rewrite run_rows_closed, stamps_unique by assumption.
    now rewrite He, Hu, Hrow. }
  split; [exact Hrows1|]. split.
  - unfold db1. now rewrite notificationsOf_unique, He.
  - apply run_quiet. intros x Hx E.
    assert (Hx' : In x (rowsOf (id a) db1)).
    { apply filter_In. apply filter_In in Hx. destruct Hx as [Hx _].
      split; [exact Hx|]. now apply String.eqb_eq. }
    rewrite Hrows1 in Hx'. destruct Hx' as [<-|[]].
    unfold emittedFor, emitted.
    cbn [withLastTriggered company_id threshold_value alert_type
         last_triggered_at checkCooldownPeriod].
    destruct (MnavService.calculateCurrentMnav r2 (company_id a));
      [|reflexivity].
    destruct (Z.ltb_spec (MnavService.now r1)
                         (MnavService.now r2 - 6 * 60 * 60 * 1000));
      [unfold hours in Hnow; lia|].
    now rewrite andb_false_r.
Qed.

Lemma cooldown_after_firing_witness :
  rowsOf "a1" (MoreFixtures.dbAfterSeven Fixtures.workingWrites)
  = [withLastTriggered Fixtures.firedRule
                       (MnavService.now MoreFixtures.readsAtSeven)] /\
  notificationsOf "a1"
    (MoreFixtures.dbAfterEight Fixtures.workingWrites Fixtures.workingWrites)
  = notificationsOf "a1" (MoreFixtures.dbAfterSeven Fixtures.workingWrites).
Proof.
  assert (Hin : In Fixtures.firedRule (active_mnav_alerts Fixtures.alertsDb))
    by (left; reflexivity).
  assert (Hnd : NoDup (map id (mnav_threshold_alerts Fixtures.alertsDb))).
  { repeat constructor; simpl; intuition discriminate. }
  assert (Hm : MnavService.calculateCurrentMnav MoreFixtures.readsAtSeven
                 (company_id Fixtures.firedRule)
               = Some MoreFixtures.exampleMnav)
    by (vm_compute; reflexivity).
  assert (Hc : checkAlertCondition MoreFixtures.exampleMnav
                 (threshold_value Fixtures.firedRule)
                 (alert_type Fixtures.firedRule) = true)
    by (vm_compute; reflexivity).
  assert (Hcd : checkCooldownPeriod
                  (MnavService.now MoreFixtures.readsAtSeven)
                  (last_triggered_at Fixtures.firedRule) = true)
    by reflexivity.
  assert (Hnow : MnavService.now MoreFixtures.readsAtEight
                 <= MnavService.now MoreFixtures.readsAtSeven + hours 6)
    by (vm_compute; discriminate).
  destruct (cooldown_after_firing Fixtures.alertsDb Fixtures.firedRule
              MoreFixtures.readsAtSeven Fixtures.workingWrites
              MoreFixtures.readsAtEight Fixtures.workingWrites
              MoreFixtures.exampleMnav "n-a1"
              Hin Hnd Hm Hc Hcd eq_refl eq_refl Hnow) as (H1 & _ & H3).
  split; [exact H1|exact H3].
Defined.

(** X13.  The route does not look at the outcome of the update.  When a
    rule with an identifier of its own fires and the update of
    [last_triggered_at] is not applied, a following invocation at any
    later instant with a qualifying mNAV fires the rule again: the rule
    has two notifications, however close the two invocations are. *)
Theorem failed_update_allows_duplicate db0 a r1 w1 r2 w2 m1 m2 n1 n2 :
  In a (active_mnav_alerts db0) ->
  NoDup (map id (mnav_threshold_alerts db0)) ->
  MnavService.calculateCurrentMnav r1 (company_id a) = Some m1 ->
  checkAlertCondition m1 (threshold_value a) (alert_type a) = true ->
  checkCooldownPeriod (MnavService.now r1) (last_triggered_at a) = true ->
  insertResult w1 a = Some n1 ->
  updateSucceeds w1 a = false ->
  MnavService.now r1 <= MnavService.now r2 ->
  MnavService.calculateCurrentMnav r2 (company_id a) = Some m2 ->
  checkAlertCondition m2 (threshold_value a) (alert_type a) = true ->
  insertResult w2 a = Some n2 ->
  let db1 := fst (checkMnavThresholds r1 w1 db0) in
  let db2 := fst (checkMnavThresholds r2 w2 db1) in
  rowsOf (id a) db1 = rowsOf (id a) db0 /\
  notificationsOf (id a) db2
  = notificationsOf (id a) db0
    ++ [notificationFor n1 a m1; notificationFor n2 a m2].
Proof.
  intros Hin Hnd Hm1 Hc1 Hcd Hi1 Hu Hnow Hm2 Hc2 Hi2 db1 db2.
  assert (Hnd' : NoDup (map id (active_mnav_alerts db0)))
    by (now apply NoDup_map_filter).
  assert (Hrows1 : rowsOf (id a) db1 = rowsOf (id a) db0).
  { unfold db1. rewrite run_rows_closed, stamps_unique by assumption.
    now rewrite Hu, andb_false_r. }
  split; [exact Hrows1|].
  destruct (next_snapshot r1 w1 db0 a Hin Hrows1) as [Hin1 Hids1].
  fold db1 in Hin1, Hids1.
  unfold db2. rewrite notificationsOf_unique;
    [|exact Hin1|now rewrite Hids1].
  unfold db1. rewrite notificationsOf_unique by assumption.
  rewrite (fires_alone r1 w1 a m1 n1 Hm1 Hc1 Hcd Hi1).
  rewrite (fires_alone r2 w2 a m2 n2 Hm2 Hc2
             (cooldown_mono _ _ _ Hnow Hcd) Hi2).
  now rewrite <- app_assoc.
Qed.

Lemma failed_update_allows_duplicate_witness :
  notificationsOf "a1"
    (MoreFixtures.dbAfterEight MoreFixtures.insertOnlyWrites
                               MoreFixtures.insertOnlyWrites)
  = [notificationFor "n-a1" Fixtures.firedRule MoreFixtures.exampleMnav;
     notificationFor "n-a1" Fixtures.firedRule MoreFixtures.exampleMnav].
Proof.
  assert (Hin : In Fixtures.firedRule (active_mnav_alerts Fixtures.alertsDb))
    by (left; reflexivity).
  assert (Hnd : NoDup (map id (mnav_threshold_alerts Fixtures.alertsDb))).
  { repeat constructor; simpl; intuition discriminate. }
  assert (Hm1 : MnavService.calculateCurrentMnav MoreFixtures.readsAtSeven
                  (company_id Fixtures.firedRule)
                = Some MoreFixtures.exampleMnav)
    by (vm_compute; reflexivity).
  assert (Hm2 : MnavService.calculateCurrentMnav MoreFixtures.readsAtEight
                  (company_id Fixtures.firedRule)
                = Some MoreFixtures.exampleMnav)
    by (vm_compute; reflexivity).
  assert (Hc : checkAlertCondition MoreFixtures.exampleMnav
                 (threshold_value Fixtures.firedRule)
                 (alert_type Fixtures.firedRule) = true)
    by (vm_compute; reflexivity).
  assert (Hcd : checkCooldownPeriod
                  (MnavService.now MoreFixtures.readsAtSeven)
                  (last_triggered_at Fixtures.firedRule) = true)
    by reflexivity.
  assert (Hnow : MnavService.now MoreFixtures.readsAtSeven
                 <= MnavService.now MoreFixtures.readsAtEight)
    by (vm_compute; discriminate).
  exact (proj2 (failed_update_allows_duplicate
                  Fixtures.alertsDb Fixtures.firedRule
                  MoreFixtures.readsAtSeven MoreFixtures.insertOnlyWrites
                  MoreFixtures.readsAtEight MoreFixtures.insertOnlyWrites
                  MoreFixtures.exampleMnav MoreFixtures.exampleMnav
                  "n-a1" "n-a1"
                  Hin Hnd Hm1 Hc Hcd eq_refl eq_refl Hnow Hm2 Hc eq_refl)).
Defined.

(** *** The groups *)

Lemma pushAlert_keys a acc :
  map fst (pushAlert a acc)
  = if existsb (fun k => String.eqb k (company_id a)) (map fst acc)
    then map fst acc
    else map fst acc ++ [company_id a].
Proof.
  induction acc as [|[k v] acc IH]; [reflexivity|].
  cbn [pushAlert map fst existsb].
  destruct (String.eqb k (company_id a)); [reflexivity|].
  cbn [map fst orb]. rewrite IH.
  now destruct (existsb _ (map fst acc)).
Qed.

Lemma pushAlert_NoDup a acc :
  NoDup (map fst acc) -> NoDup (map fst (pushAlert a acc)).
Proof.
  intros H. rewrite pushAlert_keys.
  destruct (existsb _ (map fst acc)) eqn:E; [exact H|].
  apply NoDup_app; [exact H|repeat constructor; now intros []|].
  intros k Hk [<-|[]].
  assert (Hex : existsb (fun k' => String.eqb k' (company_id a)) (map fst acc)
                = true).
  { apply existsb_exists. exists (company_id a).
    split; [exact Hk|apply String.eqb_refl]. }
  congruence.
Qed.

Lemma pushAlert_In a acc k v :
  NoDup (map fst acc) ->
  (In (k, v) (pushAlert a acc) <->
   (k <> company_id a /\ In (k, v) acc) \/
   (k = company_id a /\
    ((exists v0, In (k, v0) acc /\ v = v0 ++ [a]) \/
     (~ In k (map fst acc) /\ v = [a])))).
Proof.
  induction acc as [|[k0 v0] acc IH]; intros Hnd.
  - cbn [pushAlert In map]. split.
    + intros [[= <- <-]|[]]. right. split; [reflexivity|]. right. auto.
    + intros [[_ []]|[-> [[v1 [[] _]]|[_ ->]]]]. now left.
  - cbn [map fst] in Hnd. inversion Hnd as [|? ? Hk0 Hacc]; subst.
    cbn [pushAlert]. destruct (String.eqb_spec k0 (company_id a)) as [E|E].
    + subst k0. cbn [In map fst]. split.
      * intros [[= <- <-]|Hin].
        -- right. split; [reflexivity|]. left. exists v0. auto.
        -- left. split; [|now right]. intros ->. apply Hk0.
           change (company_id a) with (fst (company_id a, v)).
           now apply in_map.
      * intros [[Hne [Heq|Hin]]|[-> [[v1 [[Heq|Hin] ->]]|[Hn _]]]].
        -- injection Heq as Hk _. congruence.
        -- now right.
        -- injection Heq as <-. now left.
        -- exfalso. apply Hk0.
           change (company_id a) with (fst (company_id a, v1)).
           now apply in_map.
        -- exfalso. apply Hn. now left.
    + cbn [In map fst]. rewrite (IH Hacc). split.
      * intros [[= <- <-]|[[Hne Hin]|[-> [[v1 [Hin ->]]|[Hn ->]]]]].
        -- left. split; [exact E|now left].
        -- left. split; [exact Hne|now right].
        -- right. split; [reflexivity|]. left. exists v1.
           split; [now right|reflexivity].
        -- right. split; [reflexivity|]. right. split; [|reflexivity].
           intros [H|H]; [congruence|contradiction].
      * intros [[Hne [Heq|Hin]]|[-> [[v1 [[Heq|Hin] ->]]|[Hn ->]]]].
        -- injection Heq as <- <-. now left.
        -- right. left. auto.
        -- injection Heq as Hk _. congruence.
        -- right. right. split; [reflexivity|]. left. now exists v1.
        -- right. right. split; [reflexivity|]. right.
           split; [|reflexivity]. intros H. apply Hn. now right.
Qed.

Lemma alertsOf_snoc k l a :
  alertsOf k (l ++ [a])
  = alertsOf k l ++ (if String.eqb k (company_id a) then [a] else []).
Proof. unfold alertsOf. now rewrite filter_app. Qed.

Lemma grouping_invariant alerts : forall acc seen,
  (NoDup (map fst acc) /\
   forall k v, In (k, v) acc <-> (v = alertsOf k seen /\ v <> [])) ->
  NoDup (map fst (fold_left (fun acc alert => pushAlert alert acc) alerts acc))
  /\
  forall k v,
    In (k, v) (fold_left (fun acc alert => pushAlert alert acc) alerts acc)
    <-> (v = alertsOf k (seen ++ alerts) /\ v <> []).
Proof.
  induction alerts as [|a alerts IH]; intros acc seen [Hnd Hacc].
  - cbn [fold_left]. now rewrite app_nil_r.
  - cbn [fold_left].
    replace (seen ++ a :: alerts) with ((seen ++ [a]) ++ alerts)
      by (now rewrite <- app_assoc).
    apply IH. split; [now apply pushAlert_NoDup|].
    intros k v. rewrite (pushAlert_In a acc k v Hnd), alertsOf_snoc.
    assert (Hkey : In k (map fst acc) <-> alertsOf k seen <> []).
    { split.
      - intros Hk. apply in_map_iff in Hk. destruct Hk as [[k' v'] [Hk Hin]].
        cbn [fst] in Hk. subst k'.
        apply Hacc in Hin. destruct Hin as [Hv Hne]. now rewrite <- Hv.
      - intros Hne. change k with (fst (k, alertsOf k seen)).
        apply in_map. apply Hacc. auto. }
    destruct (String.eqb_spec k (company_id a)) as [E|E].
    + split.
      * intros [[Hne _]|[_ [[v0 [Hin ->]]|[Hn ->]]]]; [contradiction| |].
        -- apply Hacc in Hin. destruct Hin as [-> _].
           split; [reflexivity|]. now destruct (alertsOf k seen).
        -- destruct (alertsOf k seen) as [|x l] eqn:Hs.
           ++ split; [reflexivity|discriminate].
           ++ exfalso. apply Hn, Hkey. discriminate.
      * intros [-> _]. right. split; [exact E|].
        destruct (alertsOf k seen) as [|x l] eqn:Hs.
        -- right. split; [|reflexivity]. intros Hk.
           apply Hkey in Hk. contradiction.
        -- left. exists (x :: l). split; [|reflexivity].
           apply Hacc. rewrite Hs. split; [reflexivity|discriminate].
    + rewrite app_nil_r. split.
      * intros [[_ Hin]|[Hk _]]; [now apply Hacc|contradiction].
      * intros H. left. split; [exact E|now apply Hacc].
Qed.

(** X14.  The grouping files every alert of the snapshot under its
    company, once: the keys are pairwise distinct, so the mNAV is
    computed once per company, and the group of a key is the list of the
    alerts of that company in the order of the snapshot, never empty. *)
Theorem grouping_partitions_by_company alerts :
  NoDup (map fst (alertsByCompany alerts)) /\
  forall k v,
    In (k, v) (alertsByCompany alerts) <->
    (v = alertsOf k alerts /\ v <> []).
Proof.
  unfold alertsByCompany.
  apply (grouping_invariant alerts [] []).
  split; [constructor|].
  intros k v. cbn [In alertsOf filter]. split; [contradiction|].
  now intros [-> H].
Qed.

Lemma grouping_partitions_by_company_witness :
  In ("bmnr"%string, [Fixtures.firedRule; Fixtures.neverFiredRule])
     (alertsByCompany [Fixtures.firedRule; Fixtures.neverFiredRule]) /\
  [Fixtures.firedRule; Fixtures.neverFiredRule]
  = alertsOf "bmnr" [Fixtures.firedRule; Fixtures.neverFiredRule].
Proof.
  assert (Hin : In ("bmnr"%string,
                    [Fixtures.firedRule; Fixtures.neverFiredRule])
                   (alertsByCompany
                      [Fixtures.firedRule; Fixtures.neverFiredRule]))
    by (left; reflexivity).
  split; [exact Hin|].
  exact (proj1 (proj1 (proj2 (grouping_partitions_by_company
                                [Fixtures.firedRule; Fixtures.neverFiredRule])
                             "bmnr"%string
                             [Fixtures.firedRule; Fixtures.neverFiredRule])
                      Hin)).
Defined.

(** *** Route and service at the end of the cooldown *)

(** X15.  The two monitors agree on a rule that has fired before except
    at one instant.  At any instant other than [last_triggered_at] plus
    six hours exactly, the service's [shouldTriggerAlert] is the route's
    condition and cooldown check together; at that instant exactly, the
    route holds the rule back and the service lets it fire. *)
Theorem service_and_route_cooldown_boundary nowMs a m t :
  last_triggered_at a = Some t ->
  (nowMs <> t + hours 6 ->
   MnavMonitorService.shouldTriggerAlert nowMs a m
   = checkAlertCondition m (threshold_value a) (alert_type a)
     && checkCooldownPeriod nowMs (last_triggered_at a)) /\
  (nowMs = t + hours 6 ->
   checkCooldownPeriod nowMs (last_triggered_at a) = false /\
   MnavMonitorService.shouldTriggerAlert nowMs a m
   = checkAlertCondition m (threshold_value a) (alert_type a)).
Proof.
  intros Hlast. rewrite service_condition, Hlast.
  unfold checkCooldownPeriod, hours. split.
  - intros Hne.
    destruct (Z.ltb_spec nowMs (t + 6 * 60 * 60 * 1000));
      destruct (Z.ltb_spec t (nowMs - 6 * 60 * 60 * 1000)); try lia;
      cbn [negb andb]; now rewrite ?andb_true_r, ?andb_false_r.
  - intros ->.
    destruct (Z.ltb_spec (t + 6 * 60 * 60 * 1000) (t + 6 * 60 * 60 * 1000));
      [lia|].
    destruct (Z.ltb_spec t (t + 6 * 60 * 60 * 1000 - 6 * 60 * 60 * 1000));
      [lia|].
    split; reflexivity.
Qed.

Lemma service_and_route_cooldown_boundary_witness :
  last_triggered_at Fixtures.firedRule = Some Fixtures.t0 /\
  checkCooldownPeriod MoreFixtures.instantOfExpiry
                      (last_triggered_at Fixtures.firedRule) = false /\
  MnavMonitorService.shouldTriggerAlert
    MoreFixtures.instantOfExpiry Fixtures.firedRule MoreFixtures.exampleMnav
  = checkAlertCondition MoreFixtures.exampleMnav
                        (threshold_value Fixtures.firedRule)
                        (alert_type Fixtures.firedRule).
Proof.
  split; [reflexivity|].
  exact (proj2 (service_and_route_cooldown_boundary
                  MoreFixtures.instantOfExpiry Fixtures.firedRule
                  MoreFixtures.exampleMnav Fixtures.t0 eq_refl) eq_refl).
Defined.

(** *** Cron authentication *)

(** X16.  A request is authenticated exactly when [CRON_SECRET] is set
    to a non-empty string and the [authorization] header is ["Bearer "]
    followed by that secret; with the secret unset no header is
    accepted, the header ["Bearer undefined"] included. *)
Theorem cron_auth_requires_secret authorization cronSecret :
  (CronAuth.requireCronAuth authorization cronSecret = true <->
   exists secret,
     cronSecret = Some secret /\ secret <> EmptyString /\
     authorization = Some ("Bearer " ++ secret)%string) /\
  CronAuth.requireCronAuth authorization None = false /\
  CronAuth.requireCronAuth authorization (Some EmptyString) = false.
Proof.
  unfold CronAuth.requireCronAuth, MnavService.strTruthy.
  split; [|split].
  - split.
    + intros H. apply andb_prop in H. destruct H as [Hh Hs].
      destruct cronSecret as [secret|]; [|discriminate].
      destruct authorization as [h|]; [|discriminate].
      apply String.eqb_eq in Hh. exists secret.
      split; [reflexivity|]. split; [|now rewrite Hh].
      intros ->. discriminate.
    + intros (secret & -> & Hne & ->). rewrite String.eqb_refl.
      destruct (String.eqb_spec secret EmptyString); [contradiction|].
      reflexivity.
  - apply andb_false_r.
  - apply andb_false_r.
Qed.

Lemma cron_auth_requires_secret_witness :
  CronAuth.requireCronAuth (Some "Bearer s3cret"%string)
                           (Some "s3cret"%string) = true /\
  CronAuth.requireCronAuth (Some "Bearer undefined"%string) None = false.
Proof.
  split.
  - apply (proj2 (proj1 (cron_auth_requires_secret
                           (Some "Bearer s3cret"%string)
                           (Some "s3cret"%string)))).
    exists "s3cret"%string. repeat split. discriminate.
  - exact (proj1 (proj2 (cron_auth_requires_secret
                           (Some "Bearer undefined"%string) None))).
Defined.

(** *** The cooldown, from the firing on *)

Lemma run_ids r w db0 :
  map id (mnav_threshold_alerts (fst (checkMnavThresholds r w db0)))
  = map id (mnav_threshold_alerts db0).
Proof.
  assert (H : forall rows, map id rows = map fst (map keyOf rows))
    by (intros rows; rewrite map_map; reflexivity).
  now rewrite !H, run_keys.
Qed.

Lemma active_of_rows db a :
  rowsOf (id a) db = [a] -> is_active a = true ->
  In a (active_mnav_alerts db).
Proof.
  intros Hrows Hact. apply filter_In. split; [|exact Hact].
  assert (H : In a (rowsOf (id a) db)) by (rewrite Hrows; now left).
  apply filter_In in H. now destruct H.
Qed.

Lemma held_back r w a t0 :
  MnavService.now r <= t0 + hours 6 ->
  emittedFor r w (withLastTriggered a t0) = [].
Proof.
  intros Hnow. unfold emittedFor, emitted.
  cbn [withLastTriggered company_id threshold_value alert_type
       last_triggered_at checkCooldownPeriod].
  destruct (MnavService.calculateCurrentMnav r (company_id a));
    [|reflexivity].
  destruct (Z.ltb_spec t0 (MnavService.now r - 6 * 60 * 60 * 1000));
    [unfold hours in Hnow; lia|].
  now rewrite andb_false_r.
Qed.

(** C2.  Let rule [a], stored under an identifier of its own, fire in
    an invocation of the route at [t0]: its mNAV qualifies, its cooldown
    has passed, the notification is inserted, and the update of
    [last_triggered_at] is applied.  Then the invocation has added that
    one notification and has stamped the stored row with [t0]; a next
    invocation less than six hours after [t0] (at [t0] plus one hour,
    say) creates no notification for the rule, whatever the mNAV and the
    store do, and leaves the row as it is; and the invocation after that,
    more than six hours after [t0] (at [t0] plus seven hours, say), with
    a qualifying mNAV and an insert that succeeds, creates exactly one.
    In the service, [recordTriggeredAlert] stamps the row in the same
    way, and [shouldTriggerAlert] answers [false] and [true] for the
    stamped row at these two instants.  A rule that never fired passes
    the cooldown check at any instant. *)
Theorem cooldown_idempotence db0 a r0 w0 m0 nid r1 w1 r2 w2 m nid' :
  In a (active_mnav_alerts db0) ->
  NoDup (map id (mnav_threshold_alerts db0)) ->
  MnavService.calculateCurrentMnav r0 (company_id a) = Some m0 ->
  checkAlertCondition m0 (threshold_value a) (alert_type a) = true ->
  checkCooldownPeriod (MnavService.now r0) (last_triggered_at a) = true ->
  insertResult w0 a = Some nid ->
  updateSucceeds w0 a = true ->
  MnavService.now r1 < MnavService.now r0 + hours 6 ->
  MnavService.now r0 + hours 6 < MnavService.now r2 ->
  MnavService.calculateCurrentMnav r2 (company_id a) = Some m ->
  checkAlertCondition m (threshold_value a) (alert_type a) = true ->
  insertResult w2 (withLastTriggered a (MnavService.now r0)) = Some nid' ->
  let t0 := MnavService.now r0 in
  let fired := withLastTriggered a t0 in
  let db1 := fst (checkMnavThresholds r0 w0 db0) in
  let db2 := fst (checkMnavThresholds r1 w1 db1) in
  let db3 := fst (checkMnavThresholds r2 w2 db2) in
  (notificationsOf (id a) db1
   = notificationsOf (id a) db0 ++ [notificationFor nid a m0] /\
   rowsOf (id a) db1 = [fired]) /\
  (notificationsOf (id a) db2 = notificationsOf (id a) db1 /\
   rowsOf (id a) db2 = [fired]) /\
  notificationsOf (id a) db3
  = notificationsOf (id a) db2 ++ [notificationFor nid' fired m] /\
  (rowsOf (id a)
          (fst (MnavMonitorService.recordTriggeredAlert w0 t0 a m0 db0))
   = [fired] /\
   MnavMonitorService.shouldTriggerAlert (MnavService.now r1) fired m
   = false /\
   MnavMonitorService.shouldTriggerAlert (MnavService.now r2) fired m
   = true) /\
  (forall t b m', last_triggered_at b = None ->
     checkCooldownPeriod t (last_triggered_at b) = true /\
     MnavMonitorService.shouldTriggerAlert t b m'
     = checkAlertCondition m' (threshold_value b) (alert_type b)).
Proof.
  intros Hin Hnd Hm0 Hc0 Hcd0 Hi0 Hu0 Hnow1 Hnow2 Hm Hc Hi2
         t0 fired db1 db2 db3.
  assert (Hact : is_active a = true)
    by (apply filter_In in Hin; now destruct Hin).
  assert (Hrow0 : rowsOf (id a) db0 = [a]).
  { apply unique_row; [exact Hnd|].
    apply filter_In in Hin. now destruct Hin. }
  assert (Hnd0 : NoDup (map id (active_mnav_alerts db0)))
    by (now apply NoDup_map_filter).
  pose proof (fires_alone r0 w0 a m0 nid Hm0 Hc0 Hcd0 Hi0) as He0.
  (* the invocation at [t0] *)
  assert (Hrows1 : rowsOf (id a) db1 = [fired]).
  { unfold db1. rewrite run_rows_closed, stamps_unique by assumption.
    now rewrite He0, Hu0, Hrow0. }
  assert (Hnot1 : notificationsOf (id a) db1
                  = notificationsOf (id a) db0 ++ [notificationFor nid a m0]).
  { unfold db1. now rewrite notificationsOf_unique, He0. }
  assert (Hin1 : In fired (active_mnav_alerts db1))
    by (now apply active_of_rows).
  assert (Hnd1 : NoDup (map id (active_mnav_alerts db1))).
  { apply NoDup_map_filter. unfold db1. now rewrite run_ids. }
  (* the invocation within the window *)
  assert (He1 : emittedFor r1 w1 fired = [])
    by (apply held_back; fold t0; lia).
  assert (Hnot2 : notificationsOf (id a) db2 = notificationsOf (id a) db1).
  { pose proof (notificationsOf_unique r1 w1 db1 fired Hin1 Hnd1) as H.
    change (id fired) with (id a) in H. unfold db2.
    rewrite H, He1. apply app_nil_r. }
  assert (Hrows2 : rowsOf (id a) db2 = [fired]).
  { pose proof (stamps_unique r1 w1 db1 fired Hin1 Hnd1) as H.
    change (id fired) with (id a) in H. unfold db2.
    rewrite (run_rows_closed r1 w1 db1 (id a)), H, He1.
    exact Hrows1. }
  assert (Hin2 : In fired (active_mnav_alerts db2))
    by (now apply active_of_rows).
  assert (Hnd2 : NoDup (map id (active_mnav_alerts db2))).
  { apply NoDup_map_filter. unfold db2, db1. now rewrite !run_ids. }
  (* the invocation after the window *)
  assert (Hcd2 : checkCooldownPeriod (MnavService.now r2)
                                     (last_triggered_at fired) = true).
  { cbn [fired withLastTriggered last_triggered_at checkCooldownPeriod].
    apply Z.ltb_lt. fold t0 in Hnow2. unfold hours in Hnow2. lia. }
  pose proof (fires_alone r2 w2 fired m nid' Hm Hc Hcd2 Hi2) as He2.
  split; [split; assumption|]. split; [split; assumption|]. split.
  - pose proof (notificationsOf_unique r2 w2 db2 fired Hin2 Hnd2) as H.
    change (id fired) with (id a) in H. unfold db3.
    now rewrite H, He2.
  - split; [split; [|split]|].
    + unfold MnavMonitorService.recordTriggeredAlert, insertThenUpdate.
      rewrite Hi0, Hu0. cbn [fst]. unfold rowsOf.
      cbn [mnav_threshold_alerts]. rewrite markTriggered_same.
      fold (rowsOf (id a) db0). now rewrite Hrow0.
    + rewrite service_condition.
      cbn [fired withLastTriggered last_triggered_at].
      destruct (Z.ltb_spec (MnavService.now r1) (t0 + hours 6)); [|lia].
      reflexivity.
    + rewrite service_condition.
      cbn [fired withLastTriggered last_triggered_at threshold_value
           alert_type].
      rewrite Hc.
      destruct (Z.ltb_spec (MnavService.now r2) (t0 + hours 6));
        [fold t0 in Hnow2; lia|reflexivity].
    + intros t b m' Hnone. rewrite service_condition, Hnone.
      split; reflexivity.
Qed.

Lemma cooldown_idempotence_witness :
  notificationsOf "a3" (MoreFixtures.dbFired Fixtures.workingWrites)
  = [notificationFor "n-a3" MoreFixtures.unfiredRule
                     MoreFixtures.exampleMnav] /\
  notificationsOf "a3"
    (MoreFixtures.dbAfterOne Fixtures.workingWrites Fixtures.workingWrites)
  = notificationsOf "a3" (MoreFixtures.dbFired Fixtures.workingWrites) /\
  notificationsOf "a3"
    (MoreFixtures.dbAfterOneAndSeven
       Fixtures.workingWrites Fixtures.workingWrites Fixtures.workingWrites)
  = notificationsOf "a3"
      (MoreFixtures.dbAfterOne Fixtures.workingWrites Fixtures.workingWrites)
    ++ [notificationFor "n-a3"
          (withLastTriggered MoreFixtures.unfiredRule Fixtures.t0)
          MoreFixtures.exampleMnav].
Proof.
  assert (Hin : In MoreFixtures.unfiredRule
                   (active_mnav_alerts MoreFixtures.freshDb))
    by (left; reflexivity).
  assert (Hnd : NoDup (map id (mnav_threshold_alerts MoreFixtures.freshDb))).
  { repeat constructor. now intros []. }
  assert (Hm0 : MnavService.calculateCurrentMnav MoreFixtures.readsAtFiring
                  (company_id MoreFixtures.unfiredRule)
                = Some MoreFixtures.exampleMnav)
    by (vm_compute; reflexivity).
  assert (Hm : MnavService.calculateCurrentMnav MoreFixtures.readsAtSeven
                 (company_id MoreFixtures.unfiredRule)
               = Some MoreFixtures.exampleMnav)
    by (vm_compute; reflexivity).
  assert (Hc : checkAlertCondition MoreFixtures.exampleMnav
                 (threshold_value MoreFixtures.unfiredRule)
                 (alert_type MoreFixtures.unfiredRule) = true)
    by (vm_compute; reflexivity).
  assert (Hnow1 : MnavService.now MoreFixtures.readsAtOne
                  < MnavService.now MoreFixtures.readsAtFiring + hours 6)
    by reflexivity.
  assert (Hnow2 : MnavService.now MoreFixtures.readsAtFiring + hours 6
                  < MnavService.now MoreFixtures.readsAtSeven)
    by reflexivity.
  destruct (cooldown_idempotence
              MoreFixtures.freshDb MoreFixtures.unfiredRule
              MoreFixtures.readsAtFiring Fixtures.workingWrites
              MoreFixtures.exampleMnav "n-a3"
              MoreFixtures.readsAtOne Fixtures.workingWrites
              MoreFixtures.readsAtSeven Fixtures.workingWrites
              MoreFixtures.exampleMnav "n-a3"
              Hin Hnd Hm0 Hc eq_refl eq_refl eq_refl Hnow1 Hnow2 Hm Hc
              eq_refl)
    as ((H1 & _) & (H2 & _) & H3 & _).
  split; [exact H1|]. split; [exact H2|exact H3].
Defined.

(** C2 (as stated, refuted).  The rule fires at [t0] and the update of
    [last_triggered_at] is not applied: the invocation one hour later,
    with the same qualifying mNAV, creates a second notification for
    the rule. *)
Lemma cooldown_lost_when_update_fails :
  notificationsOf "a3" (MoreFixtures.dbFired MoreFixtures.insertOnlyWrites)
  = [notificationFor "n-a3" MoreFixtures.unfiredRule
                     MoreFixtures.exampleMnav] /\
  notificationsOf "a3"
    (MoreFixtures.dbAfterOne MoreFixtures.insertOnlyWrites
                             MoreFixtures.insertOnlyWrites)
  = [notificationFor "n-a3" MoreFixtures.unfiredRule
                     MoreFixtures.exampleMnav;
     notificationFor "n-a3" MoreFixtures.unfiredRule
                     MoreFixtures.exampleMnav].
Proof. split; vm_compute; reflexivity. Qed.
End MonitorMore.

(** ** The price feed *)

Section FeedFacts.
Import JsNum PriceFeed FeedSpec.

(** *** The maps *)

Lemma mapGet_mapSet_same {V : Type} k (v : V) m :
  mapGet k (mapSet k v m) = Some v.
Proof.
  induction m as [|[k' v'] m IH]; cbn [mapSet mapGet].
  - now rewrite String.eqb_refl.
  - destruct (String.eqb k' k) eqn:E; cbn [mapGet]; rewrite E; auto.
Qed.

Lemma mapGet_mapSet_other {V : Type} k k' (v : V) m :
  k <> k' -> mapGet k' (mapSet k v m) = mapGet k' m.
Proof.
  intros Hne. induction m as [|[k0 v0] m IH]; cbn [mapSet mapGet].
  - now destruct (String.eqb_spec k k').
  - destruct (String.eqb_spec k0 k) as [->|E]; cbn [mapGet].
    + now destruct (String.eqb_spec k k').
    + now rewrite IH.
Qed.

Lemma mapGet_mapDelete_other {V : Type} k k' (m : list (string * V)) :
  k <> k' -> mapGet k' (mapDelete k m) = mapGet k' m.
Proof.
  intros Hne. induction m as [|[k0 v0] m IH]; cbn [mapDelete mapGet].
  - reflexivity.
  - destruct (String.eqb_spec k0 k) as [->|E]; cbn [mapGet].
    + now destruct (String.eqb_spec k k').
    + now rewrite IH.
Qed.

Lemma mapGet_absent {V : Type} k (m : list (string * V)) :
  ~ In k (mapKeys m) -> mapGet k m = None.
Proof.
  induction m as [|[k0 v0] m IH]; cbn [mapKeys map fst In mapGet];
    [reflexivity|].
  intros Hn. destruct (String.eqb_spec k0 k) as [->|E].
  - exfalso. apply Hn. now left.
  - apply IH. intros H. apply Hn. now right.
Qed.

Lemma mapGet_mapDelete_same {V : Type} k (m : list (string * V)) :
  NoDup (mapKeys m) -> mapGet k (mapDelete k m) = None.
Proof.
  induction m as [|[k0 v0] m IH]; cbn [mapKeys map fst mapDelete];
    [reflexivity|].
  intros Hnd. inversion Hnd as [|? ? Hk0 Hm]; subst.
  destruct (String.eqb_spec k0 k) as [->|E].
  - now apply mapGet_absent.
  - cbn [mapGet]. destruct (String.eqb_spec k0 k); [contradiction|].
    now apply IH.
Qed.

Lemma mapKeys_mapSet {V : Type} k (v : V) m k' :
  In k' (mapKeys (mapSet k v m)) -> k' = k \/ In k' (mapKeys m).
Proof.
  induction m as [|[k0 v0] m IH]; cbn [mapSet mapKeys map fst In].
  - intros [<-|[]]. now left.
  - destruct (String.eqb_spec k0 k) as [->|E]; cbn [map fst In].
    + intros [<-|H]; right; [now left|now right].
    + intros [<-|H]; [right; now left|].
      destruct (IH H) as [->|H']; [now left|right; now right].
Qed.

Lemma NoDup_mapSet {V : Type} k (v : V) m :
  NoDup (mapKeys m) -> NoDup (mapKeys (mapSet k v m)).
Proof.
  induction m as [|[k0 v0] m IH]; cbn [mapSet mapKeys map fst].
  - intros _. repeat constructor. now intros [].
  - intros Hnd. inversion Hnd as [|? ? Hk0 Hm]; subst.
    destruct (String.eqb_spec k0 k) as [->|E]; cbn [map fst].
    + now constructor.
    + constructor; [|now apply IH].
      intros H. destruct (mapKeys_mapSet k v m k0 H) as [->|H'];
        [now apply E|now apply Hk0].
Qed.

Lemma mapKeys_mapDelete {V : Type} k (m : list (string * V)) k' :
  In k' (mapKeys (mapDelete k m)) -> In k' (mapKeys m).
Proof.
  induction m as [|[k0 v0] m IH]; cbn [mapDelete mapKeys map fst In];
    [auto|].
  destruct (String.eqb_spec k0 k) as [->|E]; cbn [map fst In].
  - intros H. now right.
  - intros [<-|H]; [now left|right; now apply IH].
Qed.

Lemma NoDup_mapDelete {V : Type} k (m : list (string * V)) :
  NoDup (mapKeys m) -> NoDup (mapKeys (mapDelete k m)).
Proof.
  induction m as [|[k0 v0] m IH]; cbn [mapDelete mapKeys map fst].
  - intros _. constructor.
  - intros Hnd. inversion Hnd as [|? ? Hk0 Hm]; subst.
    destruct (String.eqb_spec k0 k) as [->|E]; cbn [map fst].
    + exact Hm.
    + constructor; [|now apply IH].
      intros H. apply Hk0. now apply (mapKeys_mapDelete k m k0).
Qed.

(** *** The log of upserts *)

Lemma upsertsOf_snoc ticker log u :
  upsertsOf ticker (log ++ [u])
  = upsertsOf ticker log
    ++ (if String.eqb (upsert_ticker u) ticker then [u] else []).
Proof. unfold upsertsOf. now rewrite filter_app. Qed.

Lemma lastUpsert_snoc ticker log u :
  lastUpsert ticker (log ++ [u])
  = if String.eqb (upsert_ticker u) ticker then Some u
    else lastUpsert ticker log.
Proof.
  unfold lastUpsert. rewrite upsertsOf_snoc.
  destruct (String.eqb (upsert_ticker u) ticker).
  - now rewrite rev_app_distr.
  - now rewrite app_nil_r.
Qed.

Lemma lastUpsert_of_last ticker log l u :
  upsertsOf ticker log = l ++ [u] -> lastUpsert ticker log = Some u.
Proof.
  intros H. unfold lastUpsert. now rewrite H, rev_app_distr.
Qed.

Lemma snoc_pair_split {A : Type} (l : list A) u pre u1 u2 post :
  l ++ [u] = pre ++ u1 :: u2 :: post ->
  (post = [] /\ u2 = u /\ l = pre ++ [u1]) \/
  (exists post', l = pre ++ u1 :: u2 :: post').
Proof.
  intros H. destruct post as [|x post] using rev_ind.
  - left. replace (pre ++ [u1; u2]) with ((pre ++ [u1]) ++ [u2]) in H
      by (now rewrite <- app_assoc).
    apply app_inj_tail in H. destruct H as [-> ->]. auto.
  - right. exists post.
    replace (pre ++ u1 :: u2 :: post ++ [x])
      with ((pre ++ u1 :: u2 :: post) ++ [x]) in H
      by (now rewrite <- app_assoc).
    apply app_inj_tail in H. now destruct H as [-> _].
Qed.

(** *** One step of the feed *)

Lemma flushPrice_tracks latest nowMs ticker st :
  tracks latest st -> tracks latest (flushPrice nowMs ticker st).
Proof.
  intros [Hnd Hl]. unfold flushPrice.
  destruct (mapGet ticker (pendingPrices st)) as [price|] eqn:Hp;
    [|now split].
  split; cbn [pendingPrices upserts].
  - now apply NoDup_mapDelete.
  - intros k. unfold lastUpserted. rewrite lastUpsert_snoc.
    cbn [upsert_ticker]. destruct (String.eqb_spec ticker k) as [<-|E].
    + rewrite (mapGet_mapDelete_same _ _ Hnd). cbn [option_map upsert_price].
      now rewrite Hl, Hp.
    + rewrite (mapGet_mapDelete_other _ _ _ E). apply Hl.
Qed.

Lemma updatePrice_tracks latest nowMs flushMs ticker price st :
  tracks latest st ->
  tracks (fun k => if String.eqb ticker k then Some price else latest k)
         (updatePrice nowMs flushMs ticker price st).
Proof.
  intros [Hnd Hl]. unfold updatePrice.
  set (st1 := {| lastUpdateTime := lastUpdateTime st;
                 pendingPrices := mapSet ticker price (pendingPrices st);
                 upserts := upserts st |}).
  assert (H1 : tracks (fun k => if String.eqb ticker k
                                then Some price else latest k) st1).
  { split; cbn [st1 pendingPrices upserts].
    - now apply NoDup_mapSet.
    - intros k. destruct (String.eqb_spec ticker k) as [<-|E].
      + now rewrite mapGet_mapSet_same.
      + rewrite (mapGet_mapSet_other _ _ _ _ E). apply Hl. }
  destruct (_ <? DEBOUNCE_MS); [exact H1|].
  now apply flushPrice_tracks.
Qed.

Lemma lastTraded_snoc ticker events e :
  lastTraded ticker (events ++ [e])
  = match e with
    | Trade _ _ k price =>
        if String.eqb k ticker then Some price else lastTraded ticker events
    | Flush _ _ => lastTraded ticker events
    end.
Proof. unfold lastTraded. now rewrite fold_left_app. Qed.

Lemma runFeed_snoc events e :
  runFeed (events ++ [e]) = feedStep (runFeed events) e.
Proof. unfold runFeed. now rewrite fold_left_app. Qed.

Lemma runFeed_tracks events :
  tracks (fun k => lastTraded k events) (runFeed events).
Proof.
  induction events as [|e events IH] using rev_ind.
  - split; [constructor|]. intros k. reflexivity.
  - rewrite runFeed_snoc.
    destruct e as [nowMs flushMs ticker price|nowMs ticker]; cbn [feedStep].
    + destruct (updatePrice_tracks _ nowMs flushMs ticker price _ IH)
        as [Hnd Hl].
      split; [exact Hnd|]. intros k. rewrite <- Hl, lastTraded_snoc.
      reflexivity.
    + destruct (flushPrice_tracks _ nowMs ticker _ IH) as [Hnd Hl].
      split; [exact Hnd|]. intros k. now rewrite <- Hl, lastTraded_snoc.
Qed.

Lemma flushPrice_stamped nowMs ticker st :
  stamped st -> stamped (flushPrice nowMs ticker st).
Proof.
  intros Hs. unfold flushPrice.
  destruct (mapGet ticker (pendingPrices st)) as [price|]; [|exact Hs].
  intros k. cbn [lastUpdateTime upserts]. unfold lastUpsertAt.
  rewrite lastUpsert_snoc. cbn [upsert_ticker].
  destruct (String.eqb_spec ticker k) as [<-|E].
  - now rewrite mapGet_mapSet_same.
  - rewrite (mapGet_mapSet_other _ _ _ _ E). apply Hs.
Qed.

Lemma updatePrice_stamped nowMs flushMs ticker price st :
  stamped st -> stamped (updatePrice nowMs flushMs ticker price st).
Proof.
  intros Hs. unfold updatePrice.
  destruct (_ <? DEBOUNCE_MS); [exact Hs|].
  apply flushPrice_stamped. exact Hs.
Qed.

Lemma runFeed_stamped events : stamped (runFeed events).
Proof.
  induction events as [|e events IH] using rev_ind.
  - intros k. reflexivity.
  - rewrite runFeed_snoc. destruct e; cbn [feedStep].
    + now apply updatePrice_stamped.
    + now apply flushPrice_stamped.
Qed.

Lemma updatePrice_spaced nowMs flushMs ticker price st :
  nowMs <= flushMs -> stamped st -> spaced (upserts st) ->
  spaced (upserts (updatePrice nowMs flushMs ticker price st)).
Proof.
  intros Hclock Hst Hsp. unfold updatePrice.
  destruct (Z.ltb_spec
              (nowMs - match mapGet ticker (lastUpdateTime st) with
                       | Some t => t
                       | None => 0
                       end) DEBOUNCE_MS) as [Hlt|Hge]; [exact Hsp|].
  unfold flushPrice. cbn [pendingPrices lastUpdateTime upserts].
  rewrite mapGet_mapSet_same. cbn [upserts].
  intros k pre u1 u2 post Hsplit. rewrite upsertsOf_snoc in Hsplit.
  cbn [upsert_ticker] in Hsplit.
  destruct (String.eqb_spec ticker k) as [<-|E].
  - destruct (snoc_pair_split _ _ _ _ _ _ Hsplit)
      as [(_ & -> & Hl)|[post' Hl]].
    + cbn [upsert_at]. rewrite (Hst ticker) in Hge. unfold lastUpsertAt in Hge.
      rewrite (lastUpsert_of_last _ _ _ _ Hl) in Hge.
      cbn [option_map] in Hge. lia.
    + exact (Hsp _ _ _ _ _ Hl).
  - rewrite app_nil_r in Hsplit. exact (Hsp _ _ _ _ _ Hsplit).
Qed.

Lemma runFeed_spaced events :
  Forall tradeInOrder events -> spaced (upserts (runFeed events)).
Proof.
  induction events as [|e events IH] using rev_ind; intros Hall.
  - intros k pre u1 u2 post H. cbn in H. now destruct pre.
  - apply Forall_app in Hall. destruct Hall as [Hevs He].
    inversion He as [|? ? He' _]; subst.
    rewrite runFeed_snoc. destruct e as [nowMs flushMs ticker price|];
      [|contradiction].
    cbn [feedStep]. apply updatePrice_spaced;
      [exact He'|apply runFeed_stamped|now apply IH].
Qed.

Lemma flushAll_fold clock : forall entries st,
  pendingPrices st = entries ->
  pendingPrices (fold_left (fun s ticker => flushPrice (clock ticker) ticker s)
                           (mapKeys entries) st) = [] /\
  upserts (fold_left (fun s ticker => flushPrice (clock ticker) ticker s)
                     (mapKeys entries) st)
  = upserts st ++ map (upsertOf clock) entries.
Proof.
  induction entries as [|[k v] entries IH]; intros st Hp.
  - cbn [mapKeys map fold_left]. now rewrite app_nil_r.
  - cbn [mapKeys map fst fold_left].
    assert (Hflush : flushPrice (clock k) k st
                     = {| lastUpdateTime :=
                            mapSet k (clock k) (lastUpdateTime st);
                          pendingPrices := entries;
                          upserts := upserts st ++ [upsertOf clock (k, v)] |}).
    { unfold flushPrice. rewrite Hp. cbn [mapGet mapDelete].
      now rewrite String.eqb_refl. }
    rewrite Hflush.
    destruct (IH {| lastUpdateTime := mapSet k (clock k) (lastUpdateTime st);
                    pendingPrices := entries;
                    upserts := upserts st ++ [upsertOf clock (k, v)] |}
                 eq_refl) as [H1 H2].
    split; [exact H1|]. unfold mapKeys in H2. rewrite H2. cbn [upserts map].
    now rewrite <- app_assoc.
Qed.

(** X17.  The feed does not lose the latest price: after any run of
    trades and flushes, the price of the last trade of a ticker is either
    pending for it or, when nothing is pending for it, the price of its
    last upsert. *)
Theorem latest_price_pending_or_upserted events ticker price :
  lastTraded ticker events = Some price ->
  mapGet ticker (pendingPrices (runFeed events)) = Some price \/
  (mapGet ticker (pendingPrices (runFeed events)) = None /\
   lastUpserted ticker (upserts (runFeed events)) = Some price).
Proof.
  intros Hlast. destruct (runFeed_tracks events) as [_ Hl].
  specialize (Hl ticker). cbn beta in Hl. rewrite Hlast in Hl.
  destruct (mapGet ticker (pendingPrices (runFeed events))) as [q|].
  - left. now symmetry.
  - right. split; [reflexivity|now symmetry].
Qed.

Lemma latest_price_pending_or_upserted_witness :
  lastTraded "BMNR"%string LoopFixtures.threeTrades = Some (ofZ 42) /\
  (mapGet "BMNR"%string (pendingPrices (runFeed LoopFixtures.threeTrades))
   = Some (ofZ 42) \/
   (mapGet "BMNR"%string (pendingPrices (runFeed LoopFixtures.threeTrades))
    = None /\
    lastUpserted "BMNR"%string (upserts (runFeed LoopFixtures.threeTrades))
    = Some (ofZ 42))).
Proof.
  assert (H : lastTraded "BMNR"%string LoopFixtures.threeTrades
              = Some (ofZ 42))
    by reflexivity.
  split; [exact H|].
  exact (latest_price_pending_or_upserted
           LoopFixtures.threeTrades "BMNR"%string (ofZ 42) H).
Defined.

(** X18.  The debounce holds between trades and not across the periodic
    flush.  In a run of trades alone, two upserts of a ticker in a row
    are started at least [DEBOUNCE_MS] apart.  A flush pays no regard to
    the instant of the last upsert: a trade that is upserted, a second
    trade a millisecond later and a flush a millisecond after that start
    two upserts of the ticker two milliseconds apart. *)
Theorem debounce_between_trades_only :
  (forall events ticker pre u1 u2 post,
      Forall tradeInOrder events ->
      upsertsOf ticker (upserts (runFeed events)) = pre ++ u1 :: u2 :: post ->
      DEBOUNCE_MS <= upsert_at u2 - upsert_at u1) /\
  (forall t ticker p q,
      DEBOUNCE_MS <= t ->
      upserts (runFeed [Trade t t ticker p; Trade (t + 1) (t + 1) ticker q;
                        Flush (t + 2) ticker])
      = [ {| upsert_ticker := ticker; upsert_price := p; upsert_at := t |};
          {| upsert_ticker := ticker; upsert_price := q;
             upsert_at := t + 2 |} ]).
Proof.
  split.
  - intros events ticker pre u1 u2 post Hall Hsplit.
    exact (runFeed_spaced events Hall ticker pre u1 u2 post Hsplit).
  - intros t ticker p q Ht. unfold runFeed, DEBOUNCE_MS in *.
    cbn [fold_left feedStep]. unfold updatePrice at 2.
    cbn [emptyFeed lastUpdateTime pendingPrices upserts mapGet mapSet].
    destruct (Z.ltb_spec (t - 0) DEBOUNCE_MS) as [H|_];
      [unfold DEBOUNCE_MS in H; lia|].
    unfold flushPrice at 2.
    cbn [pendingPrices lastUpdateTime upserts mapGet mapSet mapDelete].
    rewrite String.eqb_refl. cbn [mapSet mapDelete app].
    unfold updatePrice.
    cbn [pendingPrices lastUpdateTime upserts mapGet mapSet].
    rewrite String.eqb_refl.
    destruct (Z.ltb_spec (t + 1 - t) DEBOUNCE_MS) as [_|H];
      [|unfold DEBOUNCE_MS in H; lia].
    unfold flushPrice.
    cbn [pendingPrices lastUpdateTime upserts mapGet mapSet mapDelete].
    rewrite String.eqb_refl. reflexivity.
Qed.

Lemma debounce_between_trades_only_witness :
  Forall tradeInOrder LoopFixtures.threeTrades /\
  upsertsOf "BMNR"%string (upserts (runFeed LoopFixtures.threeTrades))
  = [] ++ LoopFixtures.firstUpsert :: LoopFixtures.secondUpsert :: [] /\
  DEBOUNCE_MS <= upsert_at LoopFixtures.secondUpsert
                 - upsert_at LoopFixtures.firstUpsert.
Proof.
  assert (H1 : Forall tradeInOrder LoopFixtures.threeTrades)
    by (repeat constructor; cbn; lia).
  assert (H2 : upsertsOf "BMNR"%string
                         (upserts (runFeed LoopFixtures.threeTrades))
               = [] ++ LoopFixtures.firstUpsert
                    :: LoopFixtures.secondUpsert :: [])
    by reflexivity.
  split; [exact H1|]. split; [exact H2|].
  exact (proj1 debounce_between_trades_only
           LoopFixtures.threeTrades "BMNR"%string []
           LoopFixtures.firstUpsert LoopFixtures.secondUpsert [] H1 H2).
Defined.

(** X19.  A periodic flush that runs undisturbed empties
    [pendingPrices] and starts one upsert for each pending entry, in the
    order of the map, with the pending price. *)
Theorem flush_all_empties_pending clock st :
  pendingPrices (flushAllPendingPrices clock st) = [] /\
  upserts (flushAllPendingPrices clock st)
  = upserts st ++ map (upsertOf clock) (pendingPrices st).
Proof.
  unfold flushAllPendingPrices.
  exact (flushAll_fold clock (pendingPrices st) st eq_refl).
Qed.

(** *** Reconnecting *)

Lemma reconnectDelays_closes : forall n a,
  reconnectDelays (Z.of_nat a) (repeat Close n)
  = map (fun i => RECONNECT_BASE_DELAY_MS * 2 ^ Z.of_nat i)
        (seq a (Nat.min n (10 - a))).
Proof.
  induction n as [|n IH]; intros a; [reflexivity|].
  cbn [repeat reconnectDelays socketStep]. unfold scheduleReconnect.
  unfold MAX_RECONNECT_ATTEMPTS.
  destruct (Z.leb_spec 10 (Z.of_nat a)) as [Hge|Hlt].
  - replace (10 - a)%nat with 0%nat by lia.
    rewrite Nat.min_0_r. cbn [seq map].
    specialize (IH a). replace (10 - a)%nat with 0%nat in IH by lia.
    now rewrite Nat.min_0_r in IH.
  - replace (10 - a)%nat with (S (10 - S a)) by lia.
    rewrite <- Nat.succ_min_distr. cbn [seq map]. f_equal.
    replace (Z.of_nat a + 1) with (Z.of_nat (S a)) by lia.
    apply IH.
Qed.

Lemma reconnectDelays_app : forall pre a post,
  reconnectDelays a (pre ++ post)
  = reconnectDelays a pre ++ reconnectDelays (attemptsAfter a pre) post.
Proof.
  induction pre as [|e pre IH]; intros a post; [reflexivity|].
  cbn [app reconnectDelays]. unfold attemptsAfter. cbn [fold_left].
  destruct (socketStep a e) as [[d|] a'] eqn:E; cbn [snd];
    rewrite IH; reflexivity.
Qed.

(** X20.  Reconnecting backs off and then gives up.  From a fresh
    counter, [n] closes in a row set the timers of
    [1000 * 2 ^ i] ms for [i] below [n] and below ten, and none after the
    tenth; an [open] restores the fresh counter whatever came before. *)
Theorem reconnect_backoff_doubles_and_stops n :
  reconnectDelays 0 (repeat Close n)
  = map (fun i => RECONNECT_BASE_DELAY_MS * 2 ^ Z.of_nat i)
        (seq 0 (Nat.min n 10)) /\
  (forall a pre,
      reconnectDelays a (pre ++ Open :: repeat Close n)
      = reconnectDelays a pre ++ reconnectDelays 0 (repeat Close n)).
Proof.
  split.
  - exact (reconnectDelays_closes n 0).
  - intros a pre. rewrite reconnectDelays_app. f_equal.
Qed.
End FeedFacts.

(** ** The loops of the service *)

Section LoopFacts.
Import JsNum AlertStore MnavMonitorLoops MonitorSpec LoopSpec.

Lemma checkOne_report w nowMs m alerts : forall db triggered,
  snd (fold_left (checkOne w nowMs m) alerts (db, triggered))
  = triggered
    ++ filter (fun alert => MnavMonitorService.shouldTriggerAlert nowMs alert m)
              alerts.
Proof.
  induction alerts as [|a alerts IH]; intros db triggered.
  - cbn [fold_left filter snd]. now rewrite app_nil_r.
  - cbn [fold_left filter]. unfold checkOne at 2.
    destruct (MnavMonitorService.shouldTriggerAlert nowMs a m).
    + rewrite IH. now rewrite <- app_assoc.
    + apply IH.
Qed.

Lemma checkOne_store w nowMs m alerts :
  (forall a, insertResult w a = None) ->
  forall db triggered,
    fst (fold_left (checkOne w nowMs m) alerts (db, triggered)) = db.
Proof.
  intros Hw. induction alerts as [|a alerts IH]; intros db triggered;
    [reflexivity|].
  cbn [fold_left]. unfold checkOne at 2.
  destruct (MnavMonitorService.shouldTriggerAlert nowMs a m); [|apply IH].
  unfold triggerAlert, insertThenUpdate. rewrite Hw. cbn [fst]. apply IH.
Qed.

Lemma checkGroup_report r w groups : forall db results,
  snd (fold_left (checkGroup r w) groups (db, results))
  = results ++ flat_map (reportOf r) groups.
Proof.
  induction groups as [|[k v] groups IH]; intros db results.
  - cbn [fold_left flat_map snd]. now rewrite app_nil_r.
  - cbn [fold_left flat_map]. unfold checkGroup at 2, reportOf at 1.
    cbn [fst snd].
    destruct (currentMnavOf r k) as [m|]; [|apply IH].
    pose proof (checkOne_report w (now r) m v db []) as Hrep.
    destruct (fold_left (checkOne w (now r) m) v (db, [])) as [db' t].
    cbn [snd app] in Hrep. subst t.
    rewrite IH. now rewrite <- app_assoc.
Qed.

Lemma checkGroup_store r w groups :
  (forall a, insertResult w a = None) ->
  forall db results,
    fst (fold_left (checkGroup r w) groups (db, results)) = db.
Proof.
  intros Hw. induction groups as [|[k v] groups IH]; intros db results;
    [reflexivity|].
  cbn [fold_left]. unfold checkGroup at 2.
  destruct (currentMnavOf r k) as [m|]; [|apply IH].
  pose proof (checkOne_store w (now r) m v Hw db []) as Hst.
  destruct (fold_left (checkOne w (now r) m) v (db, [])) as [db' t].
  cbn [fst] in Hst. subst db'. apply IH.
Qed.

(** X21.  What [checkAllAlerts] reports does not depend on the writes:
    for each company with a computable mNAV it lists the alerts of the
    snapshot that pass [shouldTriggerAlert], whether or not their
    notification was stored.  When every insert fails, the store is left
    as it was and the alerts are reported as triggered all the same. *)
Theorem report_does_not_depend_on_writes r w db0 :
  snd (checkAllAlerts r w db0)
  = flat_map (reportOf r)
             (MnavMonitorRoute.objectEntries
                (MnavMonitorRoute.alertsByCompany (getActiveAlerts db0))) /\
  ((forall a, insertResult w a = None) ->
   fst (checkAllAlerts r w db0) = db0).
Proof.
  unfold checkAllAlerts.
  destruct (getActiveAlerts db0) as [|a alerts] eqn:E.
  - split; [reflexivity|]. intros _. reflexivity.
  - split.
    + apply (checkGroup_report r w _ db0 []).
    + intros Hw. apply (checkGroup_store r w _ Hw db0 []).
Qed.

Lemma report_does_not_depend_on_writes_witness :
  (forall a, insertResult Fixtures.failingWrites a = None) /\
  fst (checkAllAlerts LoopFixtures.serviceReads Fixtures.failingWrites
                      Fixtures.alertsDb) = Fixtures.alertsDb /\
  map triggered_alerts
      (snd (checkAllAlerts LoopFixtures.serviceReads Fixtures.failingWrites
                           Fixtures.alertsDb))
  = [[Fixtures.firedRule]].
Proof.
  assert (H : forall a, insertResult Fixtures.failingWrites a = None)
    by (intros a; reflexivity).
  split; [exact H|]. split.
  - exact (proj2 (report_does_not_depend_on_writes
                    LoopFixtures.serviceReads Fixtures.failingWrites
                    Fixtures.alertsDb) H).
  - vm_compute. reflexivity.
Defined.

(** *** The answer for the external e-mail service *)

Lemma recordOne_answer w nowMs m db0 a : forall st,
  (exists added,
      mnav_notifications (fst st) = mnav_notifications db0 ++ added /\
      map storedKey (filter hasTruthyId added) = map answerKey (snd st)) ->
  exists added,
    mnav_notifications (fst (recordOne w nowMs m st a))
    = mnav_notifications db0 ++ added /\
    map storedKey (filter hasTruthyId added)
    = map answerKey (snd (recordOne w nowMs m st a)).
Proof.
  intros [db t] [added [Hn Hk]]. cbn [fst snd] in Hn, Hk.
  unfold recordOne.
  destruct (MnavMonitorService.shouldTriggerAlert nowMs a m);
    [|now exists added].
  unfold MnavMonitorService.recordTriggeredAlert, insertThenUpdate.
  destruct (insertResult w a) as [nid|]; [|now exists added].
  exists (added ++ [notificationFor nid a m]).
  rewrite filter_app. cbn [filter]. unfold hasTruthyId at 2.
  cbn [notification_id notificationFor].
  destruct (MnavService.strTruthy nid); cbn [fst snd mnav_notifications].
  - split; [now rewrite Hn, <- app_assoc|].
    rewrite !map_app, Hk. reflexivity.
  - split; [now rewrite Hn, <- app_assoc|].
    now rewrite app_nil_r.
Qed.

Lemma recordOnes_answer w nowMs m db0 alerts : forall st,
  (exists added,
      mnav_notifications (fst st) = mnav_notifications db0 ++ added /\
      map storedKey (filter hasTruthyId added) = map answerKey (snd st)) ->
  exists added,
    mnav_notifications (fst (fold_left (recordOne w nowMs m) alerts st))
    = mnav_notifications db0 ++ added /\
    map storedKey (filter hasTruthyId added)
    = map answerKey (snd (fold_left (recordOne w nowMs m) alerts st)).
Proof.
  induction alerts as [|a alerts IH]; intros st H; [exact H|].
  cbn [fold_left]. apply IH. now apply recordOne_answer.
Qed.

Lemma recordGroups_answer r w db0 groups : forall st,
  (exists added,
      mnav_notifications (fst st) = mnav_notifications db0 ++ added /\
      map storedKey (filter hasTruthyId added) = map answerKey (snd st)) ->
  exists added,
    mnav_notifications (fst (fold_left (recordGroup r w) groups st))
    = mnav_notifications db0 ++ added /\
    map storedKey (filter hasTruthyId added)
    = map answerKey (snd (fold_left (recordGroup r w) groups st)).
Proof.
  induction groups as [|[k v] groups IH]; intros st H; [exact H|].
  cbn [fold_left]. apply IH. unfold recordGroup.
  destruct (currentMnavOf r k) as [m|]; [|exact H].
  now apply recordOnes_answer.
Qed.

Lemma alertsOf_nonempty k alerts :
  alertsOf k alerts <> [] <-> In k (map company_id alerts).
Proof.
  unfold alertsOf. induction alerts as [|a alerts IH];
    cbn [filter map In]; [tauto|].
  destruct (String.eqb_spec k (company_id a)) as [->|E].
  - split; [now left|discriminate].
  - rewrite IH. split; [now right|]. intros [H|H]; [congruence|exact H].
Qed.

Lemma groups_count alerts :
  List.length (MnavMonitorRoute.objectKeys
                 (MnavMonitorRoute.alertsByCompany alerts))
  = List.length (companiesOf alerts).
Proof.
  unfold MnavMonitorRoute.objectKeys.
  rewrite length_map,
    (Permutation_length
       (objectEntries_members (MnavMonitorRoute.alertsByCompany alerts))).
  destruct (grouping_invariant alerts [] []) as [Hnd Hin].
  { split; [constructor|]. intros k v. cbn [In alertsOf filter].
    split; [contradiction|]. now intros [-> H]. }
  cbn [app] in Hin. fold (MnavMonitorRoute.alertsByCompany alerts) in Hnd, Hin.
  rewrite <- (length_map fst (MnavMonitorRoute.alertsByCompany alerts)).
  apply Permutation_length, NoDup_Permutation;
    [exact Hnd|apply NoDup_nodup|].
  intros k. unfold companiesOf. rewrite nodup_In, <- alertsOf_nonempty.
  split.
  - intros Hk. apply in_map_iff in Hk. destruct Hk as [[k' v] [Hk Hg]].
    cbn [fst] in Hk. subst k'. apply Hin in Hg. destruct Hg as [Hv Hne].
    now rewrite <- Hv.
  - intros Hne. change k with (fst (k, alertsOf k alerts)).
    apply in_map. apply Hin. auto.
Qed.

(** X22.  The answer of [checkAlertsForExternalEmail] lists the alerts
    whose notification the call stored under a truthy [id]: the
    notifications it appended to the table that have a non-empty [id],
    and the entries of [triggered_alerts], name the same rules with the
    same mNAV, in the same order, and [total_alerts_triggered] is their
    number; a notification stored under an empty [id] is stored and not
    listed.  [total_companies_checked] is the number of companies that
    have an active alert, those whose mNAV could not be computed
    included. *)
Theorem email_answer_matches_store r w db0 :
  (exists added,
      mnav_notifications (fst (checkAlertsForExternalEmail r w db0))
      = mnav_notifications db0 ++ added /\
      map storedKey (filter hasTruthyId added)
      = map answerKey
            (email_triggered_alerts
               (snd (checkAlertsForExternalEmail r w db0))) /\
      total_alerts_triggered (snd (checkAlertsForExternalEmail r w db0))
      = List.length (filter hasTruthyId added)) /\
  total_companies_checked (snd (checkAlertsForExternalEmail r w db0))
  = List.length (companiesOf (getActiveAlerts db0)).
Proof.
  unfold checkAlertsForExternalEmail.
  destruct (getActiveAlerts db0) as [|a alerts] eqn:E.
  - split; [|reflexivity]. exists []. cbn [fst snd]. now rewrite app_nil_r.
  - destruct (recordGroups_answer r w db0
                (MnavMonitorRoute.objectEntries
                   (MnavMonitorRoute.alertsByCompany (a :: alerts)))
                (db0, []))
      as [added [Hn Hk]].
    { exists []. cbn [fst snd map filter]. now rewrite app_nil_r. }
    destruct (fold_left (recordGroup r w)
                        (MnavMonitorRoute.objectEntries
                           (MnavMonitorRoute.alertsByCompany (a :: alerts)))
                        (db0, [])) as [db' t].
    cbn [fst snd email_triggered_alerts total_alerts_triggered
         total_companies_checked] in *.
    split; [|apply groups_count].
    exists added. split; [exact Hn|]. split; [exact Hk|].
    now rewrite <- (length_map answerKey t), <- Hk, length_map.
Qed.
End LoopFacts.

(** ** The mNAV of the service without a share count *)

Section ServiceMnavFacts.
Import JsNum AlertStore.

Lemma orZero_falsy v : truthyOpt v = false -> orZero v = zero.
Proof.
  destruct v as [x|]; [|reflexivity]. cbn [truthyOpt orZero].
  now intros ->.
Qed.

(** X23.  The service takes a missing share count for zero shares.  When
    the newest row of [company_metrics] has no truthy
    [shares_outstanding] and the newest close is finite, an mNAV that is
    computed and is a number is zero, and with it every rule of direction
    ["below"] that has a positive threshold and has not fired before is
    due. *)
Theorem missing_share_count_gives_zero_mnav
    metrics stockPrices currentEthPrice latestMetric latestStockPrice close m :
  hd_error metrics = Some latestMetric ->
  hd_error stockPrices = Some latestStockPrice ->
  truthyOpt (num (MnavService.shares_outstanding latestMetric)) = false ->
  MnavService.close latestStockPrice = Some close ->
  isFinite close = true ->
  MnavMonitorService.calculateCurrentMnav metrics stockPrices currentEthPrice
  = Some m ->
  isNaN m = false ->
  strictEq m zero = true /\
  (forall nowMs alert,
      alert_type alert = "below"%string ->
      lt zero (threshold_value alert) = true ->
      last_triggered_at alert = None ->
      MnavMonitorService.shouldTriggerAlert nowMs alert m = true).
Proof.
  intros Hm Hp Hshares Hclose Hfin Hcalc Hnan.
  unfold MnavMonitorService.calculateCurrentMnav in Hcalc.
  destruct metrics as [|latest ms]; [discriminate|].
  destruct stockPrices as [|price sp]; [discriminate|].
  cbn [hd_error] in Hm, Hp. injection Hm as ->. injection Hp as ->.
  destruct currentEthPrice as [ethP|]; [|discriminate].
  destruct (truthy ethP); cbn [negb] in Hcalc; [|discriminate].
  rewrite Hclose in Hcalc.
  destruct (truthy close) eqn:Ht; cbn [negb] in Hcalc; [|discriminate].
  rewrite (orZero_falsy _ Hshares) in Hcalc.
  destruct (le _ zero) eqn:Hle; [discriminate|].
  injection Hcalc as <-.
  destruct close as [sc|sc| |sc mc ec]; try discriminate.
  set (nav := add _ _) in *.
  change (mul zero (S754_finite sc mc ec)) with (S754_zero sc) in *.
  assert (Hzero : exists s, div (S754_zero sc) nav = S754_zero s).
  { destruct nav as [sn|sn| |sn mn en]; cbn in Hnan; try discriminate;
      eexists; reflexivity. }
  destruct Hzero as [s Hz]. rewrite Hz. split; [now destruct s|].
  intros nowMs alert Hty Hthr Hlast.
  unfold MnavMonitorService.shouldTriggerAlert. rewrite Hlast, Hty.
  cbn [String.eqb].
  destruct (threshold_value alert) as [st|st| |st mt et];
    try discriminate; destruct s, st; try discriminate; reflexivity.
Qed.

Lemma missing_share_count_gives_zero_mnav_witness :
  MnavMonitorLoops.currentMnavOf LoopFixtures.serviceReads "bmnr"
  = Some zero /\
  MnavMonitorService.shouldTriggerAlert
    (MnavMonitorLoops.now LoopFixtures.serviceReads)
    LoopFixtures.belowRule zero = true.
Proof.
  assert (H : MnavMonitorService.calculateCurrentMnav
                Fixtures.holdingsOnly
                [Fixtures.priceOn Fixtures.day1 (ofZ 40)]
                (Some (ofZ 2000)) = Some zero)
    by (vm_compute; reflexivity).
  split; [exact H|].
  exact (proj2 (missing_share_count_gives_zero_mnav
                  Fixtures.holdingsOnly
                  [Fixtures.priceOn Fixtures.day1 (ofZ 40)]
                  (Some (ofZ 2000))
                  (Fixtures.disclosure
                     (Fixtures.day1 * MnavService.msPerDay)
                     (Some (ofZ 100)) None None)
                  (Fixtures.priceOn Fixtures.day1 (ofZ 40))
                  (ofZ 40) zero
                  eq_refl eq_refl eq_refl eq_refl eq_refl H eq_refl)
               (MnavMonitorLoops.now LoopFixtures.serviceReads)
               LoopFixtures.belowRule eq_refl eq_refl eq_refl).
Defined.
End ServiceMnavFacts.
